(** * WeatherItBetter: the preference store and the activity classifier

    A shallow embedding of
      - [src/agents/preference_agent.py]  (class [PreferenceManager]),
      - [scripts/push_preferences.py]     (function [push_preference]),
      - [src/agents/activity_agent.py]    ([ActivityDetector.analyze_event]),
    together with the parts of Python they lean on: [str] operations,
    insertion-ordered [dict]s, exceptions, and the [json] codec used for
    the backing file.

    Conventions.
      - A Python [str] is a list of Unicode code points ([text]).
        [str.lower] follows CPython 3.11, which carries version 14.0 of
        the Unicode character database.
      - A Python [dict] is an association list in insertion order whose
        keys are pairwise distinct.
      - Effects are explicit: a computation of type [ST S A] runs on a
        state [S], changes it, and either returns an [A] or raises.  The
        state of a library call is the [world] (backing file, remote
        service, log of remote calls); the state of a method is the pair
        of [self] and the world.  What was changed before an exception is
        raised stays changed. *)

From Stdlib Require Import List NArith Arith Bool String Ascii Lia.
From Stdlib Require Import DecimalNat.
Import ListNotations.

Set Implicit Arguments.

(* ===================================================================== *)
(** * Python text *)
(* ===================================================================== *)

Module Text.

Definition text := list N.

(** A literal: each character of an ASCII Rocq string is one code point. *)
Definition T (s : string) : text := map N_of_ascii (list_ascii_of_string s).

Fixpoint text_eqb (a b : text) : bool :=
  match a, b with
  | [], [] => true
  | x :: a', y :: b' => N.eqb x y && text_eqb a' b'
  | _, _ => false
  end.

(** [s.startswith(prefix)] *)
Fixpoint startswith (s prefix : text) {struct prefix} : bool :=
  match prefix, s with
  | [], _ => true
  | p :: prefix', c :: s' => N.eqb c p && startswith s' prefix'
  | _ :: _, [] => false
  end.

(** [needle in hay] *)
Fixpoint contains (needle hay : text) : bool :=
  startswith hay needle ||
  match hay with
  | [] => false
  | _ :: hay' => contains needle hay'
  end.

(** ** [str.lower]

    CPython lowers a string character by character with the full lower
    case mapping of the Unicode character database; the capital sigma is
    the one character whose image depends on its neighbours. *)

(** The simple lower-case mappings of the Unicode character database,
    version 14.0, which CPython 3.11 carries: [(first, last, step, target)]
    maps [first] to [target], [first + step] to [target + step], and so on
    up to [last]. *)
Definition LOWER_RUNS : list (N * N * N * N) :=
  [ (65, 90, 1, 97); (192, 214, 1, 224); (216, 222, 1, 248);
    (256, 302, 2, 257); (306, 310, 2, 307); (313, 327, 2, 314);
    (330, 374, 2, 331); (376, 376, 1, 255); (377, 381, 2, 378);
    (385, 385, 1, 595); (386, 388, 2, 387); (390, 390, 1, 596);
    (391, 391, 1, 392); (393, 394, 1, 598); (395, 395, 1, 396);
    (398, 398, 1, 477); (399, 399, 1, 601); (400, 400, 1, 603);
    (401, 401, 1, 402); (403, 403, 1, 608); (404, 404, 1, 611);
    (406, 406, 1, 617); (407, 407, 1, 616); (408, 408, 1, 409);
    (412, 412, 1, 623); (413, 413, 1, 626); (415, 415, 1, 629);
    (416, 420, 2, 417); (422, 422, 1, 640); (423, 423, 1, 424);
    (425, 425, 1, 643); (428, 428, 1, 429); (430, 430, 1, 648);
    (431, 431, 1, 432); (433, 434, 1, 650); (435, 437, 2, 436);
    (439, 439, 1, 658); (440, 440, 1, 441); (444, 444, 1, 445);
    (452, 452, 1, 454); (453, 453, 1, 454); (455, 455, 1, 457);
    (456, 456, 1, 457); (458, 458, 1, 460); (459, 475, 2, 460);
    (478, 494, 2, 479); (497, 497, 1, 499); (498, 500, 2, 499);
    (502, 502, 1, 405); (503, 503, 1, 447); (504, 542, 2, 505);
    (544, 544, 1, 414); (546, 562, 2, 547); (570, 570, 1, 11365);
    (571, 571, 1, 572); (573, 573, 1, 410); (574, 574, 1, 11366);
    (577, 577, 1, 578); (579, 579, 1, 384); (580, 580, 1, 649);
    (581, 581, 1, 652); (582, 590, 2, 583); (880, 882, 2, 881);
    (886, 886, 1, 887); (895, 895, 1, 1011); (902, 902, 1, 940);
    (904, 906, 1, 941); (908, 908, 1, 972); (910, 911, 1, 973);
    (913, 929, 1, 945); (931, 939, 1, 963); (975, 975, 1, 983);
    (984, 1006, 2, 985); (1012, 1012, 1, 952); (1015, 1015, 1, 1016);
    (1017, 1017, 1, 1010); (1018, 1018, 1, 1019); (1021, 1023, 1, 891);
    (1024, 1039, 1, 1104); (1040, 1071, 1, 1072); (1120, 1152, 2, 1121);
    (1162, 1214, 2, 1163); (1216, 1216, 1, 1231); (1217, 1229, 2, 1218);
    (1232, 1326, 2, 1233); (1329, 1366, 1, 1377); (4256, 4293, 1, 11520);
    (4295, 4295, 1, 11559); (4301, 4301, 1, 11565); (5024, 5103, 1, 43888);
    (5104, 5109, 1, 5112); (7312, 7354, 1, 4304); (7357, 7359, 1, 4349);
    (7680, 7828, 2, 7681); (7838, 7838, 1, 223); (7840, 7934, 2, 7841);
    (7944, 7951, 1, 7936); (7960, 7965, 1, 7952); (7976, 7983, 1, 7968);
    (7992, 7999, 1, 7984); (8008, 8013, 1, 8000); (8025, 8031, 2, 8017);
    (8040, 8047, 1, 8032); (8072, 8079, 1, 8064); (8088, 8095, 1, 8080);
    (8104, 8111, 1, 8096); (8120, 8121, 1, 8112); (8122, 8123, 1, 8048);
    (8124, 8124, 1, 8115); (8136, 8139, 1, 8050); (8140, 8140, 1, 8131);
    (8152, 8153, 1, 8144); (8154, 8155, 1, 8054); (8168, 8169, 1, 8160);
    (8170, 8171, 1, 8058); (8172, 8172, 1, 8165); (8184, 8185, 1, 8056);
    (8186, 8187, 1, 8060); (8188, 8188, 1, 8179); (8486, 8486, 1, 969);
    (8490, 8490, 1, 107); (8491, 8491, 1, 229); (8498, 8498, 1, 8526);
    (8544, 8559, 1, 8560); (8579, 8579, 1, 8580); (9398, 9423, 1, 9424);
    (11264, 11311, 1, 11312); (11360, 11360, 1, 11361);
    (11362, 11362, 1, 619); (11363, 11363, 1, 7549); (11364, 11364, 1, 637);
    (11367, 11371, 2, 11368); (11373, 11373, 1, 593);
    (11374, 11374, 1, 625); (11375, 11375, 1, 592); (11376, 11376, 1, 594);
    (11378, 11378, 1, 11379); (11381, 11381, 1, 11382);
    (11390, 11391, 1, 575); (11392, 11490, 2, 11393);
    (11499, 11501, 2, 11500); (11506, 11506, 1, 11507);
    (42560, 42604, 2, 42561); (42624, 42650, 2, 42625);
    (42786, 42798, 2, 42787); (42802, 42862, 2, 42803);
    (42873, 42875, 2, 42874); (42877, 42877, 1, 7545);
    (42878, 42886, 2, 42879); (42891, 42891, 1, 42892);
    (42893, 42893, 1, 613); (42896, 42898, 2, 42897);
    (42902, 42920, 2, 42903); (42922, 42922, 1, 614);
    (42923, 42923, 1, 604); (42924, 42924, 1, 609); (42925, 42925, 1, 620);
    (42926, 42926, 1, 618); (42928, 42928, 1, 670); (42929, 42929, 1, 647);
    (42930, 42930, 1, 669); (42931, 42931, 1, 43859);
    (42932, 42946, 2, 42933); (42948, 42948, 1, 42900);
    (42949, 42949, 1, 642); (42950, 42950, 1, 7566);
    (42951, 42953, 2, 42952); (42960, 42960, 1, 42961);
    (42966, 42968, 2, 42967); (42997, 42997, 1, 42998);
    (65313, 65338, 1, 65345); (66560, 66599, 1, 66600);
    (66736, 66771, 1, 66776); (66928, 66938, 1, 66967);
    (66940, 66954, 1, 66979); (66956, 66962, 1, 66995);
    (66964, 66965, 1, 67003); (68736, 68786, 1, 68800);
    (71840, 71871, 1, 71872); (93760, 93791, 1, 93792);
    (125184, 125217, 1, 125218) ]%N.

(** The code points with the property [Cased], as inclusive ranges. *)
Definition CASED : list (N * N) :=
  [ (65, 90); (97, 122); (170, 170); (181, 181); (186, 186); (192, 214);
    (216, 246); (248, 442); (444, 447); (452, 659); (661, 696); (704, 705);
    (736, 740); (837, 837); (880, 883); (886, 887); (890, 893); (895, 895);
    (902, 902); (904, 906); (908, 908); (910, 929); (931, 1013);
    (1015, 1153); (1162, 1327); (1329, 1366); (1376, 1416); (4256, 4293);
    (4295, 4295); (4301, 4301); (4304, 4346); (4349, 4351); (5024, 5109);
    (5112, 5117); (7296, 7304); (7312, 7354); (7357, 7359); (7424, 7615);
    (7680, 7957); (7960, 7965); (7968, 8005); (8008, 8013); (8016, 8023);
    (8025, 8025); (8027, 8027); (8029, 8029); (8031, 8061); (8064, 8116);
    (8118, 8124); (8126, 8126); (8130, 8132); (8134, 8140); (8144, 8147);
    (8150, 8155); (8160, 8172); (8178, 8180); (8182, 8188); (8305, 8305);
    (8319, 8319); (8336, 8348); (8450, 8450); (8455, 8455); (8458, 8467);
    (8469, 8469); (8473, 8477); (8484, 8484); (8486, 8486); (8488, 8488);
    (8490, 8493); (8495, 8500); (8505, 8505); (8508, 8511); (8517, 8521);
    (8526, 8526); (8544, 8575); (8579, 8580); (9398, 9449); (11264, 11492);
    (11499, 11502); (11506, 11507); (11520, 11557); (11559, 11559);
    (11565, 11565); (42560, 42605); (42624, 42653); (42786, 42887);
    (42891, 42894); (42896, 42954); (42960, 42961); (42963, 42963);
    (42965, 42969); (42997, 42998); (43000, 43002); (43824, 43866);
    (43868, 43880); (43888, 43967); (64256, 64262); (64275, 64279);
    (65313, 65338); (65345, 65370); (66560, 66639); (66736, 66771);
    (66776, 66811); (66928, 66938); (66940, 66954); (66956, 66962);
    (66964, 66965); (66967, 66977); (66979, 66993); (66995, 67001);
    (67003, 67004); (67456, 67456); (67459, 67461); (67463, 67504);
    (67506, 67514); (68736, 68786); (68800, 68850); (71840, 71903);
    (93760, 93823); (119808, 119892); (119894, 119964); (119966, 119967);
    (119970, 119970); (119973, 119974); (119977, 119980); (119982, 119993);
    (119995, 119995); (119997, 120003); (120005, 120069); (120071, 120074);
    (120077, 120084); (120086, 120092); (120094, 120121); (120123, 120126);
    (120128, 120132); (120134, 120134); (120138, 120144); (120146, 120485);
    (120488, 120512); (120514, 120538); (120540, 120570); (120572, 120596);
    (120598, 120628); (120630, 120654); (120656, 120686); (120688, 120712);
    (120714, 120744); (120746, 120770); (120772, 120779); (122624, 122633);
    (122635, 122654); (125184, 125251); (127280, 127305); (127312, 127337);
    (127344, 127369) ]%N.

(** The code points with the property [Case_Ignorable], as inclusive
    ranges. *)
Definition CASE_IGNORABLE : list (N * N) :=
  [ (39, 39); (46, 46); (58, 58); (94, 94); (96, 96); (168, 168);
    (173, 173); (175, 175); (180, 180); (183, 184); (688, 879); (884, 885);
    (890, 890); (900, 901); (903, 903); (1155, 1161); (1369, 1369);
    (1375, 1375); (1425, 1469); (1471, 1471); (1473, 1474); (1476, 1477);
    (1479, 1479); (1524, 1524); (1536, 1541); (1552, 1562); (1564, 1564);
    (1600, 1600); (1611, 1631); (1648, 1648); (1750, 1757); (1759, 1768);
    (1770, 1773); (1807, 1807); (1809, 1809); (1840, 1866); (1958, 1968);
    (2027, 2037); (2042, 2042); (2045, 2045); (2070, 2093); (2137, 2139);
    (2184, 2184); (2192, 2193); (2200, 2207); (2249, 2306); (2362, 2362);
    (2364, 2364); (2369, 2376); (2381, 2381); (2385, 2391); (2402, 2403);
    (2417, 2417); (2433, 2433); (2492, 2492); (2497, 2500); (2509, 2509);
    (2530, 2531); (2558, 2558); (2561, 2562); (2620, 2620); (2625, 2626);
    (2631, 2632); (2635, 2637); (2641, 2641); (2672, 2673); (2677, 2677);
    (2689, 2690); (2748, 2748); (2753, 2757); (2759, 2760); (2765, 2765);
    (2786, 2787); (2810, 2815); (2817, 2817); (2876, 2876); (2879, 2879);
    (2881, 2884); (2893, 2893); (2901, 2902); (2914, 2915); (2946, 2946);
    (3008, 3008); (3021, 3021); (3072, 3072); (3076, 3076); (3132, 3132);
    (3134, 3136); (3142, 3144); (3146, 3149); (3157, 3158); (3170, 3171);
    (3201, 3201); (3260, 3260); (3263, 3263); (3270, 3270); (3276, 3277);
    (3298, 3299); (3328, 3329); (3387, 3388); (3393, 3396); (3405, 3405);
    (3426, 3427); (3457, 3457); (3530, 3530); (3538, 3540); (3542, 3542);
    (3633, 3633); (3636, 3642); (3654, 3662); (3761, 3761); (3764, 3772);
    (3782, 3782); (3784, 3789); (3864, 3865); (3893, 3893); (3895, 3895);
    (3897, 3897); (3953, 3966); (3968, 3972); (3974, 3975); (3981, 3991);
    (3993, 4028); (4038, 4038); (4141, 4144); (4146, 4151); (4153, 4154);
    (4157, 4158); (4184, 4185); (4190, 4192); (4209, 4212); (4226, 4226);
    (4229, 4230); (4237, 4237); (4253, 4253); (4348, 4348); (4957, 4959);
    (5906, 5908); (5938, 5939); (5970, 5971); (6002, 6003); (6068, 6069);
    (6071, 6077); (6086, 6086); (6089, 6099); (6103, 6103); (6109, 6109);
    (6155, 6159); (6211, 6211); (6277, 6278); (6313, 6313); (6432, 6434);
    (6439, 6440); (6450, 6450); (6457, 6459); (6679, 6680); (6683, 6683);
    (6742, 6742); (6744, 6750); (6752, 6752); (6754, 6754); (6757, 6764);
    (6771, 6780); (6783, 6783); (6823, 6823); (6832, 6862); (6912, 6915);
    (6964, 6964); (6966, 6970); (6972, 6972); (6978, 6978); (7019, 7027);
    (7040, 7041); (7074, 7077); (7080, 7081); (7083, 7085); (7142, 7142);
    (7144, 7145); (7149, 7149); (7151, 7153); (7212, 7219); (7222, 7223);
    (7288, 7293); (7376, 7378); (7380, 7392); (7394, 7400); (7405, 7405);
    (7412, 7412); (7416, 7417); (7468, 7530); (7544, 7544); (7579, 7679);
    (8125, 8125); (8127, 8129); (8141, 8143); (8157, 8159); (8173, 8175);
    (8189, 8190); (8203, 8207); (8216, 8217); (8228, 8228); (8231, 8231);
    (8234, 8238); (8288, 8292); (8294, 8303); (8305, 8305); (8319, 8319);
    (8336, 8348); (8400, 8432); (11388, 11389); (11503, 11505);
    (11631, 11631); (11647, 11647); (11744, 11775); (11823, 11823);
    (12293, 12293); (12330, 12333); (12337, 12341); (12347, 12347);
    (12441, 12446); (12540, 12542); (40981, 40981); (42232, 42237);
    (42508, 42508); (42607, 42610); (42612, 42621); (42623, 42623);
    (42652, 42655); (42736, 42737); (42752, 42785); (42864, 42864);
    (42888, 42890); (42994, 42996); (43000, 43001); (43010, 43010);
    (43014, 43014); (43019, 43019); (43045, 43046); (43052, 43052);
    (43204, 43205); (43232, 43249); (43263, 43263); (43302, 43309);
    (43335, 43345); (43392, 43394); (43443, 43443); (43446, 43449);
    (43452, 43453); (43471, 43471); (43493, 43494); (43561, 43566);
    (43569, 43570); (43573, 43574); (43587, 43587); (43596, 43596);
    (43632, 43632); (43644, 43644); (43696, 43696); (43698, 43700);
    (43703, 43704); (43710, 43711); (43713, 43713); (43741, 43741);
    (43756, 43757); (43763, 43764); (43766, 43766); (43867, 43871);
    (43881, 43883); (44005, 44005); (44008, 44008); (44013, 44013);
    (64286, 64286); (64434, 64450); (65024, 65039); (65043, 65043);
    (65056, 65071); (65106, 65106); (65109, 65109); (65279, 65279);
    (65287, 65287); (65294, 65294); (65306, 65306); (65342, 65342);
    (65344, 65344); (65392, 65392); (65438, 65439); (65507, 65507);
    (65529, 65531); (66045, 66045); (66272, 66272); (66422, 66426);
    (67456, 67461); (67463, 67504); (67506, 67514); (68097, 68099);
    (68101, 68102); (68108, 68111); (68152, 68154); (68159, 68159);
    (68325, 68326); (68900, 68903); (69291, 69292); (69446, 69456);
    (69506, 69509); (69633, 69633); (69688, 69702); (69744, 69744);
    (69747, 69748); (69759, 69761); (69811, 69814); (69817, 69818);
    (69821, 69821); (69826, 69826); (69837, 69837); (69888, 69890);
    (69927, 69931); (69933, 69940); (70003, 70003); (70016, 70017);
    (70070, 70078); (70089, 70092); (70095, 70095); (70191, 70193);
    (70196, 70196); (70198, 70199); (70206, 70206); (70367, 70367);
    (70371, 70378); (70400, 70401); (70459, 70460); (70464, 70464);
    (70502, 70508); (70512, 70516); (70712, 70719); (70722, 70724);
    (70726, 70726); (70750, 70750); (70835, 70840); (70842, 70842);
    (70847, 70848); (70850, 70851); (71090, 71093); (71100, 71101);
    (71103, 71104); (71132, 71133); (71219, 71226); (71229, 71229);
    (71231, 71232); (71339, 71339); (71341, 71341); (71344, 71349);
    (71351, 71351); (71453, 71455); (71458, 71461); (71463, 71467);
    (71727, 71735); (71737, 71738); (71995, 71996); (71998, 71998);
    (72003, 72003); (72148, 72151); (72154, 72155); (72160, 72160);
    (72193, 72202); (72243, 72248); (72251, 72254); (72263, 72263);
    (72273, 72278); (72281, 72283); (72330, 72342); (72344, 72345);
    (72752, 72758); (72760, 72765); (72767, 72767); (72850, 72871);
    (72874, 72880); (72882, 72883); (72885, 72886); (73009, 73014);
    (73018, 73018); (73020, 73021); (73023, 73029); (73031, 73031);
    (73104, 73105); (73109, 73109); (73111, 73111); (73459, 73460);
    (78896, 78904); (92912, 92916); (92976, 92982); (92992, 92995);
    (94031, 94031); (94095, 94111); (94176, 94177); (94179, 94180);
    (110576, 110579); (110581, 110587); (110589, 110590); (113821, 113822);
    (113824, 113827); (118528, 118573); (118576, 118598); (119143, 119145);
    (119155, 119170); (119173, 119179); (119210, 119213); (119362, 119364);
    (121344, 121398); (121403, 121452); (121461, 121461); (121476, 121476);
    (121499, 121503); (121505, 121519); (122880, 122886); (122888, 122904);
    (122907, 122913); (122915, 122916); (122918, 122922); (123184, 123197);
    (123566, 123566); (123628, 123631); (125136, 125142); (125252, 125259);
    (127995, 127999); (917505, 917505); (917536, 917631); (917760, 917999) ]%N.

Definition in_ranges (c : N) (ranges : list (N * N)) : bool :=
  existsb (fun r => (fst r <=? c)%N && (c <=? snd r)%N) ranges.

(** [_PyUnicode_IsCased] and [_PyUnicode_IsCaseIgnorable] *)
Definition IsCased (c : N) : bool := in_ranges c CASED.
Definition IsCaseIgnorable (c : N) : bool := in_ranges c CASE_IGNORABLE.

Definition in_run (c : N) (run : N * N * N * N) : bool :=
  let '(first, last, step, _) := run in
  (first <=? c)%N && (c <=? last)%N && ((c - first) mod step =? 0)%N.

(** [_PyUnicode_ToLowerFull]: the capital I with a dot above is the one
    code point whose lower case is two code points. *)
Definition ToLowerFull (c : N) : text :=
  if (c =? 304)%N then [105; 775]%N
  else
    match find (in_run c) LOWER_RUNS with
    | Some (first, _, _, target) => [target + (c - first)]%N
    | None => [c]
    end.

Fixpoint skip_case_ignorable (s : text) : text :=
  match s with
  | c :: r => if IsCaseIgnorable c then skip_case_ignorable r else s
  | [] => []
  end.

(** [handle_capital_sigma]: a capital sigma becomes the final sigma when a
    cased letter comes before it and none comes after it, case-ignorable
    characters skipped on both sides.  [before] is the text before the
    sigma, nearest character first. *)
Definition handle_capital_sigma (before after : text) : N :=
  match skip_case_ignorable before with
  | c :: _ =>
      if IsCased c then
        match skip_case_ignorable after with
        | c' :: _ => if IsCased c' then 963%N else 962%N
        | [] => 962%N
        end
      else 963%N
  | [] => 963%N
  end.

(** [lower_ucs4] *)
Definition lower_ucs4 (before : text) (c : N) (after : text) : text :=
  if (c =? 931)%N then [handle_capital_sigma before after] else ToLowerFull c.

(** [do_lower]: the characters from left to right, each in its context. *)
Fixpoint do_lower (before s : text) : text :=
  match s with
  | [] => []
  | c :: r => lower_ucs4 before c r ++ do_lower (c :: before) r
  end.

(** [s.lower()] *)
Definition lower (s : text) : text := do_lower [] s.

(** [any(word in s for word in words)] *)
Definition any_in (words : list text) (s : text) : bool :=
  existsb (fun word => contains word s) words.

Fixpoint digits (d : Decimal.uint) : text :=
  match d with
  | Decimal.Nil => []
  | Decimal.D0 d => 48%N :: digits d
  | Decimal.D1 d => 49%N :: digits d
  | Decimal.D2 d => 50%N :: digits d
  | Decimal.D3 d => 51%N :: digits d
  | Decimal.D4 d => 52%N :: digits d
  | Decimal.D5 d => 53%N :: digits d
  | Decimal.D6 d => 54%N :: digits d
  | Decimal.D7 d => 55%N :: digits d
  | Decimal.D8 d => 56%N :: digits d
  | Decimal.D9 d => 57%N :: digits d
  end.

(** [str(n)] for a non-negative integer, as an f-string prints it. *)
Definition str_of_nat (n : nat) : text := digits (Nat.to_uint n).

(** Python truthiness of a [str]. *)
Definition truthy (s : text) : bool :=
  match s with [] => false | _ => true end.

End Text.
Export Text.

(* ===================================================================== *)
(** * Python dictionaries (insertion ordered) *)
(* ===================================================================== *)

Module Dict.
Section Dict.
Variable V : Type.

Definition dict := list (text * V).

(** [d.get(k)] *)
Fixpoint dict_get (k : text) (d : dict) : option V :=
  match d with
  | [] => None
  | (k', v) :: d' => if text_eqb k' k then Some v else dict_get k d'
  end.

(** [d[k] = v]: an existing key keeps its position, a new one goes last. *)
Fixpoint dict_set (k : text) (v : V) (d : dict) : dict :=
  match d with
  | [] => [(k, v)]
  | (k', v') :: d' =>
      if text_eqb k' k then (k', v) :: d'
      else (k', v') :: dict_set k v d'
  end.

(** [d.update(other)] *)
Definition dict_update (d other : dict) : dict :=
  fold_left (fun acc kv => dict_set (fst kv) (snd kv) acc) other d.

(** [dict(pairs)] *)
Definition dict_of_pairs (pairs : list (text * V)) : dict :=
  dict_update [] pairs.

Definition dict_keys (d : dict) : list text := map fst d.
Definition dict_values (d : dict) : list V := map snd d.

(** The representation invariant: keys are pairwise distinct. *)
Definition is_dict (d : dict) : Prop := NoDup (dict_keys d).
End Dict.
End Dict.
Export Dict.

Arguments dict_get {V} k d.
Arguments dict_set {V} k v d.
Arguments dict_update {V} d other.
Arguments dict_of_pairs {V} pairs.
Arguments dict_keys {V} d.
Arguments dict_values {V} d.
Arguments is_dict {V} d.

(* ===================================================================== *)
(** * The [json] codec of the backing file *)
(* ===================================================================== *)

Module Json.

(** Values produced by [json.load].  A number is kept as its lexeme. *)
#[local] Unset Elimination Schemes.
Inductive json :=
| JNull
| JBool (b : bool)
| JNumber (lexeme : text)
| JString (s : text)
| JArray (items : list json)
| JObject (members : dict json).
#[local] Set Elimination Schemes.

Definition QUOTE : N := 34.
Definition BACKSLASH : N := 92.
Definition SLASH : N := 47.
Definition LBRACE : N := 123.
Definition RBRACE : N := 125.
Definition LBRACKET : N := 91.
Definition RBRACKET : N := 93.
Definition COLON : N := 58.
Definition COMMA : N := 44.
Definition NEWLINE : N := 10.
Definition SPACE : N := 32.

(** ** Encoding: [json.dump(obj, f, indent=2)], [ensure_ascii] left on *)

Definition hex_digit (d : N) : N :=
  if (d <? 10)%N then (48 + d)%N else (87 + d)%N.

(** ['{0:04x}'.format(n)] for [n < 0x10000] *)
Definition hex4 (n : N) : text :=
  [ hex_digit ((n / 4096) mod 16); hex_digit ((n / 256) mod 16);
    hex_digit ((n / 16) mod 16); hex_digit (n mod 16) ]%N.

Definition u_escape (n : N) : text := BACKSLASH :: 117%N :: hex4 n.

(** The surrogate pair written for a code point above the basic plane:
    with [n = c - 0x10000], [0xd800 | ((n >> 10) & 0x3ff)] and
    [0xdc00 | (n & 0x3ff)]. *)
Definition high_half (c : N) : N :=
  N.lor 55296 (N.land (N.shiftr (c - 65536) 10) 1023).
Definition low_half (c : N) : N :=
  N.lor 56320 (N.land (c - 65536) 1023).

(** The replacement of one character by [ESCAPE_ASCII.sub]: the regular
    expression matches the quote, the backslash and everything outside
    [' '..'~']. *)
Definition escape_cp (c : N) : text :=
  if (c =? QUOTE)%N then [BACKSLASH; QUOTE]
  else if (c =? BACKSLASH)%N then [BACKSLASH; BACKSLASH]
  else if (32 <=? c)%N && (c <=? 126)%N then [c]
  else if (c =? 8)%N then [BACKSLASH; 98%N]
  else if (c =? 12)%N then [BACKSLASH; 102%N]
  else if (c =? 10)%N then [BACKSLASH; 110%N]
  else if (c =? 13)%N then [BACKSLASH; 114%N]
  else if (c =? 9)%N then [BACKSLASH; 116%N]
  else if (c <? 65536)%N then u_escape c
  else u_escape (high_half c) ++ u_escape (low_half c).

Definition encode_basestring_ascii (s : text) : text :=
  QUOTE :: flat_map escape_cp s ++ [QUOTE].

Definition dump_item (kv : text * text) : text :=
  encode_basestring_ascii (fst kv) ++ [COLON; SPACE] ++
  encode_basestring_ascii (snd kv).

Definition newline_indent : text := [NEWLINE; SPACE; SPACE].

(** The text written for a [Dict[str, str]]. *)
Definition json_dumps (d : dict text) : text :=
  match d with
  | [] => [LBRACE; RBRACE]
  | kv :: rest =>
      LBRACE :: newline_indent ++ dump_item kv ++
      flat_map (fun kv' => COMMA :: newline_indent ++ dump_item kv') rest ++
      [NEWLINE; RBRACE]
  end.

(** ** Decoding: [json.load] *)

Definition is_ws (c : N) : bool :=
  (c =? 32)%N || (c =? 9)%N || (c =? 10)%N || (c =? 13)%N.

Fixpoint skip_ws (s : text) : text :=
  match s with
  | c :: r => if is_ws c then skip_ws r else s
  | [] => []
  end.

Definition hex_value (c : N) : option N :=
  if (48 <=? c)%N && (c <=? 57)%N then Some (c - 48)%N
  else if (97 <=? c)%N && (c <=? 102)%N then Some (c - 87)%N
  else if (65 <=? c)%N && (c <=? 70)%N then Some (c - 55)%N
  else None.

(** [_decode_uXXXX]: four hexadecimal digits, else the escape is invalid. *)
Definition decode_hex4 (a b c d : N) : option N :=
  match hex_value a, hex_value b, hex_value c, hex_value d with
  | Some x, Some y, Some z, Some w =>
      Some (x * 4096 + y * 256 + z * 16 + w)%N
  | _, _, _, _ => None
  end.

Definition is_high_surrogate (u : N) : bool :=
  (55296 <=? u)%N && (u <=? 56319)%N.
Definition is_low_surrogate (u : N) : bool :=
  (56320 <=? u)%N && (u <=? 57343)%N.

Definition join_surrogates (uni uni2 : N) : N :=
  (65536 + N.lor (N.shiftl (uni - 55296) 10) (uni2 - 56320))%N.

(** The [BACKSLASH] table of the decoder. *)
Definition unescape (e : N) : option N :=
  if (e =? QUOTE)%N then Some QUOTE
  else if (e =? BACKSLASH)%N then Some BACKSLASH
  else if (e =? SLASH)%N then Some SLASH
  else if (e =? 98)%N then Some 8%N
  else if (e =? 102)%N then Some 12%N
  else if (e =? 110)%N then Some 10%N
  else if (e =? 114)%N then Some 13%N
  else if (e =? 116)%N then Some 9%N
  else None.

Definition prepend (c : N) (r : option (text * text)) : option (text * text) :=
  match r with
  | Some (x, rest) => Some (c :: x, rest)
  | None => None
  end.

(** [scanstring(s, end, strict=True)], entered after the opening quote:
    the decoded string and the text after the closing quote; [None] is a
    [JSONDecodeError]. *)
Fixpoint py_scanstring (s : text) : option (text * text) :=
  match s with
  | [] => None
  | c :: r =>
    if (c =? QUOTE)%N then Some ([], r)
    else if (c =? BACKSLASH)%N then
      match r with
      | [] => None
      | e :: r1 =>
        if (e =? 117)%N then
          match r1 with
          | h1 :: h2 :: h3 :: h4 :: r2 =>
            match decode_hex4 h1 h2 h3 h4 with
            | None => None
            | Some uni =>
              if is_high_surrogate uni then
                match r2 with
                | b :: u :: r3 =>
                  if (b =? BACKSLASH)%N && (u =? 117)%N then
                    match r3 with
                    | l1 :: l2 :: l3 :: l4 :: r4 =>
                      match decode_hex4 l1 l2 l3 l4 with
                      | None => None
                      | Some uni2 =>
                        if is_low_surrogate uni2
                        then prepend (join_surrogates uni uni2) (py_scanstring r4)
                        else prepend uni (py_scanstring r2)
                      end
                    | _ => None
                    end
                  else prepend uni (py_scanstring r2)
                | _ => prepend uni (py_scanstring r2)
                end
              else prepend uni (py_scanstring r2)
            end
          | _ => None
          end
        else
          match unescape e with
          | Some ch => prepend ch (py_scanstring r1)
          | None => None
          end
      end
    else if (c <? 32)%N then None
    else prepend c (py_scanstring r)
  end.

Definition is_digit (c : N) : bool := (48 <=? c)%N && (c <=? 57)%N.

Fixpoint span_digits (s : text) : text * text :=
  match s with
  | c :: r =>
      if is_digit c then let (ds, rest) := span_digits r in (c :: ds, rest)
      else ([], s)
  | [] => ([], [])
  end.

(** [NUMBER_RE]: an optional minus sign, then a single zero or a run of
    digits that does not start with zero; then, optionally, a point and
    digits; then, optionally, an exponent mark, a sign and digits. *)
Definition match_int (s : text) : option (text * text) :=
  let '(sign, s1) :=
    match s with
    | c :: r => if (c =? 45)%N then ([c], r) else ([], s)
    | [] => ([], s)
    end in
  match s1 with
  | c :: r =>
      if (c =? 48)%N then Some (sign ++ [c], r)
      else if is_digit c then
        let (ds, rest) := span_digits r in Some (sign ++ c :: ds, rest)
      else None
  | [] => None
  end.

Definition match_frac (s : text) : text * text :=
  match s with
  | c :: r =>
      if (c =? 46)%N then
        match span_digits r with
        | ([], _) => ([], s)
        | (ds, rest) => (c :: ds, rest)
        end
      else ([], s)
  | [] => ([], s)
  end.

Definition match_exp (s : text) : text * text :=
  match s with
  | c :: r =>
      if (c =? 101)%N || (c =? 69)%N then
        let '(sign, r1) :=
          match r with
          | g :: r' => if (g =? 45)%N || (g =? 43)%N then ([g], r') else ([], r)
          | [] => ([], r)
          end in
        match span_digits r1 with
        | ([], _) => ([], s)
        | (ds, rest) => (c :: sign ++ ds, rest)
        end
      else ([], s)
  | [] => ([], s)
  end.

Definition match_number (s : text) : option (text * text) :=
  match match_int s with
  | None => None
  | Some (i, s1) =>
      let (f, s2) := match_frac s1 in
      let (e, s3) := match_exp s2 in
      Some (i ++ f ++ e, s3)
  end.

Definition literal (word : text) (v : json) (s : text) : option (json * text) :=
  if startswith s word then Some (v, skipn (List.length word) s) else None.

Definition first_of {A} (a b : option A) : option A :=
  match a with Some _ => a | None => b end.

(** What [scan_once] does when the text opens neither a string, an object
    nor an array. *)
Definition scan_atom (s : text) : option (json * text) :=
  first_of (literal (T "null") JNull s)
  (first_of (literal (T "true") (JBool true) s)
  (first_of (literal (T "false") (JBool false) s)
  (first_of
     match match_number s with
     | Some (lexeme, rest) => Some (JNumber lexeme, rest)
     | None => None
     end
  (first_of (literal (T "NaN") (JNumber (T "NaN")) s)
  (first_of (literal (T "Infinity") (JNumber (T "Infinity")) s)
            (literal (T "-Infinity") (JNumber (T "-Infinity")) s)))))).

(** [scan_once], [JSONObject] and [JSONArray].  The recursion follows the
    nesting and the member loops, bounded by [fuel]; [json_loads] supplies
    more fuel than the text has characters, which is enough (lemma
    [fuel_of_json_loads_is_enough]).  [None] is a [JSONDecodeError].
    This is the grammar alone: what the text decodes to when no limit of
    the interpreter is met.  The limits are those of [scan_once_unicode]
    below, which is what [json.load] runs. *)
Fixpoint scan_once (fuel : nat) (s : text) : option (json * text) :=
  match fuel with
  | O => None
  | S fuel' =>
    match s with
    | [] => None
    | c :: r =>
      if (c =? QUOTE)%N then
        match py_scanstring r with
        | Some (x, rest) => Some (JString x, rest)
        | None => None
        end
      else if (c =? LBRACE)%N then
        match skip_ws r with
        | c1 :: r1 =>
            if (c1 =? RBRACE)%N then Some (JObject [], r1)
            else if (c1 =? QUOTE)%N then JSONObject_loop fuel' [] r1
            else None
        | [] => None
        end
      else if (c =? LBRACKET)%N then
        match skip_ws r with
        | c1 :: r1 =>
            if (c1 =? RBRACKET)%N then Some (JArray [], r1)
            else JSONArray_loop fuel' [] (c1 :: r1)
        | [] => None
        end
      else scan_atom s
    end
  end

with JSONObject_loop (fuel : nat) (pairs : list (text * json)) (s : text)
  : option (json * text) :=
  match fuel with
  | O => None
  | S fuel' =>
    match py_scanstring s with
    | None => None
    | Some (key, s1) =>
      match skip_ws s1 with
      | c :: s2 =>
        if (c =? COLON)%N then
          match scan_once fuel' (skip_ws s2) with
          | None => None
          | Some (value, s3) =>
            let pairs' := pairs ++ [(key, value)] in
            match skip_ws s3 with
            | c' :: s4 =>
              if (c' =? RBRACE)%N then Some (JObject (dict_of_pairs pairs'), s4)
              else if (c' =? COMMA)%N then
                match skip_ws s4 with
                | q :: s5 =>
                    if (q =? QUOTE)%N then JSONObject_loop fuel' pairs' s5
                    else None
                | [] => None
                end
              else None
            | [] => None
            end
          end
        else None
      | [] => None
      end
    end
  end

with JSONArray_loop (fuel : nat) (values : list json) (s : text)
  : option (json * text) :=
  match fuel with
  | O => None
  | S fuel' =>
    match scan_once fuel' s with
    | None => None
    | Some (value, s1) =>
      let values' := values ++ [value] in
      match skip_ws s1 with
      | c :: s2 =>
        if (c =? RBRACKET)%N then Some (JArray values', s2)
        else if (c =? COMMA)%N then JSONArray_loop fuel' values' (skip_ws s2)
        else None
      | [] => None
      end
    end
  end.

Definition BOM : N := 65279.

(** [json.loads(s)]: no byte-order mark, one value, nothing after it. *)
Definition json_loads (s : text) : option json :=
  match s with
  | c :: _ => if (c =? BOM)%N then None else
      match scan_once (S (List.length s)) (skip_ws s) with
      | Some (v, rest) =>
          match skip_ws rest with
          | [] => Some v
          | _ :: _ => None
          end
      | None => None
      end
  | [] => None
  end.

(** ** Decoding within the limits of the interpreter

    The scanner of CPython 3.11 ([scan_once_unicode],
    [_parse_object_unicode], [_parse_array_unicode] and
    [_match_number_unicode] in [_json.c]) is the grammar above with two
    guards.

    Entering an object or an array takes one level of the interpreter's
    recursion; when none is left the scanner raises [RecursionError] at
    the opening bracket.  Where no value is found the scanner stops, and
    the [JSONDecodeError] is raised once it has unwound; every other error
    of the grammar is raised on the spot by Python code that needs three
    levels itself, so that with fewer left it is a [RecursionError] that
    comes out.

    An integer is converted by [int], which raises [ValueError] when the
    digits are more than [sys.get_int_max_str_digits()] (the limit is off
    at [0] and does not apply up to 640 digits); numbers with a fraction
    or an exponent go through [float], which has no limit.

    Whatever goes wrong first, from left to right, is what is raised. *)

Inductive scan_error :=
| Malformed          (* [JSONDecodeError] *)
| TooDeep            (* [RecursionError] *)
| TooManyDigits.     (* [ValueError] *)

Inductive scanned (A : Type) :=
| Scanned (a : A)
| Failed (e : scan_error).
Arguments Scanned {A} a.
Arguments Failed {A} e.

(** [raise_errmsg] with [room] levels left. *)
Definition raise_errmsg {A} (room : nat) : scanned A :=
  if (room <? 3)%nat then Failed TooDeep else Failed Malformed.

(** [raise_stop_iteration]: no value here. *)
Definition raise_stop_iteration {A} : scanned A := Failed Malformed.

(** The number of digits of a lexeme that is an integer. *)
Definition integer_digits (lexeme : text) : option nat :=
  let body :=
    match lexeme with
    | c :: r => if (c =? 45)%N then r else lexeme
    | [] => []
    end in
  match body with
  | [] => None
  | _ :: _ => if forallb is_digit body then Some (List.length body) else None
  end.

Definition exceeds_max_str_digits (max_str_digits digits : nat) : bool :=
  (640 <? digits)%nat && (0 <? max_str_digits)%nat && (max_str_digits <? digits)%nat.

(** What [scan_once_unicode] does when the text opens neither a string,
    an object nor an array. *)
Definition scan_atom_unicode (max_str_digits : nat) (s : text)
  : scanned (json * text) :=
  match scan_atom s with
  | None => raise_stop_iteration
  | Some (JNumber lexeme, rest) =>
      match integer_digits lexeme with
      | Some digits =>
          if exceeds_max_str_digits max_str_digits digits
          then Failed TooManyDigits
          else Scanned (JNumber lexeme, rest)
      | None => Scanned (JNumber lexeme, rest)
      end
  | Some (v, rest) => Scanned (v, rest)
  end.

(** [room] is the number of levels left where the function runs. *)
Fixpoint scan_once_unicode (fuel room max_str_digits : nat) (s : text)
  : scanned (json * text) :=
  match fuel with
  | O => Failed Malformed
  | S fuel' =>
    match s with
    | [] => raise_stop_iteration
    | c :: r =>
      if (c =? QUOTE)%N then
        match py_scanstring r with
        | Some (x, rest) => Scanned (JString x, rest)
        | None => raise_errmsg room
        end
      else if (c =? LBRACE)%N then
        match room with
        | O => Failed TooDeep
        | S room' =>
          match skip_ws r with
          | c1 :: r1 =>
              if (c1 =? RBRACE)%N then Scanned (JObject [], r1)
              else if (c1 =? QUOTE)%N
              then _parse_object_unicode fuel' room' max_str_digits [] r1
              else raise_errmsg room'
          | [] => raise_errmsg room'
          end
        end
      else if (c =? LBRACKET)%N then
        match room with
        | O => Failed TooDeep
        | S room' =>
          match skip_ws r with
          | c1 :: r1 =>
              if (c1 =? RBRACKET)%N then Scanned (JArray [], r1)
              else _parse_array_unicode fuel' room' max_str_digits [] (c1 :: r1)
          | [] => raise_stop_iteration
          end
        end
      else scan_atom_unicode max_str_digits s
    end
  end

with _parse_object_unicode (fuel room max_str_digits : nat)
       (pairs : list (text * json)) (s : text) : scanned (json * text) :=
  match fuel with
  | O => Failed Malformed
  | S fuel' =>
    match py_scanstring s with
    | None => raise_errmsg room
    | Some (key, s1) =>
      match skip_ws s1 with
      | c :: s2 =>
        if (c =? COLON)%N then
          match scan_once_unicode fuel' room max_str_digits (skip_ws s2) with
          | Failed e => Failed e
          | Scanned (value, s3) =>
            let pairs' := pairs ++ [(key, value)] in
            match skip_ws s3 with
            | c' :: s4 =>
              if (c' =? RBRACE)%N then Scanned (JObject (dict_of_pairs pairs'), s4)
              else if (c' =? COMMA)%N then
                match skip_ws s4 with
                | q :: s5 =>
                    if (q =? QUOTE)%N
                    then _parse_object_unicode fuel' room max_str_digits pairs' s5
                    else raise_errmsg room
                | [] => raise_errmsg room
                end
              else raise_errmsg room
            | [] => raise_errmsg room
            end
          end
        else raise_errmsg room
      | [] => raise_errmsg room
      end
    end
  end

with _parse_array_unicode (fuel room max_str_digits : nat)
       (values : list json) (s : text) : scanned (json * text) :=
  match fuel with
  | O => Failed Malformed
  | S fuel' =>
    match scan_once_unicode fuel' room max_str_digits s with
    | Failed e => Failed e
    | Scanned (value, s1) =>
      let values' := values ++ [value] in
      match skip_ws s1 with
      | c :: s2 =>
        if (c =? RBRACKET)%N then Scanned (JArray values', s2)
        else if (c =? COMMA)%N
        then _parse_array_unicode fuel' room max_str_digits values' (skip_ws s2)
        else raise_errmsg room
      | [] => raise_errmsg room
      end
    end
  end.

(** [json.loads(s)] in an interpreter in which [3 + nesting_room] levels
    are left where the scanner starts.  A byte-order mark and text after
    the value are errors raised outside the scanner.  The fuel is enough
    for every text (lemma [fuel_of_json_decode_is_enough]). *)
Definition json_decode (nesting_room max_str_digits : nat) (s : text)
  : scanned json :=
  match s with
  | c :: _ => if (c =? BOM)%N then Failed Malformed else
      match scan_once_unicode (2 * List.length s + 2) (3 + nesting_room)
                              max_str_digits (skip_ws s) with
      | Scanned (v, rest) =>
          match skip_ws rest with
          | [] => Scanned v
          | _ :: _ => Failed Malformed
          end
      | Failed e => Failed e
      end
  | [] => Failed Malformed
  end.

(** A [Dict[str, str]] as the JSON value that [json.load] returns for it. *)
Definition json_of_prefs (d : dict text) : json :=
  JObject (map (fun kv => (fst kv, JString (snd kv))) d).

End Json.
Export Json.

(* ===================================================================== *)
(** * Exceptions and the monad of effects *)
(* ===================================================================== *)

Module Effects.

(** The exception classes that matter to the [except] clauses of the
    source.  [IOError] is [OSError]; [JSONDecodeError] and
    [UnicodeDecodeError] are two unrelated subclasses of [ValueError], and
    [ValueError] here is an instance of the class itself, which an
    [except] clause for either subclass does not catch; [RecursionError]
    is a subclass of [RuntimeError]; [ServiceError] stands for whatever
    else the remote SDK raises.  All of them are subclasses of
    [Exception]. *)
Inductive exn :=
| OSError
| JSONDecodeError
| UnicodeDecodeError
| ValueError
| RecursionError
| RuntimeError
| AttributeError
| TypeError
| ServiceError.

Inductive outcome (A : Type) :=
| Returns (a : A)
| Raises (e : exn).
Arguments Returns {A} a.
Arguments Raises {A} e.

Definition ST (S A : Type) : Type := S -> outcome A * S.

Section Monad.
Variable S : Type.

Definition ret {A} (a : A) : ST S A := fun s => (Returns a, s).
Definition raise {A} (e : exn) : ST S A := fun s => (Raises e, s).
Definition bind {A B} (c : ST S A) (k : A -> ST S B) : ST S B :=
  fun s =>
    match c s with
    | (Returns a, s') => k a s'
    | (Raises e, s') => (Raises e, s')
    end.

(** [try: c except <classes>: handler] *)
Definition try_except {A} (c : ST S A) (classes : exn -> bool)
           (handler : exn -> ST S A) : ST S A :=
  fun s =>
    match c s with
    | (Returns a, s') => (Returns a, s')
    | (Raises e, s') => if classes e then handler e s' else (Raises e, s')
    end.

Definition lift {A} (o : outcome A) : ST S A := fun s => (o, s).
End Monad.

Arguments ret {S A} a.
Arguments raise {S A} e.
Arguments bind {S A B} c k.
Arguments try_except {S A} c classes handler.
Arguments lift {S A} o.

Definition except_Exception (e : exn) : bool := true.
Definition except_IOError (e : exn) : bool :=
  match e with OSError => true | _ => false end.
Definition except_JSONDecodeError_IOError (e : exn) : bool :=
  match e with JSONDecodeError | OSError => true | _ => false end.
Definition except_AttributeError_TypeError (e : exn) : bool :=
  match e with AttributeError | TypeError => true | _ => false end.

End Effects.
Export Effects.

Declare Scope py_scope.
Delimit Scope py_scope with py.
Notation "x <- c ;; k" := (bind c (fun x => k))
  (at level 61, c at next level, right associativity) : py_scope.
Notation "c ;;; k" := (bind c (fun _ => k))
  (at level 61, right associativity) : py_scope.
Open Scope py_scope.

(* ===================================================================== *)
(** * The world outside the program *)
(* ===================================================================== *)

Module World.

(** The file at [storage_path]. *)
Inductive file :=
| Missing                    (* [storage_path.exists()] is false *)
| Locked                     (* it exists, [open(.., 'r')] raises [OSError] *)
| Garbled                    (* its bytes do not decode: reading raises
                                [UnicodeDecodeError] *)
| Holding (content : text).  (* it decodes to [content] *)

(** One element of the iterable returned by [memories.retrieve]. *)
Inductive search_result :=
| Memory (fact : option text)   (* [result.memory.fact], possibly [None] *)
| Unreadable (e : exn).         (* reading [.memory] or [.fact] raises [e] *)

(** The call raises, or it returns an iterable that yields some results
    and then ends, normally or by raising. *)
Inductive retrieval :=
| RetrieveRaises (e : exn)
| Results (yielded : list search_result) (ending : option exn).

(** A call received by the remote collaborator. *)
Inductive remote_call :=
| Generate (name user_message assistant_message scope_user_id : text)
| Retrieve (name scope_user_id search_query : text).

(** The event loop that [asyncio.get_event_loop()] finds in the calling
    thread.  A running loop holds the coroutines it was given by
    [asyncio.create_task] and has not run yet, as the key and the value
    that [_save_to_memory_bank] was called with, oldest first; it runs
    them when the code that is running gives control back.  A loop that
    is not running is taken to have run what it was given. *)
Inductive loop_state :=
| NoCurrentLoop        (* [get_event_loop()] raises [RuntimeError] *)
| LoopClosed           (* the loop it returns has been closed *)
| LoopRunning (pending : list (text * text))
                       (* the call is made from inside the running loop *)
| LoopIdle.            (* the loop it returns is not running *)

Record world := {
  backing_file : file;
  writable : bool;               (* does [open(.., 'w')] succeed *)
  nesting_room : nat;            (* [json] can enter [3 + nesting_room]
                                    nested objects and arrays before
                                    the interpreter's recursion limit *)
  int_max_str_digits : nat;      (* [sys.get_int_max_str_digits()];
                                    [0] is no limit *)
  client_raises : option exn;    (* does [vertexai.Client(..)] raise *)
  retrieve_reply : retrieval;    (* the answer of [memories.retrieve] *)
  generate_raises : option exn;  (* does [memories.generate] raise *)
  remote_log : list remote_call; (* calls made so far, oldest first *)
  event_loop : loop_state
}.

Definition M : Type -> Type := ST world.

Definition with_backing_file (f : file) (w : world) : world :=
  {| backing_file := f;
     writable := writable w;
     nesting_room := nesting_room w;
     int_max_str_digits := int_max_str_digits w;
     client_raises := client_raises w;
     retrieve_reply := retrieve_reply w;
     generate_raises := generate_raises w;
     remote_log := remote_log w;
     event_loop := event_loop w |}.

Definition with_remote_log (l : list remote_call) (w : world) : world :=
  {| backing_file := backing_file w;
     writable := writable w;
     nesting_room := nesting_room w;
     int_max_str_digits := int_max_str_digits w;
     client_raises := client_raises w;
     retrieve_reply := retrieve_reply w;
     generate_raises := generate_raises w;
     remote_log := l;
     event_loop := event_loop w |}.

Definition with_event_loop (l : loop_state) (w : world) : world :=
  {| backing_file := backing_file w;
     writable := writable w;
     nesting_room := nesting_room w;
     int_max_str_digits := int_max_str_digits w;
     client_raises := client_raises w;
     retrieve_reply := retrieve_reply w;
     generate_raises := generate_raises w;
     remote_log := remote_log w;
     event_loop := l |}.

End World.
Export World.

(* ===================================================================== *)
(** * The backing file *)
(* ===================================================================== *)

Module LocalStore.

(** [self.storage_path.exists()] *)
Definition path_exists : M bool :=
  fun w => (Returns match backing_file w with Missing => false | _ => true end, w).

(** [open(self.storage_path, 'r')], returning what the handle will read. *)
Definition open_r : M file :=
  fun w =>
    match backing_file w with
    | Missing | Locked => (Raises OSError, w)
    | f => (Returns f, w)
    end.

(** What [json.loads] makes of [content] in the interpreter of [w]. *)
Definition decoding (w : world) (content : text) : scanned json :=
  json_decode (nesting_room w) (int_max_str_digits w) content.

(** [json.load(f)]: read and decode the bytes, then parse. *)
Definition json_load (f : file) : M json :=
  match f with
  | Holding content =>
      fun w =>
        match decoding w content with
        | Scanned v => (Returns v, w)
        | Failed Malformed => (Raises JSONDecodeError, w)
        | Failed TooDeep => (Raises RecursionError, w)
        | Failed TooManyDigits => (Raises ValueError, w)
        end
  | Garbled => raise UnicodeDecodeError
  | Missing | Locked => raise OSError
  end.

(** [with open(self.storage_path, 'w') as f: json.dump(d, f, indent=2)] *)
Definition open_w_dump (d : dict text) : M unit :=
  fun w =>
    if writable w
    then (Returns tt, with_backing_file (Holding (json_dumps d)) w)
    else (Raises OSError, w).

(** [PreferenceManager._load_preferences_from_file] *)
Definition _load_preferences_from_file : M json :=
  present <- path_exists ;;
  if present then
    try_except
      (f <- open_r ;; json_load f)
      except_JSONDecodeError_IOError
      (fun _ => ret (JObject []))
  else ret (JObject []).

End LocalStore.
Export LocalStore.

(* ===================================================================== *)
(** * The remote collaborator *)
(* ===================================================================== *)

Module RemoteMemory.

Definition log_call (c : remote_call) : M unit :=
  fun w => (Returns tt, with_remote_log (remote_log w ++ [c]) w).

(** [vertexai.Client(project=.., location=..)] *)
Definition Client : M unit :=
  fun w =>
    match client_raises w with
    | Some e => (Raises e, w)
    | None => (Returns tt, w)
    end.

(** [client.agent_engines.memories.generate(..)] *)
Definition memories_generate (name user_message assistant_message user_id : text)
  : M unit :=
  log_call (Generate name user_message assistant_message user_id) ;;;
  fun w =>
    match generate_raises w with
    | Some e => (Raises e, w)
    | None => (Returns tt, w)
    end.

(** [client.agent_engines.memories.retrieve(..)] *)
Definition memories_retrieve (name user_id search_query : text)
  : M (list search_result * option exn) :=
  log_call (Retrieve name user_id search_query) ;;;
  fun w =>
    match retrieve_reply w with
    | RetrieveRaises e => (Raises e, w)
    | Results yielded ending => (Returns (yielded, ending), w)
    end.

End RemoteMemory.
Export RemoteMemory.

(* ===================================================================== *)
(** * [asyncio], as far as [add_preference] uses it *)
(* ===================================================================== *)

Module Asyncio.

(** [asyncio.get_event_loop()] *)
Definition get_event_loop : M loop_state :=
  fun w =>
    match event_loop w with
    | NoCurrentLoop => (Raises RuntimeError, w)
    | loop => (Returns loop, w)
    end.

(** [loop.is_running()] *)
Definition is_running (loop : loop_state) : bool :=
  match loop with LoopRunning _ => true | _ => false end.

(** [asyncio.create_task(coroutine)]: the running loop takes the
    coroutine and runs it later; without a running loop the call raises. *)
Definition create_task (coroutine : text * text) : M unit :=
  fun w =>
    match event_loop w with
    | LoopRunning pending =>
        (Returns tt, with_event_loop (LoopRunning (pending ++ [coroutine])) w)
    | _ => (Raises RuntimeError, w)
    end.

End Asyncio.
Export Asyncio.

(* ===================================================================== *)
(** * [class PreferenceManager] *)
(* ===================================================================== *)

Module Manager.

Record VertexAiMemoryBankService := {
  _project : text;
  _location : text;
  _agent_engine_id : text
}.

Record PreferenceManager := {
  user_id : text;
  preferences : dict text;
  use_vertex_ai : bool;
  memory_service : option VertexAiMemoryBankService;
  preferences_loaded_from : text
}.

Definition set_preferences (d : dict text) (self : PreferenceManager) :=
  {| user_id := user_id self;
     preferences := d;
     use_vertex_ai := use_vertex_ai self;
     memory_service := memory_service self;
     preferences_loaded_from := preferences_loaded_from self |}.

Definition set_preferences_loaded_from (s : text) (self : PreferenceManager) :=
  {| user_id := user_id self;
     preferences := preferences self;
     use_vertex_ai := use_vertex_ai self;
     memory_service := memory_service self;
     preferences_loaded_from := s |}.

(** A method runs on [self] and the world. *)
Definition Method : Type -> Type := ST (PreferenceManager * world).

Definition get_self : Method PreferenceManager :=
  fun st => (Returns (fst st), st).
Definition modify_self (f : PreferenceManager -> PreferenceManager) : Method unit :=
  fun st => (Returns tt, (f (fst st), snd st)).
Definition in_world {A} (c : M A) : Method A :=
  fun st => let (o, w') := c (snd st) in (o, (fst st, w')).

(** A block that works on a local variable of type [L]. *)
Definition with_local {S L A} (init : L) (c : ST L A) : ST S L :=
  fun s =>
    match c init with
    | (Returns _, l) => (Returns l, s)
    | (Raises e, _) => (Raises e, s)
    end.

Definition nonempty {A} (l : list A) : bool :=
  match l with [] => false | _ => true end.

Definition GENERIC_PHRASE : text := T "remember my clothing preferences".

(** The f-string of the engine's resource name. *)
Definition agent_engine_name (svc : VertexAiMemoryBankService) : text :=
  T "projects/" ++ _project svc ++ T "/locations/" ++ _location svc ++
  T "/reasoningEngines/" ++ _agent_engine_id svc.

Definition user_message (preference_value : text) : text :=
  T "Please remember this about my clothing preferences: " ++ preference_value.

Definition assistant_message (preference_value : text) : text :=
  T "Got it! I'll remember that you " ++ preference_value ++
  T ". I'll use this when making outfit recommendations.".

(** [f"pref_{n}"] *)
Definition pref_key (n : nat) : text := T "pref_" ++ str_of_nat n.

(** [_save_preferences_to_file] *)
Definition _save_preferences_to_file : Method unit :=
  self <- get_self ;;
  try_except
    (in_world (open_w_dump (preferences self)))
    except_IOError
    (fun _ => ret tt).

(** [_save_to_memory_bank] *)
Definition _save_to_memory_bank (preference_key preference_value : text)
  : Method unit :=
  self <- get_self ;;
  match use_vertex_ai self, memory_service self with
  | true, Some svc =>
      if contains GENERIC_PHRASE (lower preference_value) then ret tt
      else
        try_except
          (in_world Client ;;;
           in_world (memories_generate (agent_engine_name svc)
                       (user_message preference_value)
                       (assistant_message preference_value)
                       (user_id self)))
          except_Exception
          (fun _ => ret tt)
  | _, _ => ret tt
  end.

(** The key under which [add_preference] stores. *)
Definition pref_id_for (key : text) (self : PreferenceManager) : text :=
  if startswith key (T "pref_")
  then pref_key (List.length (preferences self) + 1)
  else key.

(** [loop.run_until_complete(coroutine)]: a loop that is not running runs
    the coroutine to its end and hands on what it returns or raises; a
    closed loop and a running one raise. *)
Definition run_until_complete {A} (loop : loop_state) (coroutine : Method A)
  : Method A :=
  match loop with
  | LoopIdle => coroutine
  | _ => raise RuntimeError
  end.

(** [add_preference].  The remote save is a coroutine.  Inside a running
    loop it is handed to the loop, which runs it later ([loop_runs_pending]
    below); on a loop that is not running it is run at once; and when
    there is no loop to use, the [RuntimeError] is caught and nothing is
    sent. *)
Definition add_preference (key value : text) : Method unit :=
  self <- get_self ;;
  let pref_id := pref_id_for key self in
  modify_self (set_preferences (dict_set pref_id value (preferences self))) ;;;
  _save_preferences_to_file ;;;
  if use_vertex_ai self then
    try_except
      (loop <- in_world get_event_loop ;;
       if is_running loop
       then in_world (create_task (pref_id, value))
       else run_until_complete loop (_save_to_memory_bank pref_id value))
      except_Exception (fun _ => ret tt)
  else ret tt.

(** What the running loop does with the coroutines it was given, when the
    code that is running gives control back: it runs them in order, each
    to its end; an exception stays in its task. *)
Fixpoint run_each (coroutines : list (text * text)) : Method unit :=
  match coroutines with
  | [] => ret tt
  | (pref_id, value) :: rest =>
      try_except (_save_to_memory_bank pref_id value)
                 except_Exception (fun _ => ret tt) ;;;
      run_each rest
  end.

Definition loop_runs_pending : Method unit :=
  fun st =>
    match event_loop (snd st) with
    | LoopRunning pending =>
        run_each pending (fst st, with_event_loop (LoopRunning []) (snd st))
    | _ => (Returns tt, st)
    end.

(** [add_preference_async] *)
Definition add_preference_async (key value : text) : Method unit :=
  self <- get_self ;;
  let pref_id := pref_id_for key self in
  modify_self (set_preferences (dict_set pref_id value (preferences self))) ;;;
  _save_preferences_to_file ;;;
  if use_vertex_ai self then _save_to_memory_bank pref_id value
  else ret tt.

(** [get_all_preferences], as a value; the identity of the returned
    object is the subject of module [Objects]. *)
Definition get_all_preferences : Method (dict text) :=
  self <- get_self ;; ret (preferences self).

(** [get_preference_list] *)
Definition get_preference_list : Method (list text) :=
  self <- get_self ;; ret (dict_values (preferences self)).


(** [clear_preferences] *)
Definition clear_preferences : Method unit :=
  modify_self (set_preferences []) ;;;
  _save_preferences_to_file.

(** The keyword test applied to [fact_text] inside the loop of
    [load_from_memory_bank]. *)
Definition looks_like_preference (fact_text : text) : bool :=
  contains (T "prefer") (lower fact_text) || contains (T "style") (lower fact_text) ||
  contains (T "casual") (lower fact_text) || contains (T "formal") (lower fact_text).

(** [memory = result.memory ...; fact_text = memory.fact] *)
Definition read_fact (result : search_result) : outcome (option text) :=
  match result with
  | Memory fact => Returns fact
  | Unreadable e => Raises e
  end.

(** The body of the [for] loop; its state is the local [loaded_prefs].
    A [fact_text] that is [None] or empty is falsy. *)
Definition loop_body (result : search_result) : ST (dict text) unit :=
  try_except
    (fact_text <- lift (read_fact result) ;;
     match fact_text with
     | Some fact =>
         if truthy fact && looks_like_preference fact then
           fun loaded_prefs =>
             (Returns tt,
              dict_set (pref_key (List.length loaded_prefs + 1)) fact loaded_prefs)
         else ret tt
     | None => ret tt
     end)
    except_AttributeError_TypeError
    (fun _ => ret tt).

Fixpoint for_results (search_results : list search_result) : ST (dict text) unit :=
  match search_results with
  | [] => ret tt
  | result :: rest => loop_body result ;;; for_results rest
  end.

Definition iteration_ends (ending : option exn) : ST (dict text) unit :=
  match ending with
  | Some e => raise e
  | None => ret tt
  end.

Definition SEARCH_QUERY : text := T "clothing preferences outfit style".

(** [load_from_memory_bank] *)
Definition load_from_memory_bank : Method (dict text) :=
  self <- get_self ;;
  match use_vertex_ai self, memory_service self with
  | true, Some svc =>
      try_except
        (in_world Client ;;;
         search_results <- in_world (memories_retrieve (agent_engine_name svc)
                                       (user_id self) SEARCH_QUERY) ;;
         loaded_prefs <- with_local []
                           (for_results (fst search_results) ;;;
                            iteration_ends (snd search_results)) ;;
         (if nonempty loaded_prefs then
            modify_self (fun self =>
              set_preferences (dict_update (preferences self) loaded_prefs) self) ;;;
            _save_preferences_to_file
          else ret tt) ;;;
         ret loaded_prefs)
        except_Exception
        (fun _ => ret [])
  | _, _ => ret []
  end.

Definition LOCAL_FILE : text := T "local_file".
Definition VERTEX_AI_MEMORY_BANK : text := T "vertex_ai_memory_bank".

(** [initialize_memory_bank] *)
Definition initialize_memory_bank : Method unit :=
  self <- get_self ;;
  match use_vertex_ai self, memory_service self with
  | true, Some _ =>
      try_except
        (loaded_prefs <- load_from_memory_bank ;;
         if nonempty loaded_prefs
         then modify_self (set_preferences_loaded_from VERTEX_AI_MEMORY_BANK)
         else modify_self (set_preferences_loaded_from LOCAL_FILE))
        except_Exception
        (fun _ => modify_self (set_preferences_loaded_from LOCAL_FILE))
  | _, _ => ret tt
  end.

End Manager.
Export Manager.

(* ===================================================================== *)
(** * [scripts/push_preferences.py] *)
(* ===================================================================== *)

Module PushScript.

(** [push_preference(client, agent_engine_name, user_id, preference_value)] *)
Definition push_preference (agent_engine_name user_id preference_value : text)
  : M unit :=
  if contains GENERIC_PHRASE (lower preference_value) then ret tt
  else
    memories_generate agent_engine_name
      (user_message preference_value)
      (assistant_message preference_value)
      user_id.

End PushScript.
Export PushScript.

(* ===================================================================== *)
(** * Object identity: what [get_all_preferences] hands out *)
(* ===================================================================== *)

Module Objects.

(** Dictionaries live in a heap; a variable or a field holds an address.
    Address [a] is the [a]-th object allocated. *)
Definition addr := nat.
Definition heap := list (dict text).

Definition deref (a : addr) (h : heap) : option (dict text) := nth_error h a.

(** Allocation of a new object. *)
Definition alloc (d : dict text) (h : heap) : heap * addr :=
  (h ++ [d], List.length h).

Fixpoint store (a : addr) (d : dict text) (h : heap) : heap :=
  match h, a with
  | [], _ => []
  | _ :: h', O => d :: h'
  | x :: h', S a' => x :: store a' d h'
  end.

(** What a holder of a reference can do to the object behind it. *)
Inductive mutation :=
| SetItem (k v : text)       (* [d[k] = v] *)
| DelItem (k : text)         (* [del d[k]], when [k] is present *)
| Clear                      (* [d.clear()] *)
| Update (other : dict text) (* [d.update(other)] *).

Definition dict_del (k : text) (d : dict text) : dict text :=
  filter (fun kv => negb (text_eqb (fst kv) k)) d.

Definition apply_mutation (mu : mutation) (d : dict text) : dict text :=
  match mu with
  | SetItem k v => dict_set k v d
  | DelItem k => dict_del k d
  | Clear => []
  | Update other => dict_update d other
  end.

Definition mutate (a : addr) (mu : mutation) (h : heap) : heap :=
  match deref a h with
  | Some d => store a (apply_mutation mu d) h
  | None => h
  end.

Definition mutate_all (a : addr) (mus : list mutation) (h : heap) : heap :=
  fold_left (fun h mu => mutate a mu h) mus h.

(** The manager as an object: the field [preferences] is a reference. *)
Record manager_object := {
  preferences_ref : addr;
  fields : PreferenceManager
}.

(** The manager seen as a value: its fields, with the dictionary that the
    field [preferences] points to. *)
Definition snapshot (o : manager_object) (h : heap) : option PreferenceManager :=
  match deref (preferences_ref o) h with
  | Some d => Some (set_preferences d (fields o))
  | None => None
  end.

(** [return self.preferences.copy()]: a new object with the same items. *)
Definition get_all_preferences_obj (o : manager_object) (h : heap)
  : option (heap * addr) :=
  match deref (preferences_ref o) h with
  | Some d => Some (alloc d h)
  | None => None
  end.

(** [return list(self.preferences.values())] *)
Definition get_preference_list_obj (o : manager_object) (h : heap)
  : option (list text) :=
  match deref (preferences_ref o) h with
  | Some d => Some (dict_values d)
  | None => None
  end.

(** For comparison: a getter that returned [self.preferences] itself. *)
Definition get_alias (o : manager_object) (h : heap) : option (heap * addr) :=
  match deref (preferences_ref o) h with
  | Some _ => Some (h, preferences_ref o)
  | None => None
  end.

End Objects.
Export Objects.

(* ===================================================================== *)
(** * [ActivityDetector.analyze_event] *)
(* ===================================================================== *)

Module Activity.

(** An event dictionary, as far as [analyze_event] looks at it: each of
    the three keys may be absent; a value that is there is a string, as
    [get_todays_events] builds it. *)
Record event := {
  ev_summary : option text;
  ev_location : option text;
  ev_start : option text
}.

(** [event.get(key, default)] *)
Definition get_or (field : option text) (default : text) : text :=
  match field with Some s => s | None => default end.

Record analysis := {
  title : text;
  start_time : text;
  raw_location : text;
  location_type : text;
  formality : text;
  is_exercise : bool;
  is_outdoor : bool
}.

Definition OUTDOOR_PLACES : list text := [T "park"; T "outdoor"; T "trail"; T "beach"].
Definition OFFICE_PLACES : list text := [T "office"; T "workplace"].
Definition HOME_PLACES : list text := [T "home"; T "house"].
Definition FORMAL_WORDS : list text :=
  [T "meeting"; T "presentation"; T "interview"; T "client"].
Definition BUSINESS_WORDS : list text := [T "work"; T "office"; T "business"].
Definition EXERCISE_WORDS : list text :=
  [T "gym"; T "workout"; T "run"; T "exercise"; T "yoga"; T "fitness"].
Definition OUTDOOR_WORDS : list text := [T "outdoor"; T "outside"; T "park"; T "hike"].

Definition analyze_event (ev : event) : analysis :=
  let summary := lower (get_or (ev_summary ev) []) in
  let location := lower (get_or (ev_location ev) []) in
  let location_type :=
    if any_in OUTDOOR_PLACES location then T "outdoor"
    else if any_in OFFICE_PLACES location then T "office"
    else if any_in HOME_PLACES location then T "home"
    else T "indoor" in
  let formality :=
    if any_in FORMAL_WORDS summary then T "formal"
    else if any_in BUSINESS_WORDS summary then T "business_casual"
    else T "casual" in
  let is_exercise := any_in EXERCISE_WORDS summary in
  let is_outdoor := text_eqb location_type (T "outdoor")
                    || any_in OUTDOOR_WORDS summary in
  {| title := get_or (ev_summary ev) (T "Event");
     start_time := get_or (ev_start ev) [];
     raw_location := get_or (ev_location ev) [];
     location_type := location_type;
     formality := formality;
     is_exercise := is_exercise;
     is_outdoor := is_outdoor |}.

End Activity.
Export Activity.

(* ===================================================================== *)
(** * Vocabulary of the specification *)
(* ===================================================================== *)

Module Spec.

(** The facts that can be read off the yielded results, in retrieval
    order: results without a fact, and results that the loop skips, are
    left out. *)
Fixpoint facts_of (yielded : list search_result) : list text :=
  match yielded with
  | [] => []
  | Memory (Some fact) :: rest => fact :: facts_of rest
  | _ :: rest => facts_of rest
  end.

(** The fixed keyword set of the fact filter. *)
Definition KEYWORDS : list text := [T "prefer"; T "style"; T "casual"; T "formal"].

(** The facts that pass the keyword test. *)
Definition accepted (yielded : list search_result) : list text :=
  filter looks_like_preference (facts_of yielded).

(** [facts] numbered from [i]: the [j]-th of them (counting from zero)
    under the key [pref_{i+j}]. *)
Fixpoint number_from (i : nat) (facts : list text) : dict text :=
  match facts with
  | [] => []
  | fact :: rest => (pref_key i, fact) :: number_from (S i) rest
  end.

(** The i-th accepted fact under the synthetic key [pref_i]. *)
Definition synthetic_entries (facts : list text) : dict text :=
  number_from 1 facts.

(** A result whose exception is not one the loop skips. *)
Definition escapes_loop (r : search_result) : bool :=
  match r with
  | Unreadable e => negb (except_AttributeError_TypeError e)
  | Memory _ => false
  end.

Definition is_some {A} (o : option A) : bool :=
  match o with Some _ => true | None => false end.

(** The remote collaborator fails during fact retrieval: the client
    cannot be made, the call raises, the iteration raises, or a result
    raises something the loop does not skip. *)
Definition retrieval_fails (w : world) : bool :=
  is_some (client_raises w) ||
  match retrieve_reply w with
  | RetrieveRaises _ => true
  | Results yielded ending => existsb escapes_loop yielded || is_some ending
  end.

(** The facts a sync in world [w] accepts. *)
Definition accepted_in (w : world) : list text :=
  match retrieve_reply w with
  | Results yielded _ => accepted yielded
  | RetrieveRaises _ => []
  end.

(** The manager has a remote service to talk to. *)
Definition remote_enabled (self : PreferenceManager) : bool :=
  use_vertex_ai self && is_some (memory_service self).

(** The value is the content-free echo that no write path may push. *)
Definition is_generic (preference_value : text) : bool :=
  contains GENERIC_PHRASE (lower preference_value).

(** The world after [json.dump] of [d] was attempted: the file holds the
    dump when it could be opened for writing, and is untouched when not. *)
Definition after_save (d : dict text) (w : world) : world :=
  if writable w then with_backing_file (Holding (json_dumps d)) w else w.

(** The world after the retrieval call was received by the service. *)
Definition after_retrieve (svc : VertexAiMemoryBankService)
           (self : PreferenceManager) (w : world) : world :=
  with_remote_log
    (remote_log w ++ [Retrieve (agent_engine_name svc) (user_id self) SEARCH_QUERY]) w.

(** The world after the fact-generation call was received. *)
Definition after_generate (name uid preference_value : text) (w : world) : world :=
  with_remote_log
    (remote_log w ++ [Generate name (user_message preference_value)
                               (assistant_message preference_value) uid]) w.

(** Running a method on [self] in a world: what it returns or raises,
    the object afterwards, the world afterwards. *)
Definition result_of {A} (c : Method A) (self : PreferenceManager) (w : world)
  : outcome A := fst (c (self, w)).
Definition self_after {A} (c : Method A) (self : PreferenceManager) (w : world)
  : PreferenceManager := fst (snd (c (self, w))).
Definition world_after {A} (c : Method A) (self : PreferenceManager) (w : world)
  : world := snd (snd (c (self, w))).

(** The facts a sync by [self] in world [w] merges: the accepted ones when
    the remote service is in use and the retrieval goes through. *)
Definition merged_in (self : PreferenceManager) (w : world) : list text :=
  if remote_enabled self && negb (retrieval_fails w) then accepted_in w else [].

End Spec.
Export Spec.

(* ===================================================================== *)
(** * Text that a file can hold, text that survives the codec *)
(* ===================================================================== *)

Module Wellformed.

(** A Unicode scalar value: a code point that is not a surrogate.  Text
    decoded from the bytes of a file consists of scalar values. *)
Definition is_scalar (c : N) : bool :=
  (c <? 1114112)%N && negb ((55296 <=? c)%N && (c <=? 57343)%N).

Definition scalar_text (s : text) : Prop :=
  Forall (fun c => is_scalar c = true) s.

Definition decoded (f : file) : Prop :=
  match f with
  | Holding content => scalar_text content
  | _ => True
  end.

(** No high surrogate is directly followed by a low one. *)
Fixpoint pair_free (s : text) : bool :=
  match s with
  | [] => true
  | c :: r =>
      match r with
      | c2 :: _ => negb (is_high_surrogate c && is_low_surrogate c2)
      | [] => true
      end && pair_free r
  end.

(** A [str] as [json.load] can produce it: code points in range, lone
    surrogates allowed, no surrogate pair left unjoined. *)
Definition good_text (s : text) : bool :=
  forallb (fun c => (c <? 1114112)%N) s && pair_free s.

Definition good_value (v : json) : Prop :=
  match v with
  | JString x => good_text x = true
  | _ => True
  end.

Definition good_pair (kv : text * json) : Prop :=
  good_text (fst kv) = true /\ good_value (snd kv).

(** What is known of a value that the decoder returns: its strings, as far
    as the top two levels go, are good, and an object is a dictionary. *)
Definition good_json (v : json) : Prop :=
  match v with
  | JString x => good_text x = true
  | JObject d => Forall good_pair d /\ is_dict d
  | _ => True
  end.

(** The text opens with a [\uXXXX] escape that denotes [c]. *)
Definition opens_with_escape_of (c : N) (s : text) : Prop :=
  exists h1 h2 h3 h4 r,
    s = BACKSLASH :: 117%N :: h1 :: h2 :: h3 :: h4 :: r /\
    decode_hex4 h1 h2 h3 h4 = Some c.

(** What holds of a result of the decoder. *)
Definition decoder_result_ok (res : option (json * text)) : Prop :=
  match res with
  | Some (v, r) => good_json v /\ scalar_text r
  | None => True
  end.

(** An entry of a [Dict[str, str]] whose two strings are good. *)
Definition good_item (kv : text * text) : Prop :=
  good_text (fst kv) = true /\ good_text (snd kv) = true.

(** A member of [json_of_prefs]. *)
Definition member (kv : text * text) : text * json := (fst kv, JString (snd kv)).

(** The shape of a dump.  An item after the opening quote of its key,
    followed by [rest]: *)
Definition item_body (kv : text * text) (rest : text) : text :=
  flat_map escape_cp (fst kv) ++
  QUOTE :: COLON :: SPACE :: QUOTE :: flat_map escape_cp (snd kv) ++ QUOTE :: rest.

(** the items after the first, and the closing of the object. *)
Fixpoint more_items (items : list (text * text)) (rest : text) : text :=
  match items with
  | [] => NEWLINE :: RBRACE :: rest
  | kv :: items' =>
      COMMA :: NEWLINE :: SPACE :: SPACE :: QUOTE ::
      item_body kv (more_items items' rest)
  end.

End Wellformed.
Export Wellformed.

(* ===================================================================== *)
(** * Sample objects and worlds *)
(* ===================================================================== *)

Module Samples.

Definition sample_service : VertexAiMemoryBankService :=
  {| _project := T "demo-project";
     _location := T "us-central1";
     _agent_engine_id := T "42" |}.

(** A manager holding [prefs], with or without the remote service. *)
Definition manager_with (prefs : dict text) (remote : bool) : PreferenceManager :=
  {| user_id := T "default_user";
     preferences := prefs;
     use_vertex_ai := remote;
     memory_service := if remote then Some sample_service else None;
     preferences_loaded_from := LOCAL_FILE |}.

(** A world with a writable backing file in state [f], whose remote
    service answers a retrieval with [reply]; the interpreter has its
    default limits and an event loop that is not running. *)
Definition world_with (f : file) (reply : retrieval) : world :=
  {| backing_file := f;
     writable := true;
     nesting_room := 990;
     int_max_str_digits := 4300;
     client_raises := None;
     retrieve_reply := reply;
     generate_raises := None;
     remote_log := [];
     event_loop := LoopIdle |}.

End Samples.
Export Samples.

(* ===================================================================== *)
(** * Construction and life of a manager *)
(* ===================================================================== *)

Module Lifecycle.

(** What the constructor meets besides the world of the store: whether
    the import of the SDK succeeded, whether the parent directory can be
    made, whether the service object can be built. *)
Record startup := {
  VERTEX_AI_AVAILABLE : bool;
  mkdir_raises : option exn;
  service_raises : option exn
}.

(** Python truthiness of an [Optional[str]]. *)
Definition truthy_opt (o : option text) : bool :=
  match o with Some s => truthy s | None => false end.

(** The members of a JSON object as a [Dict[str, str]], when every value
    is a string. *)
Fixpoint strings_of (members : dict json) : option (dict text) :=
  match members with
  | [] => Some []
  | (k, JString s) :: rest =>
      match strings_of rest with
      | Some d => Some ((k, s) :: d)
      | None => None
      end
  | _ :: _ => None
  end.

(** The value returned by [_load_preferences_from_file], at the type of
    its annotation; [None] for a document of another shape. *)
Definition as_preferences (v : json) : option (dict text) :=
  match v with
  | JObject members => strings_of members
  | _ => None
  end.

Definition if_raises (e : option exn) : M unit :=
  fun w => match e with Some x => (Raises x, w) | None => (Returns tt, w) end.

Definition get_or_empty (o : option text) : text :=
  match o with Some s => s | None => [] end.

(** The object as [__init__] leaves it.  Its [preferences] are whatever
    [json.load] returned: the annotation says [Dict[str, str]], the file
    decides. *)
Record constructed := {
  c_user_id : text;
  c_preferences : json;
  c_use_vertex_ai : bool;
  c_memory_service : option VertexAiMemoryBankService;
  c_preferences_loaded_from : text
}.

(** [PreferenceManager.__init__], with [_initialize_vertex_ai]. *)
Definition __init__ (env : startup) (use_vertex_ai : bool)
           (project_id location agent_engine_id : option text) (user_id : text)
  : M constructed :=
  if_raises (mkdir_raises env) ;;;
  loaded <- _load_preferences_from_file ;;
  let with_service (svc : option VertexAiMemoryBankService) :=
    {| c_user_id := user_id;
       c_preferences := loaded;
       c_use_vertex_ai := match svc with Some _ => true | None => false end;
       c_memory_service := svc;
       c_preferences_loaded_from := LOCAL_FILE |} in
  if use_vertex_ai && VERTEX_AI_AVAILABLE env then
    if truthy_opt project_id && truthy_opt location && truthy_opt agent_engine_id
    then
      try_except
        (if_raises (service_raises env) ;;;
         ret (with_service
                (Some {| _project := get_or_empty project_id;
                         _location := get_or_empty location;
                         _agent_engine_id := get_or_empty agent_engine_id |})))
        except_Exception
        (fun _ => ret (with_service None))
    else ret (with_service None)
  else ret (with_service None).

(** The methods are modelled on a manager whose preferences are what the
    annotation says, a dictionary of strings.  This is that view of a
    constructed object; there is none when the file held a JSON document
    of another shape. *)
Definition as_manager (c : constructed) : option PreferenceManager :=
  match as_preferences (c_preferences c) with
  | Some prefs =>
      Some {| Manager.user_id := c_user_id c;
              preferences := prefs;
              Manager.use_vertex_ai := c_use_vertex_ai c;
              memory_service := c_memory_service c;
              preferences_loaded_from := c_preferences_loaded_from c |}
  | None => None
  end.

(** The operations a holder of the manager can ask for. *)
Inductive operation :=
| DoAdd (key value : text)
| DoAddAsync (key value : text)
| DoClear
| DoSync.

Definition perform (o : operation) : Method unit :=
  match o with
  | DoAdd key value => add_preference key value
  | DoAddAsync key value => add_preference_async key value
  | DoClear => clear_preferences
  | DoSync => initialize_memory_bank
  end.

(** The managers that [m0] can become: any operations, each in whatever
    world it finds. *)
Inductive reachable (m0 : PreferenceManager) : PreferenceManager -> Prop :=
| reach_start : reachable m0 m0
| reach_step (m : PreferenceManager) (o : operation) (w : world) :
    reachable m0 m -> reachable m0 (self_after (perform o) m w).

(** Every key of the form [pref_N] has [N] at most the size. *)
Definition numbered_within (d : dict text) : Prop :=
  forall n, dict_get (pref_key n) d <> None -> n <= List.length d.

(** [vertexai.Client(..)] can be built. *)
Definition client_ok (w : world) : bool :=
  match client_raises w with None => true | Some _ => false end.

(** Two worlds with the same backing file, whatever their remote side. *)
Definition same_store (w1 w2 : world) : Prop :=
  backing_file w1 = backing_file w2 /\ writable w1 = writable w2.

(** A line feed or a printable ASCII character. *)
Definition plain_ascii (c : N) : bool :=
  (c =? 10)%N || ((32 <=? c)%N && (c <=? 126)%N).

End Lifecycle.
Export Lifecycle.

(* ===================================================================== *)
(** * The scripts that push the local preferences *)
(* ===================================================================== *)

Module Scripts.

(** [for key, value in local_prefs.items(): await push_preference(..)] on
    what [json.load] returned; a value that is not a string has no
    [lower]. *)
Fixpoint push_each (agent_engine_name user_id : text) (members : dict json)
  : M unit :=
  match members with
  | [] => ret tt
  | (_, value) :: rest =>
      match value with
      | JString preference_value =>
          push_preference agent_engine_name user_id preference_value
      | _ => raise AttributeError
      end ;;;
      push_each agent_engine_name user_id rest
  end.

(** [main] of [scripts/push_preferences.py] from the construction of the
    client on, that is, once the configuration has been validated and the
    user authenticated.  A document that has no [len] raises [TypeError],
    one that has no [items] raises [AttributeError]; nothing is caught. *)
Definition push_main (agent_engine_name user_id : text) : M unit :=
  Client ;;;
  present <- path_exists ;;
  if present then
    f <- open_r ;;
    local_prefs <- json_load f ;;
    match local_prefs with
    | JObject members => push_each agent_engine_name user_id members
    | JString _ | JArray _ => raise AttributeError
    | JNull | JBool _ | JNumber _ => raise TypeError
    end
  else ret tt.




End Scripts.
Export Scripts.

(* ===================================================================== *)
(** * Parts of a text *)
(* ===================================================================== *)

Module Parts.

(** [a] occurs in [b] as a run of consecutive characters. *)
Definition part_of (a b : text) : Prop := exists p q, b = p ++ a ++ q.






End Parts.
Export Parts.

(* ===================================================================== *)
(** * Facts about text and dictionaries *)
(* ===================================================================== *)

Unset Implicit Arguments.

Section TextFacts.

Lemma text_eqb_eq (a b : text) : text_eqb a b = true <-> a = b.
Proof.
  revert b; induction a as [|x a IH]; intros [|y b]; simpl; split;
    try congruence; try reflexivity.
  - intros H. apply andb_true_iff in H as [Hx Hab].
    apply N.eqb_eq in Hx. apply IH in Hab. congruence.
  - intros H. injection H as -> ->.
    rewrite N.eqb_refl. simpl. now apply IH.
Qed.

Lemma text_eqb_refl (a : text) : text_eqb a a = true.
Proof. now apply text_eqb_eq. Qed.

Lemma text_eqb_neq (a b : text) : text_eqb a b = false <-> a <> b.
Proof.
  split.
  - intros H E. apply text_eqb_eq in E. congruence.
  - intros H. destruct (text_eqb a b) eqn:E; [|reflexivity].
    apply text_eqb_eq in E. contradiction.
Qed.

Lemma startswith_app (p s : text) : startswith (p ++ s) p = true.
Proof. induction p; simpl; [reflexivity|]. now rewrite N.eqb_refl. Qed.

Lemma startswith_prefix (s p : text) :
  startswith s p = true -> exists r, s = p ++ r.
Proof.
  revert s; induction p as [|c p IH]; intros s H; simpl in *.
  - now exists s.
  - destruct s as [|x s]; [discriminate|].
    apply andb_true_iff in H as [Hc Hp]. apply N.eqb_eq in Hc. subst x.
    destruct (IH _ Hp) as [r ->]. now exists r.
Qed.

Lemma contains_part (needle hay : text) :
  contains needle hay = true <-> part_of needle hay.
Proof.
  split.
  - induction hay as [|c hay IH]; cbn [contains]; intros H.
    + rewrite orb_false_r in H. apply startswith_prefix in H as [r ->].
      now exists [], r.
    + apply orb_true_iff in H as [H|H].
      * apply startswith_prefix in H as [r ->]. now exists [], r.
      * destruct (IH H) as [p [q ->]]. now exists (c :: p), q.
  - intros [p [q ->]]. induction p as [|c p IH].
    + cbn [app]. destruct (needle ++ q) eqn:E; cbn [contains]; rewrite <- ?E;
        now rewrite startswith_app.
    + cbn [app contains]. rewrite IH. apply orb_true_r.
Qed.

Lemma part_of_trans (a b c : text) : part_of a b -> part_of b c -> part_of a c.
Proof.
  intros [p [q ->]] [p' [q' ->]]. exists (p' ++ p), (q ++ q').
  now rewrite <- !app_assoc.
Qed.

Lemma contains_nil_false (needle : text) :
  needle <> [] -> contains needle [] = false.
Proof. destruct needle; [congruence|reflexivity]. Qed.

Lemma digits_inj (d d' : Decimal.uint) : digits d = digits d' -> d = d'.
Proof.
  revert d'; induction d; intros d' H; destruct d'; simpl in H;
    try discriminate; try reflexivity;
    injection H as H; f_equal; now apply IHd.
Qed.

Lemma str_of_nat_inj (n m : nat) : str_of_nat n = str_of_nat m -> n = m.
Proof.
  unfold str_of_nat. intros H. apply digits_inj in H.
  rewrite <- (DecimalNat.Unsigned.of_to n), <- (DecimalNat.Unsigned.of_to m).
  now rewrite H.
Qed.

Lemma pref_key_inj (n m : nat) : pref_key n = pref_key m -> n = m.
Proof.
  unfold pref_key. intros H. apply app_inv_head in H.
  now apply str_of_nat_inj.
Qed.

Lemma pref_key_sentinel (n : nat) : startswith (pref_key n) (T "pref_") = true.
Proof. apply startswith_app. Qed.

End TextFacts.

Section DictFacts.
Variable V : Type.
Implicit Types (d : dict V) (k : text) (v : V).

Lemma dict_get_set_same k v d : dict_get k (dict_set k v d) = Some v.
Proof.
  induction d as [|[k' v'] d IH]; simpl.
  - now rewrite text_eqb_refl.
  - destruct (text_eqb k' k) eqn:E; simpl; rewrite E; [reflexivity|exact IH].
Qed.

Lemma dict_get_set_other k k' v d :
  k <> k' -> dict_get k' (dict_set k v d) = dict_get k' d.
Proof.
  intros Hne. induction d as [|[k0 v0] d IH]; simpl.
  - assert (text_eqb k k' = false) as -> by now apply text_eqb_neq.
    reflexivity.
  - destruct (text_eqb k0 k) eqn:E; simpl.
    + apply text_eqb_eq in E. subst k0.
      assert (text_eqb k k' = false) as -> by now apply text_eqb_neq.
      reflexivity.
    + destruct (text_eqb k0 k'); [reflexivity|exact IH].
Qed.

Lemma dict_get_None_notin k d : dict_get k d = None <-> ~ In k (dict_keys d).
Proof.
  induction d as [|[k' v'] d IH]; simpl.
  - tauto.
  - destruct (text_eqb k' k) eqn:E.
    + apply text_eqb_eq in E. subst. split; [discriminate|tauto].
    + apply text_eqb_neq in E. rewrite IH. tauto.
Qed.

Lemma dict_get_In k v d : dict_get k d = Some v -> In (k, v) d.
Proof.
  induction d as [|[k' v'] d IH]; simpl; [discriminate|].
  destruct (text_eqb k' k) eqn:E.
  - apply text_eqb_eq in E. intros [= ->]. subst. now left.
  - intros H. right. now apply IH.
Qed.

Lemma dict_In_get k v d : is_dict d -> In (k, v) d -> dict_get k d = Some v.
Proof.
  unfold is_dict. induction d as [|[k' v'] d IH]; simpl; [tauto|].
  intros Hnd [H|H].
  - injection H as -> ->. now rewrite text_eqb_refl.
  - inversion Hnd as [|? ? Hnotin Hnd']; subst.
    destruct (text_eqb k' k) eqn:E.
    + apply text_eqb_eq in E. subst k'. exfalso. apply Hnotin.
      change k with (fst (k, v)). now apply in_map.
    + now apply IH.
Qed.

(** A key that is not there is appended. *)
Lemma dict_set_fresh k v d : dict_get k d = None -> dict_set k v d = d ++ [(k, v)].
Proof.
  induction d as [|[k' v'] d IH]; simpl; [reflexivity|].
  destruct (text_eqb k' k); [discriminate|]. intros H. now rewrite IH.
Qed.

(** A key that is there keeps its place: the keys do not change. *)
Lemma dict_set_keys_present k v d :
  dict_get k d <> None -> dict_keys (dict_set k v d) = dict_keys d.
Proof.
  induction d as [|[k' v'] d IH]; simpl; [congruence|].
  destruct (text_eqb k' k) eqn:E; simpl; [reflexivity|].
  intros H. now rewrite IH.
Qed.

Lemma dict_set_length_present k v d :
  dict_get k d <> None -> List.length (dict_set k v d) = List.length d.
Proof.
  intros H. apply dict_set_keys_present with (v := v) in H.
  unfold dict_keys in H. apply (f_equal (@List.length _)) in H.
  now rewrite !length_map in H.
Qed.

Lemma dict_set_is_dict k v d : is_dict d -> is_dict (dict_set k v d).
Proof.
  unfold is_dict. intros Hd.
  destruct (dict_get k d) eqn:E.
  - rewrite dict_set_keys_present; [assumption|congruence].
  - rewrite (dict_set_fresh _ v _ E). unfold dict_keys. rewrite map_app. simpl.
    apply dict_get_None_notin in E.
    apply NoDup_rev in Hd. rewrite <- (rev_involutive (map fst d ++ [k])).
    apply NoDup_rev. rewrite rev_app_distr. simpl. constructor.
    + now rewrite <- in_rev.
    + exact Hd.
Qed.

Lemma dict_update_is_dict d other : is_dict d -> is_dict (dict_update d other).
Proof.
  unfold dict_update. revert d.
  induction other as [|[k v] other IH]; simpl; intros d Hd; [assumption|].
  apply IH. now apply dict_set_is_dict.
Qed.

Lemma dict_of_pairs_is_dict (pairs : list (text * V)) : is_dict (dict_of_pairs pairs).
Proof. apply dict_update_is_dict. constructor. Qed.

(** Lookup after [d.update(other)]: [other] wins where it has the key. *)
Lemma dict_get_update k d other :
  is_dict other ->
  dict_get k (dict_update d other) =
  match dict_get k other with
  | Some v => Some v
  | None => dict_get k d
  end.
Proof.
  unfold dict_update, is_dict. revert d.
  induction other as [|[k1 v1] other IH]; simpl; intros d Hnd; [reflexivity|].
  inversion Hnd as [|? ? Hnotin Hnd']; subst.
  rewrite (IH _ Hnd').
  destruct (text_eqb k1 k) eqn:E.
  - apply text_eqb_eq in E. subst k1.
    apply dict_get_None_notin in Hnotin. rewrite Hnotin.
    apply dict_get_set_same.
  - destruct (dict_get k other); [reflexivity|].
    apply dict_get_set_other. now apply text_eqb_neq.
Qed.

(** Appending entries with new, distinct keys. *)
Lemma dict_update_fresh d other :
  is_dict (d ++ other) -> dict_update d other = d ++ other.
Proof.
  unfold dict_update, is_dict, dict_keys. revert d.
  induction other as [|[k v] other IH]; simpl; intros d Hnd.
  - now rewrite app_nil_r.
  - assert (Hk : dict_get k d = None).
    { apply dict_get_None_notin. rewrite map_app in Hnd. simpl in Hnd.
      apply NoDup_remove_2 in Hnd. intros Hin. apply Hnd.
      apply in_or_app. now left. }
    rewrite (dict_set_fresh _ v _ Hk).
    replace (d ++ (k, v) :: other) with ((d ++ [(k, v)]) ++ other)
      by now rewrite <- app_assoc.
    apply IH. now rewrite <- app_assoc.
Qed.

End DictFacts.

(* ===================================================================== *)
(** * The merge pass of [load_from_memory_bank] *)
(* ===================================================================== *)

Section MergePass.

Lemma number_from_length (i : nat) (facts : list text) :
  List.length (number_from i facts) = List.length facts.
Proof. revert i; induction facts; simpl; intros; [reflexivity|]. now rewrite IHfacts. Qed.

Lemma number_from_app (i : nat) (a b : list text) :
  number_from i (a ++ b) = number_from i a ++ number_from (i + List.length a) b.
Proof.
  revert i; induction a as [|f a IH]; simpl; intros i.
  - now rewrite Nat.add_0_r.
  - rewrite IH. now rewrite Nat.add_succ_r.
Qed.

Lemma number_from_keys (i : nat) (facts : list text) :
  dict_keys (number_from i facts) = map pref_key (seq i (List.length facts)).
Proof.
  revert i; induction facts as [|f facts IH]; simpl; intros i; [reflexivity|].
  f_equal. apply IH.
Qed.

Lemma number_from_is_dict (i : nat) (facts : list text) :
  is_dict (number_from i facts).
Proof.
  unfold is_dict. rewrite number_from_keys.
  apply NoDup_map_NoDup_ForallPairs; [|apply seq_NoDup].
  intros x y _ _. apply pref_key_inj.
Qed.

Lemma number_from_get_out (i j : nat) (facts : list text) :
  j < i \/ i + List.length facts <= j ->
  dict_get (pref_key j) (number_from i facts) = None.
Proof.
  intros H. apply dict_get_None_notin. rewrite number_from_keys.
  intros Hin. apply in_map_iff in Hin as [x [Hx Hin]].
  apply pref_key_inj in Hx. subst x. apply in_seq in Hin. lia.
Qed.

Lemma number_from_get_in (i j : nat) (facts : list text) :
  dict_get (pref_key (i + j)) (number_from i facts) = nth_error facts j.
Proof.
  revert i j; induction facts as [|f facts IH]; intros i j.
  - now destruct j.
  - cbn [number_from dict_get]. destruct j as [|j].
    + rewrite Nat.add_0_r. now rewrite text_eqb_refl.
    + assert (text_eqb (pref_key i) (pref_key (i + S j)) = false) as ->.
      { apply text_eqb_neq. intros E. apply pref_key_inj in E. lia. }
      cbn [nth_error]. rewrite <- (IH (S i) j). f_equal. f_equal. lia.
Qed.

(** A fact that passes the keyword test is not empty. *)
Lemma looks_like_preference_truthy (fact : text) :
  looks_like_preference fact = true -> truthy fact = true.
Proof. destruct fact; [discriminate|reflexivity]. Qed.

(** One accepted fact: the next number, appended. *)
Lemma loop_body_accepts (fact : text) (facts0 : list text) :
  looks_like_preference fact = true ->
  loop_body (Memory (Some fact)) (synthetic_entries facts0) =
  (Returns tt, synthetic_entries (facts0 ++ [fact])).
Proof.
  intros Hlooks. unfold loop_body, try_except, bind, lift. simpl.
  rewrite (looks_like_preference_truthy _ Hlooks), Hlooks. simpl.
  unfold synthetic_entries. rewrite number_from_length, number_from_app. simpl.
  rewrite dict_set_fresh.
  - now rewrite Nat.add_comm.
  - apply number_from_get_out. lia.
Qed.

Lemma loop_body_rejects (fact : text) (loaded : dict text) :
  looks_like_preference fact = false ->
  loop_body (Memory (Some fact)) loaded = (Returns tt, loaded).
Proof.
  intros Hlooks. unfold loop_body, try_except, bind, lift. simpl.
  rewrite Hlooks, andb_false_r. reflexivity.
Qed.

Lemma loop_body_skips (e : exn) (loaded : dict text) :
  except_AttributeError_TypeError e = true ->
  loop_body (Unreadable e) loaded = (Returns tt, loaded).
Proof.
  intros He. unfold loop_body, try_except, bind, lift. simpl. now rewrite He.
Qed.

Lemma loop_body_escapes (e : exn) (loaded : dict text) :
  except_AttributeError_TypeError e = false ->
  loop_body (Unreadable e) loaded = (Raises e, loaded).
Proof.
  intros He. unfold loop_body, try_except, bind, lift. simpl. now rewrite He.
Qed.

(** The whole loop, when nothing escapes it. *)
Lemma for_results_ok (yielded : list search_result) :
  existsb escapes_loop yielded = false ->
  forall facts0,
    for_results yielded (synthetic_entries facts0) =
    (Returns tt, synthetic_entries (facts0 ++ accepted yielded)).
Proof.
  induction yielded as [|r yielded IH]; intros Hesc facts0.
  - unfold accepted. simpl. now rewrite app_nil_r.
  - simpl in Hesc. apply orb_false_iff in Hesc as [Hr Hrest].
    simpl. unfold bind.
    destruct r as [[fact|]|e].
    + unfold accepted. simpl.
      destruct (looks_like_preference fact) eqn:Hlooks.
      * rewrite (loop_body_accepts _ _ Hlooks). rewrite (IH Hrest).
        unfold accepted. now rewrite <- app_assoc.
      * rewrite (loop_body_rejects _ _ Hlooks). apply (IH Hrest).
    + unfold loop_body, try_except, bind, lift. simpl. change (ret tt) with (@ret (dict text) unit tt).
      apply (IH Hrest).
    + simpl in Hr. apply negb_false_iff in Hr.
      rewrite (loop_body_skips _ _ Hr). apply (IH Hrest).
Qed.

(** The loop raises as soon as a result escapes it. *)
Lemma for_results_escapes (yielded : list search_result) :
  existsb escapes_loop yielded = true ->
  forall loaded, exists e loaded',
    for_results yielded loaded = (Raises e, loaded').
Proof.
  induction yielded as [|r yielded IH]; intros Hesc loaded; [discriminate|].
  simpl in Hesc. simpl. unfold bind.
  destruct (loop_body r loaded) as [[[]|e] loaded1] eqn:Hbody.
  - destruct (escapes_loop r) eqn:Hr.
    + destruct r as [fact|e]; [discriminate|].
      apply negb_true_iff in Hr.
      rewrite (loop_body_escapes _ _ Hr) in Hbody. discriminate.
    + simpl in Hesc. apply (IH Hesc).
  - now exists e, loaded1.
Qed.

End MergePass.

(* ===================================================================== *)
(** * The methods, step by step *)
(* ===================================================================== *)

Section Methods.

Lemma save_runs (m : PreferenceManager) (w : world) :
  _save_preferences_to_file (m, w) = (Returns tt, (m, after_save (preferences m) w)).
Proof.
  unfold _save_preferences_to_file, bind, get_self, try_except, in_world,
    open_w_dump, after_save. simpl.
  destruct (writable w); reflexivity.
Qed.

Lemma after_save_remote_log (d : dict text) (w : world) :
  remote_log (after_save d w) = remote_log w.
Proof. unfold after_save. now destruct (writable w). Qed.

Lemma after_save_writable (d : dict text) (w : world) :
  writable w = true -> backing_file (after_save d w) = Holding (json_dumps d).
Proof. unfold after_save. now intros ->. Qed.

(** A sync that meets no failure: the accepted facts are numbered, merged
    with [dict.update], and the merged set is saved. *)
Lemma load_from_memory_bank_ok (m : PreferenceManager)
      (svc : VertexAiMemoryBankService) (w : world) :
  use_vertex_ai m = true ->
  memory_service m = Some svc ->
  retrieval_fails w = false ->
  load_from_memory_bank (m, w) =
  let loaded := synthetic_entries (accepted_in w) in
  let w1 := after_retrieve svc m w in
  if nonempty loaded
  then (Returns loaded,
        (set_preferences (dict_update (preferences m) loaded) m,
         after_save (dict_update (preferences m) loaded) w1))
  else (Returns [], (m, w1)).
Proof.
  intros Huse Hsvc Hfail.
  unfold retrieval_fails in Hfail. apply orb_false_iff in Hfail as [Hclient Hreply].
  destruct (client_raises w) eqn:Ec; [discriminate|].
  destruct (retrieve_reply w) as [e|yielded ending] eqn:Er; [discriminate|].
  apply orb_false_iff in Hreply as [Hesc Hend].
  destruct ending; [discriminate|].
  unfold accepted_in. rewrite Er.
  unfold load_from_memory_bank, bind at 1, get_self. cbn [fst].
  rewrite Huse, Hsvc.
  unfold try_except, bind, in_world, Client, memories_retrieve, log_call, bind,
    with_local. simpl. rewrite Ec. simpl. rewrite Er. simpl.
  unfold bind.
  pose proof (for_results_ok yielded Hesc []) as Hloop. simpl in Hloop.
  change (@nil (text * text)) with (synthetic_entries []) at 1.
  rewrite Hloop. simpl.
  destruct (synthetic_entries (accepted yielded)) eqn:El; simpl.
  - reflexivity.
  - unfold modify_self. simpl. rewrite save_runs. reflexivity.
Qed.

(** A sync that meets a failure returns the empty dictionary and leaves
    [self] and the file alone. *)
Lemma load_from_memory_bank_fails (m : PreferenceManager)
      (svc : VertexAiMemoryBankService) (w : world) :
  use_vertex_ai m = true ->
  memory_service m = Some svc ->
  retrieval_fails w = true ->
  exists w', load_from_memory_bank (m, w) = (Returns [], (m, w')) /\
             backing_file w' = backing_file w /\
             writable w' = writable w.
Proof.
  intros Huse Hsvc Hfail.
  unfold load_from_memory_bank, bind at 1, get_self. cbn [fst].
  rewrite Huse, Hsvc.
  unfold try_except, bind, in_world, Client. simpl.
  destruct (client_raises w) eqn:Ec; simpl.
  { now exists w. }
  unfold memories_retrieve, log_call, bind. simpl.
  unfold retrieval_fails in Hfail. rewrite Ec in Hfail. simpl in Hfail.
  destruct (retrieve_reply w) as [e|yielded ending] eqn:Er; simpl.
  { eexists. split; [reflexivity|]. now split. }
  unfold with_local, bind.
  destruct (existsb escapes_loop yielded) eqn:Hesc.
  - destruct (for_results_escapes yielded Hesc []) as [e [l' Hl]].
    rewrite Hl. simpl. eexists. split; [reflexivity|]. now split.
  - pose proof (for_results_ok yielded Hesc []) as Hloop.
    change (synthetic_entries []) with (@nil (text * text)) in Hloop.
    rewrite Hloop. simpl in Hfail. destruct ending; [|discriminate]. simpl.
    eexists. split; [reflexivity|]. now split.
Qed.

End Methods.

(* ===================================================================== *)
(** * Sync: [initialize_memory_bank] *)
(* ===================================================================== *)

Section Sync.

Lemma remote_enabled_inv (m : PreferenceManager) :
  remote_enabled m = true ->
  use_vertex_ai m = true /\ exists svc, memory_service m = Some svc.
Proof.
  unfold remote_enabled. intros H. apply andb_true_iff in H as [Hu Hs].
  split; [assumption|]. destruct (memory_service m) as [svc|]; [|discriminate].
  now exists svc.
Qed.

Lemma initialize_disabled (m : PreferenceManager) (w : world) :
  remote_enabled m = false ->
  initialize_memory_bank (m, w) = (Returns tt, (m, w)).
Proof.
  unfold remote_enabled, initialize_memory_bank, bind, get_self. cbn [fst].
  destruct (use_vertex_ai m); [|reflexivity].
  destruct (memory_service m); [discriminate|reflexivity].
Qed.

Lemma initialize_ok (m : PreferenceManager) (w : world) :
  remote_enabled m = true ->
  retrieval_fails w = false ->
  exists w',
    initialize_memory_bank (m, w) =
    (Returns tt,
     (set_preferences_loaded_from
        (if nonempty (accepted_in w) then VERTEX_AI_MEMORY_BANK else LOCAL_FILE)
        (set_preferences
           (dict_update (preferences m) (synthetic_entries (accepted_in w))) m),
      w')) /\
    remote_log w' = remote_log w ++
                    match memory_service m with
                    | Some svc => [Retrieve (agent_engine_name svc) (user_id m) SEARCH_QUERY]
                    | None => []
                    end /\
    (nonempty (accepted_in w) = false -> backing_file w' = backing_file w).
Proof.
  intros Hen Hok. destruct (remote_enabled_inv _ Hen) as [Huse [svc Hsvc]].
  unfold initialize_memory_bank, bind at 1, get_self. cbn [fst].
  rewrite Huse, Hsvc. unfold try_except, bind.
  rewrite (load_from_memory_bank_ok m svc w Huse Hsvc Hok). cbv zeta.
  destruct (accepted_in w) as [|fact facts] eqn:Eacc.
  - simpl. exists (after_retrieve svc m w). split; [|split].
    + unfold modify_self. simpl. unfold set_preferences_loaded_from, set_preferences.
      simpl. reflexivity.
    + reflexivity.
    + reflexivity.
  - simpl. eexists. split; [|split].
    + unfold modify_self. simpl. reflexivity.
    + now rewrite after_save_remote_log.
    + discriminate.
Qed.

Lemma initialize_fails (m : PreferenceManager) (w : world) :
  remote_enabled m = true ->
  retrieval_fails w = true ->
  exists w',
    initialize_memory_bank (m, w) =
    (Returns tt, (set_preferences_loaded_from LOCAL_FILE m, w')) /\
    backing_file w' = backing_file w.
Proof.
  intros Hen Hfail. destruct (remote_enabled_inv _ Hen) as [Huse [svc Hsvc]].
  unfold initialize_memory_bank, bind at 1, get_self. cbn [fst].
  rewrite Huse, Hsvc. unfold try_except, bind.
  destruct (load_from_memory_bank_fails m svc w Huse Hsvc Hfail)
    as [w' [Hload [Hfile _]]].
  rewrite Hload. simpl. exists w'. now split.
Qed.

(** In every case the sync returns, and the preferences afterwards are
    the old ones updated with the merged facts under their numbers. *)
Lemma initialize_preferences (m : PreferenceManager) (w : world) :
  result_of initialize_memory_bank m w = Returns tt /\
  preferences (self_after initialize_memory_bank m w) =
  dict_update (preferences m) (synthetic_entries (merged_in m w)).
Proof.
  unfold result_of, self_after, merged_in.
  destruct (remote_enabled m) eqn:Hen.
  - destruct (retrieval_fails w) eqn:Hfail; simpl.
    + destruct (initialize_fails m w Hen Hfail) as [w' [-> _]]. now split.
    + destruct (initialize_ok m w Hen Hfail) as [w' [-> _]]. now split.
  - rewrite (initialize_disabled m w Hen). now split.
Qed.

End Sync.

(* ===================================================================== *)
(** * Sync is a merge by [dict.update] *)
(* ===================================================================== *)

Section SyncAdditivity.

(** C1, as the specification states it, is false: a local entry stored
    under [pref_1] is overwritten by the first merged remote fact. *)
Lemma sync_overwrites_local_auto_key :
  let m := manager_with [(T "pref_1", T "likes hats")] true in
  let w := world_with Missing (Results [Memory (Some (T "prefers wool"))] None) in
  let m' := self_after initialize_memory_bank m w in
  dict_get (T "pref_1") (preferences m) = Some (T "likes hats") /\
  dict_get (T "pref_1") (preferences m') = Some (T "prefers wool") /\
  dict_get (T "pref_1") (preferences m') <> Some (T "likes hats") /\
  get_preference_list (m', w) = (Returns [T "prefers wool"], (m', w)).
Proof.
  cbv zeta. repeat split; try reflexivity.
  vm_compute. discriminate.
Qed.

(** C1, amended: a sync keeps every entry whose key is not one of the
    synthetic keys [pref_1 .. pref_n] given to the [n] facts merged in this
    pass, and stores the i-th merged fact under [pref_i]; from the single
    entry [style -> casual] and one retrieved fact that contains "prefer",
    the result is that entry followed by the fact under [pref_1]. *)
Theorem sync_keeps_other_keys_and_adds_facts (m : PreferenceManager) (w : world) :
  let m' := self_after initialize_memory_bank m w in
  (forall k v,
      dict_get k (preferences m) = Some v ->
      (forall i, i < List.length (merged_in m w) -> k <> pref_key (S i)) ->
      dict_get k (preferences m') = Some v) /\
  (forall i fact,
      nth_error (merged_in m w) i = Some fact ->
      dict_get (pref_key (S i)) (preferences m') = Some fact) /\
  (forall fact,
      remote_enabled m = true ->
      preferences m = [(T "style", T "casual")] ->
      client_raises w = None ->
      retrieve_reply w = Results [Memory (Some fact)] None ->
      contains (T "prefer") (lower fact) = true ->
      preferences m' = [(T "style", T "casual"); (T "pref_1", fact)]).
Proof.
  intros m'. subst m'.
  destruct (initialize_preferences m w) as [_ Hprefs]. rewrite Hprefs.
  split; [|split].
  - intros k v Hget Hnot.
    rewrite dict_get_update by apply number_from_is_dict.
    assert (Hnone : dict_get k (synthetic_entries (merged_in m w)) = None).
    { apply dict_get_None_notin. unfold synthetic_entries.
      rewrite number_from_keys. intros Hin.
      apply in_map_iff in Hin as [j [Hj Hin]]. apply in_seq in Hin.
      destruct j as [|j]; [lia|]. apply (Hnot j); [lia|now symmetry]. }
    now rewrite Hnone.
  - intros i fact Hnth.
    rewrite dict_get_update by apply number_from_is_dict.
    unfold synthetic_entries.
    change (S i) with (1 + i). now rewrite number_from_get_in, Hnth.
  - intros fact Hen Hprefs0 Hclient Hreply Hprefer.
    assert (Hmerged : merged_in m w = [fact]).
    { unfold merged_in, retrieval_fails, accepted_in, accepted, looks_like_preference.
      rewrite Hen, Hclient, Hreply. simpl. now rewrite Hprefer. }
    rewrite Hmerged, Hprefs0. reflexivity.
Qed.

Lemma sync_keeps_other_keys_and_adds_facts_witness :
  let m := manager_with [(T "style", T "casual")] true in
  let w := world_with Missing (Results [Memory (Some (T "I prefer wool"))] None) in
  let m' := self_after initialize_memory_bank m w in
  dict_get (T "style") (preferences m') = Some (T "casual") /\
  dict_get (pref_key 1) (preferences m') = Some (T "I prefer wool") /\
  preferences m' = [(T "style", T "casual"); (T "pref_1", T "I prefer wool")].
Proof.
  intros m w m'.
  destruct (sync_keeps_other_keys_and_adds_facts m w) as [Hkeep [Hadd Hexample]].
  split; [|split].
  - apply Hkeep; [reflexivity|].
    intros i _ E. vm_compute in E. discriminate.
  - apply (Hadd 0). reflexivity.
  - apply Hexample; reflexivity.
Defined.

End SyncAdditivity.

(* ===================================================================== *)
(** * The merge pass: which facts, under which keys *)
(* ===================================================================== *)

Section FactExtractor.

Lemma looks_like_preference_iff (fact : text) :
  looks_like_preference fact = true <->
  exists keyword, In keyword KEYWORDS /\ contains keyword (lower fact) = true.
Proof.
  unfold looks_like_preference, KEYWORDS. split.
  - intros H. repeat (apply orb_true_iff in H as [H|H]);
      eexists; (split; [|exact H]); simpl; tauto.
  - intros [keyword [Hin H]]. simpl in Hin.
    destruct Hin as [<-|[<-|[<-|[<-|[]]]]]; rewrite H;
      repeat rewrite orb_true_r; reflexivity.
Qed.

(** C7: in a sync that meets no failure, the dictionary built by the loop
    of [load_from_memory_bank] holds exactly the readable facts that
    contain one of the four keywords in lower case, in retrieval order,
    the i-th of them under the key [pref_i]; and whatever has been
    accepted so far, the next accepted fact gets the number after the
    count. *)
Theorem merge_pass_numbers_accepted_facts :
  (forall fact,
      looks_like_preference fact = true <->
      exists keyword, In keyword KEYWORDS /\ contains keyword (lower fact) = true) /\
  (forall yielded,
      accepted yielded = filter looks_like_preference (facts_of yielded)) /\
  (forall fact facts0,
      looks_like_preference fact = true ->
      loop_body (Memory (Some fact)) (synthetic_entries facts0) =
      (Returns tt,
       synthetic_entries facts0 ++ [(pref_key (List.length facts0 + 1), fact)])) /\
  (forall fact loaded,
      looks_like_preference fact = false ->
      loop_body (Memory (Some fact)) loaded = (Returns tt, loaded)) /\
  (forall m w,
      remote_enabled m = true ->
      retrieval_fails w = false ->
      let loaded := synthetic_entries (accepted_in w) in
      result_of load_from_memory_bank m w = Returns loaded /\
      List.length loaded = List.length (accepted_in w) /\
      (forall i, dict_get (pref_key (S i)) loaded = nth_error (accepted_in w) i) /\
      (forall k, dict_get k loaded <> None ->
                 exists i, i < List.length (accepted_in w) /\ k = pref_key (S i))).
Proof.
  split; [exact looks_like_preference_iff|].
  split; [reflexivity|].
  split.
  { intros fact facts0 H. rewrite (loop_body_accepts _ _ H).
    unfold synthetic_entries. rewrite number_from_app. simpl.
    now rewrite Nat.add_comm. }
  split; [exact loop_body_rejects|].
  intros m w Hen Hok loaded. subst loaded.
  destruct (remote_enabled_inv _ Hen) as [Huse [svc Hsvc]].
  split; [|split; [|split]].
  - unfold result_of. rewrite (load_from_memory_bank_ok m svc w Huse Hsvc Hok).
    cbv zeta. destruct (synthetic_entries (accepted_in w)); reflexivity.
  - apply number_from_length.
  - intros i. unfold synthetic_entries. change (S i) with (1 + i).
    apply number_from_get_in.
  - intros k Hk.
    destruct (dict_get k (synthetic_entries (accepted_in w))) eqn:E; [|congruence].
    apply dict_get_In in E. apply (in_map fst) in E. simpl in E.
    change (map fst ?d) with (dict_keys d) in E.
    unfold synthetic_entries in E. rewrite number_from_keys in E.
    apply in_map_iff in E as [j [Hj Hin]]. apply in_seq in Hin.
    destruct j as [|j]; [lia|]. exists j. split; [lia|now symmetry].
Qed.

Lemma merge_pass_numbers_accepted_facts_witness :
  let m := manager_with [] true in
  let w := world_with Missing
             (Results [Memory (Some (T "Likes FORMAL shoes"));
                       Memory (Some (T "owns a bike"));
                       Unreadable AttributeError;
                       Memory None;
                       Memory (Some (T "casual on Fridays"))] None) in
  result_of load_from_memory_bank m w =
  Returns [(T "pref_1", T "Likes FORMAL shoes"); (T "pref_2", T "casual on Fridays")].
Proof.
  intros m w.
  apply (proj1 (proj2 (proj2 (proj2 (proj2 merge_pass_numbers_accepted_facts)))
                 m w eq_refl eq_refl)).
Defined.

End FactExtractor.

(* ===================================================================== *)
(** * Sync when the remote service fails *)
(* ===================================================================== *)

Section SyncFallback.

(** C4: a sync always returns; when the remote collaborator fails during
    the retrieval, the attribution afterwards is [local_file], the
    preferences and the backing file are what they were; and the
    attribution is [vertex_ai_memory_bank] after a sync only if the
    retrieval went through and merged at least one fact. *)
Theorem sync_falls_back_on_remote_failure (m : PreferenceManager) (w : world) :
  result_of initialize_memory_bank m w = Returns tt /\
  (remote_enabled m = true ->
   retrieval_fails w = true ->
   self_after initialize_memory_bank m w = set_preferences_loaded_from LOCAL_FILE m /\
   preferences_loaded_from (self_after initialize_memory_bank m w) = LOCAL_FILE /\
   preferences (self_after initialize_memory_bank m w) = preferences m /\
   backing_file (world_after initialize_memory_bank m w) = backing_file w) /\
  (remote_enabled m = true ->
   preferences_loaded_from (self_after initialize_memory_bank m w)
     = VERTEX_AI_MEMORY_BANK ->
   retrieval_fails w = false /\
   accepted_in w <> [] /\
   preferences (self_after initialize_memory_bank m w) =
     dict_update (preferences m) (synthetic_entries (accepted_in w))).
Proof.
  split; [apply initialize_preferences|]. split.
  - intros Hen Hfail. unfold self_after, world_after.
    destruct (initialize_fails m w Hen Hfail) as [w' [-> Hfile]].
    simpl. repeat split. exact Hfile.
  - intros Hen Hsrc. unfold self_after in *.
    destruct (retrieval_fails w) eqn:Hfail.
    + destruct (initialize_fails m w Hen Hfail) as [w' [E _]].
      rewrite E in Hsrc. simpl in Hsrc. vm_compute in Hsrc. discriminate.
    + destruct (initialize_ok m w Hen Hfail) as [w' [E _]].
      rewrite E in Hsrc |- *. simpl in Hsrc |- *.
      destruct (accepted_in w) eqn:Eacc.
      * simpl in Hsrc. vm_compute in Hsrc. discriminate.
      * repeat split. discriminate.
Qed.

Lemma sync_falls_back_on_remote_failure_witness :
  let m := manager_with [(T "style", T "casual")] true in
  let w := world_with (Holding (T "{}")) (RetrieveRaises ServiceError) in
  result_of initialize_memory_bank m w = Returns tt /\
  preferences_loaded_from (self_after initialize_memory_bank m w) = LOCAL_FILE /\
  preferences (self_after initialize_memory_bank m w) = [(T "style", T "casual")] /\
  backing_file (world_after initialize_memory_bank m w) = Holding (T "{}").
Proof.
  intros m w.
  destruct (sync_falls_back_on_remote_failure m w) as [Hret [Hfail _]].
  destruct (Hfail eq_refl eq_refl) as [_ [Hsrc [Hprefs Hfile]]].
  repeat split; assumption.
Defined.

(** The retrieval call is really made before it fails. *)
Lemma sync_failure_follows_a_retrieval :
  let m := manager_with [] true in
  let w := world_with Missing (Results [Memory (Some (T "formal"))] (Some ServiceError)) in
  remote_log (world_after initialize_memory_bank m w) =
  [Retrieve (agent_engine_name sample_service) (T "default_user") SEARCH_QUERY] /\
  preferences (self_after initialize_memory_bank m w) = [].
Proof. split; reflexivity. Qed.

End SyncFallback.

(* ===================================================================== *)
(** * The generic-preference filter *)
(* ===================================================================== *)

Section GenericFilter.

Lemma save_to_memory_bank_generic (key value : text) (st : PreferenceManager * world) :
  is_generic value = true ->
  _save_to_memory_bank key value st = (Returns tt, st).
Proof.
  unfold is_generic. intros H. destruct st as [m w].
  unfold _save_to_memory_bank, bind, get_self. cbn [fst].
  destruct (use_vertex_ai m); [|reflexivity].
  destruct (memory_service m); [|reflexivity].
  now rewrite H.
Qed.


(** The remote write never changes [self] or the file, and never raises. *)
Lemma save_to_memory_bank_frame (key value : text) (m : PreferenceManager) (w : world) :
  exists w',
    _save_to_memory_bank key value (m, w) = (Returns tt, (m, w')) /\
    backing_file w' = backing_file w /\ writable w' = writable w.
Proof.
  unfold _save_to_memory_bank, bind at 1, get_self. cbn [fst].
  destruct (use_vertex_ai m); [|now exists w].
  destruct (memory_service m) as [svc|]; [|now exists w].
  destruct (contains GENERIC_PHRASE (lower value)); [now exists w|].
  unfold try_except, bind, in_world, Client, memories_generate, bind, log_call.
  simpl. destruct (client_raises w); simpl; [now exists w|].
  destruct (generate_raises w); eexists; (split; [reflexivity|]); now split.
Qed.

Lemma after_save_event_loop (d : dict text) (w : world) :
  event_loop (after_save d w) = event_loop w.
Proof. unfold after_save. now destruct (writable w). Qed.

(** [add_preference], path by path. *)
Lemma add_preference_runs (key value : text) (m : PreferenceManager) (w : world) :
  let m' := set_preferences (dict_set (pref_id_for key m) value (preferences m)) m in
  let w' := after_save (preferences m') w in
  add_preference key value (m, w) =
  if use_vertex_ai m then
    match event_loop w with
    | LoopIdle => _save_to_memory_bank (pref_id_for key m) value (m', w')
    | LoopRunning pending =>
        (Returns tt,
         (m', with_event_loop
                (LoopRunning (pending ++ [(pref_id_for key m, value)])) w'))
    | NoCurrentLoop | LoopClosed => (Returns tt, (m', w'))
    end
  else (Returns tt, (m', w')).
Proof.
  intros m' w'. unfold add_preference, bind at 1, get_self. cbn [fst].
  unfold bind at 1. unfold bind at 1. unfold modify_self. cbn [fst snd].
  fold m'. rewrite save_runs. fold w'.
  destruct (use_vertex_ai m); [|reflexivity].
  pose proof (after_save_event_loop (preferences m') w) as Hloop. fold w' in Hloop.
  unfold try_except, bind, in_world, get_event_loop, create_task. cbn [fst snd].
  rewrite Hloop.
  destruct (event_loop w) as [| |pending|];
    cbn [is_running run_until_complete raise fst snd]; rewrite ?Hloop;
    try reflexivity.
  destruct (save_to_memory_bank_frame (pref_id_for key m) value m' w')
    as [w1 [-> _]]. reflexivity.
Qed.

Lemma add_preference_async_runs (key value : text) (m : PreferenceManager) (w : world) :
  let m' := set_preferences (dict_set (pref_id_for key m) value (preferences m)) m in
  let w' := after_save (preferences m') w in
  add_preference_async key value (m, w) =
  if use_vertex_ai m
  then _save_to_memory_bank (pref_id_for key m) value (m', w')
  else (Returns tt, (m', w')).
Proof.
  intros m' w'. unfold add_preference_async, bind at 1, get_self. cbn [fst].
  unfold bind at 1. unfold bind at 1. unfold modify_self. cbn [fst snd].
  fold m'. rewrite save_runs. fold w'. now destruct (use_vertex_ai m).
Qed.

(** C3: a value that contains "remember my clothing preferences" in any
    letter case never reaches the remote write: not through
    [_save_to_memory_bank], not through [add_preference] or
    [add_preference_async], not through the push script. *)
Theorem generic_preference_is_never_pushed (value : text) :
  contains (T "remember my clothing preferences") (lower value) = true ->
  (forall key st, _save_to_memory_bank key value st = (Returns tt, st)) /\
  (forall name uid w, push_preference name uid value w = (Returns tt, w)) /\
  (forall key m w,
      remote_log (world_after (add_preference key value) m w) = remote_log w) /\
  (forall key m w,
      remote_log (world_after (add_preference_async key value) m w) = remote_log w).
Proof.
  intros H. change (is_generic value = true) in H.
  split; [|split; [|split]].
  - intros key st. now apply save_to_memory_bank_generic.
  - intros name uid w. unfold push_preference.
    unfold is_generic in H. now rewrite H.
  - intros key m w. unfold world_after. rewrite add_preference_runs. cbv zeta.
    destruct (use_vertex_ai m); [destruct (event_loop w)|];
      rewrite ?save_to_memory_bank_generic by assumption;
      cbn [snd with_event_loop remote_log]; apply after_save_remote_log.
  - intros key m w. unfold world_after. rewrite add_preference_async_runs. cbv zeta.
    destruct (use_vertex_ai m).
    + rewrite save_to_memory_bank_generic by assumption.
      simpl. apply after_save_remote_log.
    + simpl. apply after_save_remote_log.
Qed.

Lemma generic_preference_is_never_pushed_witness :
  let value := T "Please REMEMBER my Clothing Preferences!" in
  let m := manager_with [] true in
  let w := world_with Missing (Results [] None) in
  _save_to_memory_bank (T "pref_1") value (m, w) = (Returns tt, (m, w)) /\
  push_preference (agent_engine_name sample_service) (T "default_user") value w
    = (Returns tt, w) /\
  remote_log (world_after (add_preference (T "pref_") value) m w) = [].
Proof.
  intros value m w.
  destruct (generic_preference_is_never_pushed value eq_refl) as [Hsave [Hpush [Hadd _]]].
  split; [apply Hsave|]. split; [apply Hpush|]. apply (Hadd (T "pref_") m w).
Defined.

(** The filter is what keeps the call away: the same paths do push a
    value that says something. *)
Lemma specific_preference_is_pushed :
  let value := T "prefers Celsius" in
  let m := manager_with [] true in
  let w := world_with Missing (Results [] None) in
  remote_log (world_after (add_preference (T "pref_") value) m w) =
  [Generate (agent_engine_name sample_service) (user_message value)
            (assistant_message value) (T "default_user")] /\
  remote_log (snd (push_preference (agent_engine_name sample_service)
                                   (T "default_user") value w)) =
  [Generate (agent_engine_name sample_service) (user_message value)
            (assistant_message value) (T "default_user")].
Proof. split; reflexivity. Qed.

End GenericFilter.

(* ===================================================================== *)
(** * Adding, listing, clearing *)
(* ===================================================================== *)

Section AddListClear.

Lemma pref_id_for_explicit (key : text) (m : PreferenceManager) :
  startswith key (T "pref_") = false -> pref_id_for key m = key.
Proof. unfold pref_id_for. now intros ->. Qed.

Lemma pref_id_for_sentinel (key : text) (m : PreferenceManager) :
  startswith key (T "pref_") = true ->
  pref_id_for key m = pref_key (List.length (preferences m) + 1).
Proof. unfold pref_id_for. now intros ->. Qed.

(** [add_preference] always returns, and stores the value under the key
    chosen by [pref_id_for]. *)
Lemma add_preference_effect (key value : text) (m : PreferenceManager) (w : world) :
  exists w',
    add_preference key value (m, w) =
    (Returns tt,
     (set_preferences (dict_set (pref_id_for key m) value (preferences m)) m, w')) /\
    backing_file w' =
    backing_file (after_save (dict_set (pref_id_for key m) value (preferences m)) w) /\
    writable w' = writable w.
Proof.
  rewrite add_preference_runs. cbv zeta.
  assert (Hw : forall d, writable (after_save d w) = writable w).
  { intros d. unfold after_save. now destruct (writable w) eqn:E. }
  destruct (use_vertex_ai m) eqn:Huse.
  - destruct (event_loop w) as [| |pending|].
    + eexists. split; [reflexivity|]. split; [reflexivity|apply Hw].
    + eexists. split; [reflexivity|]. split; [reflexivity|apply Hw].
    + eexists. split; [reflexivity|]. split; [reflexivity|apply Hw].
    + match goal with
      | |- context [_save_to_memory_bank ?k ?v (?m1, ?w1)] =>
          destruct (save_to_memory_bank_frame k v m1 w1) as [w' [E [Hfile Hwr]]]
      end.
      rewrite E. exists w'. split; [reflexivity|]. split; [exact Hfile|].
      rewrite Hwr. apply Hw.
  - eexists. split; [reflexivity|]. split; [reflexivity|apply Hw].
Qed.

Lemma add_preference_preferences (key value : text) (m : PreferenceManager) (w : world) :
  preferences (self_after (add_preference key value) m w) =
  dict_set (pref_id_for key m) value (preferences m).
Proof.
  unfold self_after.
  destruct (add_preference_effect key value m w) as [w' [-> _]]. reflexivity.
Qed.

(** An explicit key is used as it is, and adding it again overwrites. *)
Lemma add_explicit_key_overwrites (key v1 v2 : text) (m : PreferenceManager) (w w' : world) :
  startswith key (T "pref_") = false ->
  let m1 := self_after (add_preference key v1) m w in
  let m2 := self_after (add_preference key v2) m1 w' in
  dict_get key (preferences m1) = Some v1 /\
  dict_get key (preferences m2) = Some v2 /\
  dict_keys (preferences m2) = dict_keys (preferences m1).
Proof.
  intros Hkey m1 m2. subst m1 m2.
  rewrite !add_preference_preferences, !pref_id_for_explicit by assumption.
  rewrite !dict_get_set_same. repeat split.
  apply dict_set_keys_present. rewrite dict_get_set_same. discriminate.
Qed.

(** Where [pref_{n+1}] is not taken, two sentinel adds give two keys. *)
Lemma add_sentinel_twice_when_free (v1 v2 : text) (m : PreferenceManager) (w w' : world) :
  let n := List.length (preferences m) in
  dict_get (pref_key (n + 1)) (preferences m) = None ->
  let m1 := self_after (add_preference (T "pref_") v1) m w in
  let m2 := self_after (add_preference (T "pref_") v2) m1 w' in
  dict_get (pref_key (n + 1)) (preferences m2) = Some v1 /\
  dict_get (pref_key (n + 2)) (preferences m2) = Some v2 /\
  In v1 (dict_values (preferences m2)) /\
  In v2 (dict_values (preferences m2)).
Proof.
  intros n Hfree m1 m2.
  assert (H1 : preferences m1 = preferences m ++ [(pref_key (n + 1), v1)]).
  { subst m1. rewrite add_preference_preferences.
    rewrite pref_id_for_sentinel by reflexivity. now apply dict_set_fresh. }
  assert (H2 : preferences m2 = dict_set (pref_key (n + 2)) v2 (preferences m1)).
  { subst m2. rewrite add_preference_preferences.
    rewrite pref_id_for_sentinel by reflexivity. rewrite H1, length_app. simpl.
    fold n. do 2 f_equal. lia. }
  assert (G1 : dict_get (pref_key (n + 1)) (preferences m2) = Some v1).
  { rewrite H2, dict_get_set_other.
    - rewrite H1, <- (dict_set_fresh _ _ _ _ Hfree). apply dict_get_set_same.
    - intros E. apply pref_key_inj in E. lia. }
  assert (G2 : dict_get (pref_key (n + 2)) (preferences m2) = Some v2).
  { rewrite H2. apply dict_get_set_same. }
  repeat split; try assumption.
  - apply dict_get_In in G1. apply (in_map snd) in G1. exact G1.
  - apply dict_get_In in G2. apply (in_map snd) in G2. exact G2.
Qed.

(** C2 fails on the code: the number in the generated key is the size of
    the dictionary plus one, not a counter.  From a store loaded with the
    single entry [pref_2], two sentinel adds both generate [pref_2]: one
    auto-generated key exists afterwards, and the first value is gone. *)
Theorem add_sentinel_twice_reuses_the_key :
  let m := manager_with [(T "pref_2", T "likes hats")] false in
  let w := world_with (Holding (json_dumps [(T "pref_2", T "likes hats")])) (Results [] None) in
  let st1 := snd (add_preference (T "pref_") (T "v1") (m, w)) in
  let st2 := snd (add_preference (T "pref_") (T "v2") st1) in
  pref_id_for (T "pref_") m = T "pref_2" /\
  pref_id_for (T "pref_") (fst st1) = T "pref_2" /\
  preferences (fst st2) = [(T "pref_2", T "v2")] /\
  fst (get_preference_list st2) = Returns [T "v2"] /\
  ~ In (T "v1") (dict_values (preferences (fst st2))).
Proof.
  cbv zeta. repeat split; try reflexivity.
  vm_compute. intros [H|[]]. discriminate.
Qed.

Lemma clear_preferences_runs (m : PreferenceManager) (w : world) :
  clear_preferences (m, w) = (Returns tt, (set_preferences [] m, after_save [] w)).
Proof.
  unfold clear_preferences, bind, modify_self. cbn [fst snd].
  now rewrite save_runs.
Qed.

Lemma load_empty_document (w : world) :
  backing_file w = Holding (json_dumps []) ->
  _load_preferences_from_file w = (Returns (JObject []), w).
Proof.
  intros H. unfold _load_preferences_from_file, bind, path_exists, try_except, open_r.
  rewrite !H. reflexivity.
Qed.

(** C8: [clear_preferences] empties the in-memory set, writes the empty
    mapping to the backing file, and makes no remote call; from an empty
    store, adding [temp_preference] gives the list [prefers Celsius], and
    clearing gives the empty list and a file that loads as the empty
    mapping. *)
Theorem clear_empties_memory_and_file (m : PreferenceManager) (w : world) :
  result_of clear_preferences m w = Returns tt /\
  preferences (self_after clear_preferences m w) = [] /\
  world_after clear_preferences m w = after_save [] w /\
  remote_log (world_after clear_preferences m w) = remote_log w /\
  (writable w = true ->
   backing_file (world_after clear_preferences m w) = Holding (T "{}") /\
   fst (_load_preferences_from_file (world_after clear_preferences m w))
     = Returns (JObject [])) /\
  (preferences m = [] ->
   writable w = true ->
   let st1 := snd (add_preference (T "temp_preference") (T "prefers Celsius") (m, w)) in
   let st2 := snd (clear_preferences st1) in
   fst (get_preference_list st1) = Returns [T "prefers Celsius"] /\
   fst (get_preference_list st2) = Returns [] /\
   fst (_load_preferences_from_file (snd st2)) = Returns (json_of_prefs [])).
Proof.
  unfold result_of, self_after, world_after. rewrite clear_preferences_runs.
  cbn [fst snd]. repeat split.
  - apply after_save_remote_log.
  - now apply after_save_writable.
  - rewrite load_empty_document; [reflexivity|]. now apply after_save_writable.
  - destruct (add_preference_effect (T "temp_preference") (T "prefers Celsius") m w)
      as [w1 [E _]].
    rewrite E. cbn [snd]. unfold get_preference_list, bind, get_self. cbn.
    now rewrite H.
  - destruct (add_preference_effect (T "temp_preference") (T "prefers Celsius") m w)
      as [w1 [E _]].
    rewrite E. cbn [snd]. rewrite clear_preferences_runs. reflexivity.
  - destruct (add_preference_effect (T "temp_preference") (T "prefers Celsius") m w)
      as [w1 [E Hfile]].
    rewrite E. cbn [snd]. rewrite clear_preferences_runs. cbn [snd].
    rewrite load_empty_document; [reflexivity|].
    apply after_save_writable. destruct Hfile as [_ Hwr]. now rewrite Hwr.
Qed.

End AddListClear.

Section AddListClearWitness.

Lemma clear_empties_memory_and_file_witness :
  let m := manager_with [] true in
  let w := world_with Missing (Results [] None) in
  let st1 := snd (add_preference (T "temp_preference") (T "prefers Celsius") (m, w)) in
  let st2 := snd (clear_preferences st1) in
  fst (get_preference_list st1) = Returns [T "prefers Celsius"] /\
  fst (get_preference_list st2) = Returns [] /\
  fst (_load_preferences_from_file (snd st2)) = Returns (json_of_prefs []) /\
  backing_file (world_after clear_preferences m w) = Holding (T "{}").
Proof.
  intros m w.
  destruct (clear_empties_memory_and_file m w) as [_ [_ [_ [_ [Hfile Hscenario]]]]].
  destruct (Hscenario eq_refl eq_refl) as [H1 [H2 H3]].
  destruct (Hfile eq_refl) as [H4 _].
  repeat split; assumption.
Defined.

End AddListClearWitness.

(* ===================================================================== *)
(** * Loading the backing file *)
(* ===================================================================== *)

Section Load.

(** Absence, an [OSError] on opening, and text that is not JSON all give
    the empty mapping. *)
Lemma load_tolerates (w : world) :
  backing_file w = Missing \/
  backing_file w = Locked \/
  (exists content, backing_file w = Holding content /\
                   decoding w content = Failed Malformed) ->
  _load_preferences_from_file w = (Returns (JObject []), w).
Proof.
  unfold _load_preferences_from_file, bind, path_exists, try_except, open_r.
  intros [H|[H|[content [H Hbad]]]]; rewrite !H; simpl; try reflexivity.
  unfold json_load. now rewrite Hbad.
Qed.

Lemma load_returns_document (w : world) (content : text) (v : json) :
  backing_file w = Holding content ->
  decoding w content = Scanned v ->
  _load_preferences_from_file w = (Returns v, w).
Proof.
  unfold _load_preferences_from_file, bind, path_exists, try_except, open_r.
  intros H Hv. rewrite !H. simpl. unfold json_load. now rewrite Hv.
Qed.

(** The limits of the interpreter are not among the errors that
    [_load_preferences_from_file] catches. *)
Lemma load_meets_a_limit (w : world) (content : text) :
  backing_file w = Holding content ->
  (decoding w content = Failed TooDeep ->
   _load_preferences_from_file w = (Raises RecursionError, w)) /\
  (decoding w content = Failed TooManyDigits ->
   _load_preferences_from_file w = (Raises ValueError, w)).
Proof.
  unfold _load_preferences_from_file, bind, path_exists, try_except, open_r.
  intros H. split; intros Hv; rewrite !H; simpl; unfold json_load; now rewrite Hv.
Qed.

Lemma load_undecodable (w : world) :
  backing_file w = Garbled ->
  _load_preferences_from_file w = (Raises UnicodeDecodeError, w).
Proof.
  unfold _load_preferences_from_file, bind, path_exists, try_except, open_r.
  intros H. rewrite !H. reflexivity.
Qed.

(** C5 fails on the code: [except (json.JSONDecodeError, IOError)] does
    not cover the [UnicodeDecodeError] that [json.load] raises on a file
    whose bytes do not decode, so loading such a file raises. *)
Theorem load_raises_on_undecodable_file (w : world) :
  backing_file w = Garbled ->
  _load_preferences_from_file w = (Raises UnicodeDecodeError, w) /\
  except_JSONDecodeError_IOError UnicodeDecodeError = false.
Proof.
  intros H. split; [now apply load_undecodable|reflexivity].
Qed.

Lemma load_raises_on_undecodable_file_witness :
  _load_preferences_from_file (world_with Garbled (Results [] None)) =
  (Raises UnicodeDecodeError, world_with Garbled (Results [] None)).
Proof.
  apply (proj1 (load_raises_on_undecodable_file
                  (world_with Garbled (Results [] None)) eq_refl)).
Defined.

End Load.

(* ===================================================================== *)
(** * Lower case does not see the case of a letter *)
(* ===================================================================== *)

Section CaseFolding.
Open Scope N_scope.








End CaseFolding.

(* ===================================================================== *)
(** * Activity classification *)
(* ===================================================================== *)

Section Classification.






(** The docstring's example, the defaults of an event without summary
    and location, and two summaries with letters outside ASCII: the Kelvin
    sign lowers to [k], the capital I with a dot to [i] and a combining
    dot. *)
Lemma analyze_event_examples :
  formality (analyze_event {| ev_summary := Some (T "Client Meeting");
                              ev_location := Some (T "Office");
                              ev_start := None |}) = T "formal" /\
  location_type (analyze_event {| ev_summary := Some (T "Client Meeting");
                                  ev_location := Some (T "Office");
                                  ev_start := None |}) = T "office" /\
  analyze_event {| ev_summary := None; ev_location := None; ev_start := None |} =
  {| title := T "Event"; start_time := []; raw_location := [];
     location_type := T "indoor"; formality := T "casual";
     is_exercise := false; is_outdoor := false |} /\
  is_outdoor (analyze_event {| ev_summary := Some (T "Morning HIKE");
                               ev_location := Some (T "Gym");
                               ev_start := None |}) = true /\
  formality (analyze_event {| ev_summary := Some [87; 79; 82; 8490]%N;
                              ev_location := Some [80; 65; 82; 8490]%N;
                              ev_start := None |}) = T "business_casual" /\
  location_type (analyze_event {| ev_summary := Some [87; 79; 82; 8490]%N;
                                  ev_location := Some [80; 65; 82; 8490]%N;
                                  ev_start := None |}) = T "outdoor" /\
  is_outdoor (analyze_event {| ev_summary := Some [72; 304; 75; 69]%N;
                               ev_location := None;
                               ev_start := None |}) = false.
Proof. repeat split; reflexivity. Qed.

End Classification.

(* ===================================================================== *)
(** * [get_all_preferences] hands out a copy *)
(* ===================================================================== *)

Section DefensiveCopy.

Lemma store_length (a : addr) (d : dict text) (h : heap) :
  List.length (store a d h) = List.length h.
Proof.
  revert a; induction h as [|x h IH]; intros [|a]; simpl; try reflexivity.
  now rewrite IH.
Qed.

Lemma deref_store_other (a b : addr) (d : dict text) (h : heap) :
  a <> b -> deref a (store b d h) = deref a h.
Proof.
  unfold deref. revert a b; induction h as [|x h IH]; intros a b Hne.
  - now destruct b.
  - destruct b as [|b]; destruct a as [|a]; simpl; try reflexivity.
    + congruence.
    + apply IH. congruence.
Qed.

Lemma deref_store_same (a : addr) (d : dict text) (h : heap) :
  a < List.length h -> deref a (store a d h) = Some d.
Proof.
  unfold deref. revert a; induction h as [|x h IH]; intros a Hlt; simpl in Hlt.
  - lia.
  - destruct a as [|a]; simpl; [reflexivity|]. apply IH. lia.
Qed.

Lemma deref_mutate_other (a b : addr) (mu : mutation) (h : heap) :
  a <> b -> deref a (mutate b mu h) = deref a h.
Proof.
  intros Hne. unfold mutate. destruct (deref b h); [|reflexivity].
  now apply deref_store_other.
Qed.

Lemma deref_mutate_all_other (a b : addr) (mus : list mutation) (h : heap) :
  a <> b -> deref a (mutate_all b mus h) = deref a h.
Proof.
  intros Hne. unfold mutate_all. revert h.
  induction mus as [|mu mus IH]; intros h; simpl; [reflexivity|].
  rewrite IH. now apply deref_mutate_other.
Qed.

Lemma deref_alloc_old (a : addr) (d : dict text) (h : heap) :
  a < List.length h -> deref a (fst (alloc d h)) = deref a h.
Proof. intros H. unfold deref, alloc. simpl. now apply nth_error_app1. Qed.

Lemma deref_alloc_new (d : dict text) (h : heap) :
  deref (snd (alloc d h)) (fst (alloc d h)) = Some d.
Proof.
  unfold deref, alloc. simpl. rewrite nth_error_app2 by lia.
  now rewrite Nat.sub_diag.
Qed.

Lemma deref_in_heap (a : addr) (d : dict text) (h : heap) :
  deref a h = Some d -> a < List.length h.
Proof. unfold deref. intros H. apply nth_error_Some. congruence. Qed.

(** C10: the dictionary returned by [get_all_preferences] is a new object
    with the items of the store's own; whatever the caller does to it,
    the manager (its preference set, hence every later [list()] and every
    later save) is what it was; and the call itself touches neither the
    manager nor the world, the backing file included. *)
Theorem get_all_preferences_returns_a_copy
        (o : manager_object) (h : heap) (m : PreferenceManager) :
  snapshot o h = Some m ->
  exists h' r,
    get_all_preferences_obj o h = Some (h', r) /\
    r <> preferences_ref o /\
    deref r h' = Some (preferences m) /\
    (forall mus,
        snapshot o (mutate_all r mus h') = Some m /\
        get_preference_list_obj o (mutate_all r mus h')
          = Some (dict_values (preferences m))) /\
    (forall w,
        get_all_preferences (m, w) = (Returns (preferences m), (m, w)) /\
        get_preference_list (m, w) = (Returns (dict_values (preferences m)), (m, w))).
Proof.
  unfold snapshot, get_all_preferences_obj, get_preference_list_obj.
  destruct (deref (preferences_ref o) h) as [d|] eqn:Hd; [|discriminate].
  intros [= <-]. pose proof (deref_in_heap _ _ _ Hd) as Hlt.
  exists (fst (alloc d h)), (snd (alloc d h)).
  assert (Hne : preferences_ref o <> snd (alloc d h)) by (simpl; lia).
  split; [reflexivity|]. split; [congruence|].
  split; [apply deref_alloc_new|]. split.
  - intros mus. rewrite (deref_mutate_all_other _ _ mus _ Hne).
    rewrite deref_alloc_old by assumption. rewrite Hd. now split.
  - intros w. split; reflexivity.
Qed.

Lemma get_all_preferences_returns_a_copy_witness :
  let o := {| preferences_ref := 0;
              fields := manager_with [] false |} in
  let h := [[(T "style", T "casual")]] in
  exists h' r,
    get_all_preferences_obj o h = Some (h', r) /\
    r <> preferences_ref o /\
    get_preference_list_obj o
      (mutate_all r [SetItem (T "style") (T "formal"); Clear] h')
      = Some [T "casual"].
Proof.
  intros o h.
  destruct (get_all_preferences_returns_a_copy o h
              (manager_with [(T "style", T "casual")] false) eq_refl)
    as [h' [r [Hget [Hne [_ [Hmut _]]]]]].
  exists h', r. split; [exact Hget|]. split; [exact Hne|].
  apply (proj2 (Hmut [SetItem (T "style") (T "formal"); Clear])).
Defined.

(** Had the getter returned [self.preferences] itself, the same caller
    would have changed the store. *)
Lemma an_alias_would_expose_the_store :
  let o := {| preferences_ref := 0;
              fields := manager_with [] false |} in
  let h := [[(T "style", T "casual")]] in
  get_alias o h = Some (h, 0) /\
  get_preference_list_obj o (mutate_all 0 [SetItem (T "style") (T "formal")] h)
    = Some [T "formal"].
Proof. split; reflexivity. Qed.

End DefensiveCopy.

(* ===================================================================== *)
(** * The codec: escapes *)
(* ===================================================================== *)

Section Escapes.
Open Scope N_scope.

Lemma hex_value_hex_digit (d : N) : d < 16 -> hex_value (hex_digit d) = Some d.
Proof.
  intros H. unfold hex_digit, hex_value.
  destruct (d <? 10) eqn:E.
  - apply N.ltb_lt in E.
    assert ((48 <=? 48 + d) && (48 + d <=? 57) = true) as ->.
    { apply andb_true_iff. split; apply N.leb_le; lia. }
    f_equal. lia.
  - apply N.ltb_ge in E.
    assert ((48 <=? 87 + d) && (87 + d <=? 57) = false) as ->.
    { apply andb_false_iff. right. apply N.leb_gt. lia. }
    assert ((97 <=? 87 + d) && (87 + d <=? 102) = true) as ->.
    { apply andb_true_iff. split; apply N.leb_le; lia. }
    f_equal. lia.
Qed.

Lemma hex_value_bound (c d : N) : hex_value c = Some d -> d < 16.
Proof.
  unfold hex_value.
  destruct ((48 <=? c) && (c <=? 57)) eqn:E1.
  { apply andb_true_iff in E1 as [A B]. apply N.leb_le in A, B.
    intros [= <-]. lia. }
  destruct ((97 <=? c) && (c <=? 102)) eqn:E2.
  { apply andb_true_iff in E2 as [A B]. apply N.leb_le in A, B.
    intros [= <-]. lia. }
  destruct ((65 <=? c) && (c <=? 70)) eqn:E3; [|discriminate].
  apply andb_true_iff in E3 as [A B]. apply N.leb_le in A, B.
  intros [= <-]. lia.
Qed.

Lemma decode_hex4_bound (a b c d u : N) :
  decode_hex4 a b c d = Some u -> u < 65536.
Proof.
  unfold decode_hex4.
  destruct (hex_value a) as [x|] eqn:Ea; [|discriminate].
  destruct (hex_value b) as [y|] eqn:Eb; [|discriminate].
  destruct (hex_value c) as [z|] eqn:Ec; [|discriminate].
  destruct (hex_value d) as [t|] eqn:Ed; [|discriminate].
  apply hex_value_bound in Ea, Eb, Ec, Ed. intros [= <-]. lia.
Qed.

Lemma decode_hex4_hex4 (n : N) :
  n < 65536 ->
  decode_hex4 (hex_digit ((n / 4096) mod 16)) (hex_digit ((n / 256) mod 16))
              (hex_digit ((n / 16) mod 16)) (hex_digit (n mod 16)) = Some n.
Proof.
  intros H. unfold decode_hex4.
  rewrite !hex_value_hex_digit by (apply N.mod_lt; lia).
  f_equal.
  replace (n / 256) with (n / 16 / 16) by (now rewrite N.Div0.div_div).
  replace (n / 4096) with (n / 16 / 16 / 16) by (now rewrite !N.Div0.div_div).
  pose proof (N.div_mod n 16 ltac:(lia)) as E0.
  pose proof (N.div_mod (n / 16) 16 ltac:(lia)) as E1.
  pose proof (N.div_mod (n / 16 / 16) 16 ltac:(lia)) as E2.
  pose proof (N.div_mod (n / 16 / 16 / 16) 16 ltac:(lia)) as E3.
  pose proof (N.mod_lt n 16 ltac:(lia)) as L0.
  pose proof (N.mod_lt (n / 16) 16 ltac:(lia)) as L1.
  pose proof (N.mod_lt (n / 16 / 16) 16 ltac:(lia)) as L2.
  pose proof (N.mod_lt (n / 16 / 16 / 16) 16 ltac:(lia)) as L3.
  generalize dependent (n mod 16). generalize dependent ((n / 16) mod 16).
  generalize dependent ((n / 16 / 16) mod 16).
  generalize dependent ((n / 16 / 16 / 16) mod 16).
  generalize dependent (n / 16 / 16 / 16 / 16).
  generalize dependent (n / 16 / 16 / 16).
  generalize dependent (n / 16 / 16).
  generalize dependent (n / 16).
  intros. lia.
Qed.

(** Bits below the tenth: [lor] is addition. *)
Lemma lor_low (a b : N) : b < 1024 -> N.lor (a * 1024) b = a * 1024 + b.
Proof.
  intros H.
  assert (Hland : N.land (a * 1024) b = 0).
  { apply N.bits_inj. intros i. rewrite N.land_spec, N.bits_0.
    destruct (N.lt_ge_cases i 10) as [Hi|Hi].
    - replace (a * 1024) with (a * 2 ^ 10) by reflexivity.
      now rewrite N.mul_pow2_bits_low.
    - rewrite (N.bits_above_log2 b i), andb_false_r; [reflexivity|].
      destruct (N.eq_dec b 0) as [->|Hb]; [simpl; lia|].
      apply N.log2_lt_pow2; [lia|].
      apply N.lt_le_trans with (2 ^ 10); [exact H|].
      apply N.pow_le_mono_r; lia. }
  rewrite <- N.lxor_lor by exact Hland.
  symmetry. now apply N.add_nocarry_lxor.
Qed.

Lemma halves (c : N) :
  65536 <= c -> c < 1114112 ->
  high_half c = 55296 + (c - 65536) / 1024 /\
  low_half c = 56320 + (c - 65536) mod 1024.
Proof.
  intros Hlo Hhi. unfold high_half, low_half.
  change 1023 with (N.ones 10). rewrite !N.land_ones, N.shiftr_div_pow2.
  change (2 ^ 10) with 1024.
  assert (Hq : (c - 65536) / 1024 < 1024).
  { apply N.Div0.div_lt_upper_bound. lia. }
  rewrite (N.mod_small _ _ Hq).
  change 55296 with (54 * 1024). change 56320 with (55 * 1024).
  rewrite !lor_low; [split; reflexivity| |assumption].
  apply N.mod_lt. lia.
Qed.

Lemma halves_are_surrogates (c : N) :
  65536 <= c -> c < 1114112 ->
  is_high_surrogate (high_half c) = true /\
  is_low_surrogate (low_half c) = true /\
  high_half c < 65536 /\ low_half c < 65536 /\
  join_surrogates (high_half c) (low_half c) = c.
Proof.
  intros Hlo Hhi. destruct (halves c Hlo Hhi) as [-> ->].
  assert (Hq : (c - 65536) / 1024 < 1024).
  { apply N.Div0.div_lt_upper_bound. lia. }
  pose proof (N.mod_lt (c - 65536) 1024 ltac:(lia)) as Hr.
  pose proof (N.div_mod (c - 65536) 1024 ltac:(lia)) as Hdm.
  set (q := (c - 65536) / 1024) in *. set (r := (c - 65536) mod 1024) in *.
  clearbody q r.
  unfold is_high_surrogate, is_low_surrogate, join_surrogates.
  repeat split.
  - apply andb_true_iff. split; apply N.leb_le; lia.
  - apply andb_true_iff. split; apply N.leb_le; lia.
  - lia.
  - lia.
  - rewrite N.shiftl_mul_pow2. change (2 ^ 10) with 1024.
    replace (55296 + q - 55296) with q by lia.
    replace (56320 + r - 56320) with r by lia.
    rewrite lor_low by assumption. lia.
Qed.

Lemma join_surrogates_range (u u2 : N) :
  is_high_surrogate u = true -> is_low_surrogate u2 = true ->
  65536 <= join_surrogates u u2 /\ join_surrogates u u2 < 1114112.
Proof.
  unfold is_high_surrogate, is_low_surrogate, join_surrogates.
  intros Hu Hu2. apply andb_true_iff in Hu as [A B], Hu2 as [C D].
  apply N.leb_le in A, B, C, D.
  rewrite N.shiftl_mul_pow2. change (2 ^ 10) with 1024.
  rewrite lor_low by lia. lia.
Qed.

End Escapes.

(* ===================================================================== *)
(** * The codec: strings *)
(* ===================================================================== *)

Section Strings.
Open Scope N_scope.

Lemma scan_quote (r : text) : py_scanstring (QUOTE :: r) = Some ([], r).
Proof. reflexivity. Qed.

Lemma scan_raw (c : N) (r : text) :
  (c =? QUOTE) = false -> (c =? BACKSLASH) = false -> (c <? 32) = false ->
  py_scanstring (c :: r) = prepend c (py_scanstring r).
Proof. intros H1 H2 H3. cbn [py_scanstring]. now rewrite H1, H2, H3. Qed.

Lemma scan_simple (e ch : N) (r : text) :
  (e =? 117) = false -> unescape e = Some ch ->
  py_scanstring (BACKSLASH :: e :: r) = prepend ch (py_scanstring r).
Proof.
  intros H1 H2. cbn [py_scanstring].
  change (BACKSLASH =? QUOTE) with false. change (BACKSLASH =? BACKSLASH) with true.
  cbv iota. now rewrite H1, H2.
Qed.

Lemma scan_u (h1 h2 h3 h4 uni : N) (r2 : text) :
  decode_hex4 h1 h2 h3 h4 = Some uni ->
  is_high_surrogate uni = false ->
  py_scanstring (BACKSLASH :: 117 :: h1 :: h2 :: h3 :: h4 :: r2) =
  prepend uni (py_scanstring r2).
Proof.
  intros H1 H2. cbn [py_scanstring].
  change (BACKSLASH =? QUOTE) with false. change (BACKSLASH =? BACKSLASH) with true.
  change (117 =? 117) with true. cbv iota. now rewrite H1, H2.
Qed.

Lemma scan_u_pair (h1 h2 h3 h4 l1 l2 l3 l4 uni uni2 : N) (r4 : text) :
  decode_hex4 h1 h2 h3 h4 = Some uni ->
  is_high_surrogate uni = true ->
  decode_hex4 l1 l2 l3 l4 = Some uni2 ->
  is_low_surrogate uni2 = true ->
  py_scanstring (BACKSLASH :: 117 :: h1 :: h2 :: h3 :: h4 ::
                 BACKSLASH :: 117 :: l1 :: l2 :: l3 :: l4 :: r4) =
  prepend (join_surrogates uni uni2) (py_scanstring r4).
Proof.
  intros H1 H2 H3 H4. cbn [py_scanstring].
  change (BACKSLASH =? QUOTE) with false. change (BACKSLASH =? BACKSLASH) with true.
  change (117 =? 117) with true. cbv iota. rewrite H1, H2. cbn [andb].
  now rewrite H3, H4.
Qed.

(** A high surrogate that no escape of a low one follows stays alone. *)
Lemma scan_u_lone (h1 h2 h3 h4 uni : N) (r2 : text) :
  decode_hex4 h1 h2 h3 h4 = Some uni ->
  (forall c, opens_with_escape_of c r2 -> is_low_surrogate c = false) ->
  py_scanstring (BACKSLASH :: 117 :: h1 :: h2 :: h3 :: h4 :: r2) =
  prepend uni (py_scanstring r2).
Proof.
  intros H1 Hnext.
  destruct (is_high_surrogate uni) eqn:Hhigh; [|now apply scan_u].
  cbn [py_scanstring].
  change (BACKSLASH =? QUOTE) with false. change (BACKSLASH =? BACKSLASH) with true.
  change (117 =? 117) with true. cbv iota. rewrite H1, Hhigh.
  destruct r2 as [|b [|u r3]]; try reflexivity.
  destruct ((b =? BACKSLASH) && (u =? 117)) eqn:Hbu; [|reflexivity].
  apply andb_true_iff in Hbu as [Hb Hu]. apply N.eqb_eq in Hb, Hu. subst b u.
  cbn [py_scanstring].
  change (BACKSLASH =? QUOTE) with false. change (BACKSLASH =? BACKSLASH) with true.
  change (117 =? 117) with true. cbv iota.
  destruct r3 as [|l1 [|l2 [|l3 [|l4 r4]]]]; try reflexivity.
  destruct (decode_hex4 l1 l2 l3 l4) as [uni2|] eqn:H2; [|reflexivity].
  rewrite (Hnext uni2); [reflexivity|].
  now exists l1, l2, l3, l4, r4.
Qed.

Lemma scan_u_escape (uni : N) (r2 : text) :
  uni < 65536 ->
  (forall c, opens_with_escape_of c r2 -> is_low_surrogate c = false) ->
  py_scanstring (u_escape uni ++ r2) = prepend uni (py_scanstring r2).
Proof.
  intros Hb Hnext. unfold u_escape, hex4. cbn [app].
  apply scan_u_lone; [|assumption]. now apply decode_hex4_hex4.
Qed.

Lemma opens_with_u_escape (c uni : N) (r : text) :
  uni < 65536 -> opens_with_escape_of c (u_escape uni ++ r) -> c = uni.
Proof.
  intros Hb [h1 [h2 [h3 [h4 [r' [E D]]]]]].
  unfold u_escape, hex4 in E. cbn [app] in E.
  injection E as <- <- <- <- _.
  rewrite decode_hex4_hex4 in D by assumption. congruence.
Qed.

Lemma high_is_not_low (c : N) :
  is_high_surrogate c = true -> is_low_surrogate c = false.
Proof.
  unfold is_high_surrogate, is_low_surrogate. intros H.
  apply andb_true_iff in H as [A B]. apply N.leb_le in A, B.
  apply andb_false_iff. left. apply N.leb_gt. lia.
Qed.

(** What the escape of one character opens with. *)
Lemma escape_cp_opening (c x : N) (r : text) :
  c < 1114112 ->
  opens_with_escape_of x (escape_cp c ++ r) ->
  is_low_surrogate c = true \/ is_low_surrogate x = false.
Proof.
  intros Hc. unfold escape_cp.
  destruct (c =? QUOTE) eqn:E1.
  { intros [h1 [h2 [h3 [h4 [r' [E D]]]]]]. discriminate E. }
  destruct (c =? BACKSLASH) eqn:E2.
  { intros [h1 [h2 [h3 [h4 [r' [E D]]]]]]. discriminate E. }
  destruct ((32 <=? c) && (c <=? 126)) eqn:E3.
  { intros [h1 [h2 [h3 [h4 [r' [E D]]]]]]. cbn [app] in E.
    injection E as -> _. discriminate E2. }
  destruct (c =? 8) eqn:E4.
  { intros [h1 [h2 [h3 [h4 [r' [E D]]]]]]. discriminate E. }
  destruct (c =? 12) eqn:E5.
  { intros [h1 [h2 [h3 [h4 [r' [E D]]]]]]. discriminate E. }
  destruct (c =? 10) eqn:E6.
  { intros [h1 [h2 [h3 [h4 [r' [E D]]]]]]. discriminate E. }
  destruct (c =? 13) eqn:E7.
  { intros [h1 [h2 [h3 [h4 [r' [E D]]]]]]. discriminate E. }
  destruct (c =? 9) eqn:E8.
  { intros [h1 [h2 [h3 [h4 [r' [E D]]]]]]. discriminate E. }
  destruct (c <? 65536) eqn:E9.
  - apply N.ltb_lt in E9. intros H.
    apply opens_with_u_escape in H; [|assumption]. subst x.
    destruct (is_low_surrogate c); [now left|now right].
  - apply N.ltb_ge in E9. intros H. rewrite <- app_assoc in H.
    destruct (halves_are_surrogates c E9 Hc) as [Hh [_ [Hb _]]].
    apply opens_with_u_escape in H; [|assumption]. subst x.
    right. now apply high_is_not_low.
Qed.

Lemma good_text_cons (c : N) (s : text) :
  good_text (c :: s) = true ->
  c < 1114112 /\ good_text s = true /\
  (is_high_surrogate c = true ->
   match s with c2 :: _ => is_low_surrogate c2 = false | [] => True end).
Proof.
  unfold good_text. cbn [forallb pair_free]. intros H.
  apply andb_true_iff in H as [H1 H2].
  apply andb_true_iff in H1 as [Hc Hs].
  apply andb_true_iff in H2 as [Hp Hpf].
  apply N.ltb_lt in Hc. rewrite Hs, Hpf. repeat split; try assumption.
  intros Hhigh. destruct s as [|c2 s]; [exact I|].
  rewrite Hhigh in Hp. simpl in Hp. now apply negb_true_iff in Hp.
Qed.

(** After a high surrogate, the escaped rest of a good text does not open
    with the escape of a low one. *)
Lemma escaped_rest_opening (c : N) (s rest : text) :
  good_text (c :: s) = true ->
  is_high_surrogate c = true ->
  forall x, opens_with_escape_of x (flat_map escape_cp s ++ QUOTE :: rest) ->
            is_low_surrogate x = false.
Proof.
  intros Hgood Hhigh x Hopen.
  destruct (good_text_cons _ _ Hgood) as [_ [Hs Hnext]].
  specialize (Hnext Hhigh).
  destruct s as [|c2 s].
  - destruct Hopen as [h1 [h2 [h3 [h4 [r' [E D]]]]]]. discriminate E.
  - destruct (good_text_cons _ _ Hs) as [Hc2 _].
    cbn [flat_map] in Hopen. rewrite <- app_assoc in Hopen.
    destruct (escape_cp_opening c2 x _ Hc2 Hopen) as [H|H]; [congruence|exact H].
Qed.

(** Decoding undoes encoding. *)
Lemma scanstring_escaped (s : text) :
  good_text s = true ->
  forall rest,
    py_scanstring (flat_map escape_cp s ++ QUOTE :: rest) = Some (s, rest).
Proof.
  induction s as [|c s IH]; intros Hgood rest; [reflexivity|].
  destruct (good_text_cons _ _ Hgood) as [Hc [Hs _]].
  specialize (IH Hs rest).
  cbn [flat_map]. rewrite <- app_assoc.
  set (tail := flat_map escape_cp s ++ QUOTE :: rest) in *.
  assert (Hdone : prepend c (py_scanstring tail) = Some (c :: s, rest))
    by now rewrite IH.
  unfold escape_cp.
  destruct (c =? QUOTE) eqn:E1.
  { apply N.eqb_eq in E1. subst c. cbn [app]. now rewrite scan_simple with (ch := QUOTE). }
  destruct (c =? BACKSLASH) eqn:E2.
  { apply N.eqb_eq in E2. subst c. cbn [app].
    now rewrite scan_simple with (ch := BACKSLASH). }
  destruct ((32 <=? c) && (c <=? 126)) eqn:E3.
  { apply andb_true_iff in E3 as [A _]. apply N.leb_le in A.
    cbn [app]. rewrite scan_raw; try assumption. apply N.ltb_ge. exact A. }
  destruct (c =? 8) eqn:E4.
  { apply N.eqb_eq in E4. subst c. cbn [app]. now rewrite scan_simple with (ch := 8). }
  destruct (c =? 12) eqn:E5.
  { apply N.eqb_eq in E5. subst c. cbn [app]. now rewrite scan_simple with (ch := 12). }
  destruct (c =? 10) eqn:E6.
  { apply N.eqb_eq in E6. subst c. cbn [app]. now rewrite scan_simple with (ch := 10). }
  destruct (c =? 13) eqn:E7.
  { apply N.eqb_eq in E7. subst c. cbn [app]. now rewrite scan_simple with (ch := 13). }
  destruct (c =? 9) eqn:E8.
  { apply N.eqb_eq in E8. subst c. cbn [app]. now rewrite scan_simple with (ch := 9). }
  destruct (c <? 65536) eqn:E9.
  - apply N.ltb_lt in E9.
    destruct (is_high_surrogate c) eqn:Hhigh.
    + rewrite scan_u_escape; try assumption.
      now apply escaped_rest_opening with (c := c).
    + unfold u_escape, hex4. cbn [app].
      rewrite scan_u with (uni := c); try assumption.
      now apply decode_hex4_hex4.
  - apply N.ltb_ge in E9.
    destruct (halves_are_surrogates c E9 Hc) as [Hh [Hl [Hhb [Hlb Hjoin]]]].
    rewrite <- app_assoc. unfold u_escape, hex4. cbn [app].
    rewrite scan_u_pair with (uni := high_half c) (uni2 := low_half c);
      try assumption; try (now apply decode_hex4_hex4).
    now rewrite Hjoin.
Qed.

Lemma scanstring_encoded (s rest : text) :
  good_text s = true ->
  exists body,
    encode_basestring_ascii s ++ rest = QUOTE :: body /\
    py_scanstring body = Some (s, rest).
Proof.
  intros H. exists (flat_map escape_cp s ++ QUOTE :: rest). split.
  - unfold encode_basestring_ascii. cbn [app]. now rewrite <- app_assoc.
  - now apply scanstring_escaped.
Qed.

End Strings.

(* ===================================================================== *)
(** * The codec: a dumped dictionary loads back *)
(* ===================================================================== *)

Section DumpedObjects.
Open Scope N_scope.

Lemma json_dumps_shape (kv : text * text) (items : list (text * text)) :
  json_dumps (kv :: items) =
  LBRACE :: NEWLINE :: SPACE :: SPACE :: QUOTE :: item_body kv (more_items items []).
Proof.
  unfold json_dumps, newline_indent, dump_item, encode_basestring_ascii, item_body.
  cbn [app]. do 5 f_equal. rewrite <- !app_assoc. f_equal. cbn [app].
  do 4 f_equal. rewrite <- !app_assoc. f_equal. cbn [app]. f_equal.
  induction items as [|kv' items IH]; [reflexivity|].
  cbn [flat_map more_items]. unfold item_body.
  cbn [app]. do 5 f_equal. rewrite <- !app_assoc. f_equal. cbn [app].
  do 4 f_equal. rewrite <- !app_assoc. f_equal. cbn [app]. f_equal. exact IH.
Qed.

Lemma JSONObject_loop_eq (fuel : nat) (pairs : list (text * json)) (s : text) :
  JSONObject_loop (S fuel) pairs s =
  match py_scanstring s with
  | None => None
  | Some (key, s1) =>
    match skip_ws s1 with
    | c :: s2 =>
      if c =? COLON then
        match scan_once fuel (skip_ws s2) with
        | None => None
        | Some (value, s3) =>
          let pairs' := (pairs ++ [(key, value)])%list in
          match skip_ws s3 with
          | c' :: s4 =>
            if c' =? RBRACE then Some (JObject (dict_of_pairs pairs'), s4)
            else if c' =? COMMA then
              match skip_ws s4 with
              | q :: s5 =>
                  if q =? QUOTE then JSONObject_loop fuel pairs' s5 else None
              | [] => None
              end
            else None
          | [] => None
          end
        end
      else None
    | [] => None
    end
  end.
Proof. reflexivity. Qed.

Lemma scan_once_string (fuel : nat) (r : text) :
  scan_once (S fuel) (QUOTE :: r) =
  match py_scanstring r with
  | Some (x, rest) => Some (JString x, rest)
  | None => None
  end.
Proof. reflexivity. Qed.

(** One turn of the member loop on an item of a dump. *)
Lemma object_loop_item (fuel : nat) (pairs : list (text * json))
      (kv : text * text) (rest : text) :
  good_item kv ->
  JSONObject_loop (S (S fuel)) pairs (item_body kv rest) =
  match skip_ws rest with
  | c' :: s4 =>
    if c' =? RBRACE
    then Some (JObject (dict_of_pairs (pairs ++ [member kv])), s4)
    else if c' =? COMMA then
      match skip_ws s4 with
      | q :: s5 =>
          if q =? QUOTE
          then JSONObject_loop (S fuel) (pairs ++ [member kv]) s5
          else None
      | [] => None
      end
    else None
  | [] => None
  end.
Proof.
  intros [Hk Hv]. rewrite JSONObject_loop_eq. unfold item_body.
  rewrite (scanstring_escaped _ Hk).
  change (skip_ws (COLON :: ?r)) with (COLON :: r).
  change (COLON =? COLON) with true. cbv iota.
  change (skip_ws (SPACE :: QUOTE :: ?r)) with (QUOTE :: r).
  rewrite scan_once_string, (scanstring_escaped _ Hv). reflexivity.
Qed.

(** The member loop on the items of a dump. *)
Lemma object_loop_dumped (items : list (text * text)) :
  forall (kv : text * text) (pairs : list (text * json)) (fuel : nat) (rest : text),
    good_item kv -> Forall good_item items ->
    (List.length items + 2 <= fuel)%nat ->
    JSONObject_loop fuel pairs (item_body kv (more_items items rest)) =
    Some (JObject (dict_of_pairs (pairs ++ map member (kv :: items))), rest).
Proof.
  induction items as [|kv' items IH]; intros kv pairs fuel rest Hkv Hitems Hfuel.
  - destruct fuel as [|[|fuel]]; [simpl in Hfuel; lia|simpl in Hfuel; lia|].
    rewrite object_loop_item by assumption. reflexivity.
  - destruct fuel as [|[|fuel]]; [simpl in Hfuel; lia|simpl in Hfuel; lia|].
    rewrite object_loop_item by assumption.
    cbn [more_items].
    change (skip_ws (COMMA :: ?r)) with (COMMA :: r).
    change (COMMA =? RBRACE) with false. change (COMMA =? COMMA) with true.
    cbv iota.
    change (skip_ws (NEWLINE :: SPACE :: SPACE :: QUOTE :: ?r)) with (QUOTE :: r).
    change (QUOTE =? QUOTE) with true. cbv iota.
    inversion Hitems as [|? ? Hkv' Hitems']; subst.
    rewrite (IH kv' _ (S fuel) rest Hkv' Hitems').
    + cbn [map]. now rewrite <- app_assoc.
    + simpl in Hfuel |- *. lia.
Qed.

Lemma dict_of_members (d : dict text) :
  is_dict d -> dict_of_pairs (map member d) = map member d.
Proof.
  intros Hd. unfold dict_of_pairs.
  rewrite dict_update_fresh; [reflexivity|].
  unfold is_dict, dict_keys in *. cbn [app]. rewrite map_map. exact Hd.
Qed.

Lemma json_of_prefs_members (d : dict text) : json_of_prefs d = JObject (map member d).
Proof. reflexivity. Qed.

Lemma json_dumps_length (d : dict text) :
  (List.length d + 2 <= List.length (json_dumps d))%nat.
Proof.
  destruct d as [|kv items]; [simpl; lia|].
  rewrite json_dumps_shape. cbn [List.length].
  assert (H : forall rest, (List.length items <= List.length (more_items items rest))%nat).
  { induction items as [|kv' items IH]; intros rest; [simpl; lia|].
    cbn [more_items List.length]. unfold item_body.
    rewrite length_app. cbn [List.length]. rewrite length_app. cbn [List.length].
    specialize (IH rest). lia. }
  unfold item_body. rewrite length_app. cbn [List.length].
  rewrite length_app. cbn [List.length]. specialize (H []). lia.
Qed.

(** [json.loads(json.dumps(d, indent=2))] is [d]. *)
Lemma json_loads_dumps (d : dict text) :
  is_dict d -> Forall good_item d ->
  json_loads (json_dumps d) = Some (json_of_prefs d).
Proof.
  intros Hd Hgood. destruct d as [|kv items]; [reflexivity|].
  pose proof (json_dumps_length (kv :: items)) as Hlen.
  unfold json_loads. rewrite json_dumps_shape in *.
  set (body := item_body kv (more_items items [])) in *.
  set (fuel := List.length (LBRACE :: NEWLINE :: SPACE :: SPACE :: QUOTE :: body)) in *.
  change (LBRACE =? BOM) with false. cbv iota.
  assert (Hstart : scan_once (S fuel)
                     (skip_ws (LBRACE :: NEWLINE :: SPACE :: SPACE :: QUOTE :: body))
                   = JSONObject_loop fuel [] body) by reflexivity.
  rewrite Hstart. subst body.
  inversion Hgood as [|? ? Hkv Hitems]; subst.
  rewrite (object_loop_dumped items kv [] fuel [] Hkv Hitems).
  - cbn [skip_ws app]. rewrite dict_of_members by assumption. reflexivity.
  - simpl in Hlen. lia.
Qed.

End DumpedObjects.

(* ===================================================================== *)
(** * The codec: what the decoder returns *)
(* ===================================================================== *)

Section DecoderInvariant.
Open Scope N_scope.

Lemma prepend_Some (c : N) (o : option (text * text)) (x r : text) :
  prepend c o = Some (x, r) -> exists x', o = Some (x', r) /\ x = c :: x'.
Proof.
  destruct o as [[x' r']|]; simpl; [|discriminate].
  intros [= <- <-]. now exists x'.
Qed.

Lemma good_text_cons_intro (c : N) (x : text) :
  c < 1114112 -> good_text x = true ->
  (is_high_surrogate c = true ->
   forall c2 x', x = c2 :: x' -> is_low_surrogate c2 = false) ->
  good_text (c :: x) = true.
Proof.
  unfold good_text. intros Hc Hx Hpair. cbn [forallb pair_free].
  apply andb_true_iff in Hx as [Hb Hp]. rewrite Hb, Hp.
  apply N.ltb_lt in Hc. rewrite Hc. simpl. rewrite andb_true_r.
  destruct x as [|c2 x']; [reflexivity|].
  destruct (is_high_surrogate c) eqn:Hh; [|reflexivity].
  now rewrite (Hpair eq_refl c2 x' eq_refl).
Qed.

Lemma scalar_facts (c : N) :
  is_scalar c = true ->
  c < 1114112 /\ is_high_surrogate c = false /\ is_low_surrogate c = false.
Proof.
  unfold is_scalar, is_high_surrogate, is_low_surrogate. intros H.
  apply andb_true_iff in H as [Hc Hs]. apply N.ltb_lt in Hc.
  apply negb_true_iff in Hs. apply andb_false_iff in Hs.
  split; [assumption|].
  destruct Hs as [Hs|Hs]; apply N.leb_gt in Hs.
  - split; apply andb_false_iff; left; apply N.leb_gt; lia.
  - split; apply andb_false_iff; right; apply N.leb_gt; lia.
Qed.

Lemma small_facts (c : N) :
  c < 55296 ->
  c < 1114112 /\ is_high_surrogate c = false /\ is_low_surrogate c = false.
Proof.
  unfold is_high_surrogate, is_low_surrogate. intros H.
  split; [lia|]. split; apply andb_false_iff; left; apply N.leb_gt; lia.
Qed.

Lemma unescape_small (e ch : N) : unescape e = Some ch -> ch < 128.
Proof.
  unfold unescape, QUOTE, BACKSLASH, SLASH.
  repeat match goal with
         | |- context [if ?b then _ else _] => destruct b
         end; intros [= <-]; lia.
Qed.

Lemma joined_facts (u u2 : N) :
  is_high_surrogate u = true -> is_low_surrogate u2 = true ->
  join_surrogates u u2 < 1114112 /\
  is_high_surrogate (join_surrogates u u2) = false /\
  is_low_surrogate (join_surrogates u u2) = false.
Proof.
  intros Hu Hu2. destruct (join_surrogates_range u u2 Hu Hu2) as [A B].
  unfold is_high_surrogate, is_low_surrogate.
  split; [assumption|].
  split; apply andb_false_iff; right; apply N.leb_gt; lia.
Qed.

(** What [py_scanstring] returns on decoded text: a good string, decoded
    text after it, and a low surrogate in front only where the text opens
    with the escape of one. *)
Lemma scanstring_good (n : nat) :
  forall s,
    (List.length s <= n)%nat -> scalar_text s ->
    forall x r,
      py_scanstring s = Some (x, r) ->
      good_text x = true /\ scalar_text r /\
      (forall c x', x = c :: x' -> is_low_surrogate c = true ->
                    opens_with_escape_of c s).
Proof.
  unfold scalar_text.
  induction n as [|n IH]; intros s Hlen Hs x r Hscan.
  { destruct s; [discriminate|simpl in Hlen; lia]. }
  destruct s as [|c s1]; [discriminate|].
  cbn [py_scanstring] in Hscan.
  apply Forall_cons_iff in Hs as [Hc Hs1].
  simpl in Hlen.
  destruct (c =? QUOTE) eqn:Eq.
  { injection Hscan as <- <-. repeat split; [assumption|]. intros; discriminate. }
  destruct (c =? BACKSLASH) eqn:Eb.
  - apply N.eqb_eq in Eb. subst c.
    destruct s1 as [|e s2]; [discriminate|].
    apply Forall_cons_iff in Hs1 as [He Hs2]. simpl in Hlen.
    destruct (e =? 117) eqn:Eu.
    + apply N.eqb_eq in Eu. subst e.
      destruct s2 as [|h1 [|h2 [|h3 [|h4 r2]]]]; try discriminate.
      assert (Hr2 : scalar_text r2).
      { do 4 apply Forall_inv_tail in Hs2. exact Hs2. }
      simpl in Hlen.
      destruct (decode_hex4 h1 h2 h3 h4) as [uni|] eqn:Hd; [|discriminate].
      pose proof (decode_hex4_bound _ _ _ _ _ Hd) as Huni.
      assert (Hlone :
                forall x', py_scanstring r2 = Some (x', r) ->
                (is_high_surrogate uni = true ->
                 forall c2, opens_with_escape_of c2 r2 -> is_low_surrogate c2 = false) ->
                good_text (uni :: x') = true /\ scalar_text r /\
                (forall c0 x0, uni :: x' = c0 :: x0 -> is_low_surrogate c0 = true ->
                   opens_with_escape_of c0
                     (BACKSLASH :: 117 :: h1 :: h2 :: h3 :: h4 :: r2))).
      { intros x' Hx' Hnext.
        destruct (IH r2 ltac:(lia) Hr2 x' r Hx') as [Hgood [Hr Hhead]].
        split; [|split; [exact Hr|]].
        - apply good_text_cons_intro; [lia|assumption|].
          intros Hhigh c2 x'' -> .
          destruct (is_low_surrogate c2) eqn:Hlow; [|reflexivity].
          pose proof (Hnext Hhigh c2 (Hhead c2 x'' eq_refl Hlow)). congruence.
        - intros c0 x0 [= <- <-] Hlow.
          now exists h1, h2, h3, h4, r2. }
      destruct (is_high_surrogate uni) eqn:Hhigh.
      * destruct r2 as [|b [|u r3]].
        -- apply prepend_Some in Hscan as [x' [Hx' ->]].
           apply Hlone; [assumption|].
           intros _ c2 [? [? [? [? [? [E _]]]]]]. discriminate E.
        -- apply prepend_Some in Hscan as [x' [Hx' ->]].
           apply Hlone; [assumption|].
           intros _ c2 [? [? [? [? [? [E _]]]]]]. discriminate E.
        -- destruct ((b =? BACKSLASH) && (u =? 117)) eqn:Ebu.
           ++ apply andb_true_iff in Ebu as [B U].
              apply N.eqb_eq in B, U. subst b u.
              destruct r3 as [|l1 [|l2 [|l3 [|l4 r4]]]]; try discriminate.
              destruct (decode_hex4 l1 l2 l3 l4) as [uni2|] eqn:Hd2; [|discriminate].
              destruct (is_low_surrogate uni2) eqn:Hlow2.
              ** apply prepend_Some in Hscan as [x' [Hx' ->]].
                 assert (Hr4 : scalar_text r4).
                 { do 6 apply Forall_inv_tail in Hr2. exact Hr2. }
                 simpl in Hlen.
                 destruct (IH r4 ltac:(lia) Hr4 x' r Hx') as [Hgood [Hr _]].
                 destruct (joined_facts uni uni2 Hhigh Hlow2) as [J1 [J2 J3]].
                 split; [|split; [exact Hr|]].
                 --- apply good_text_cons_intro; [assumption|assumption|].
                     intros Hh. congruence.
                 --- intros c0 x0 [= <- <-] Hlow. congruence.
              ** apply prepend_Some in Hscan as [x' [Hx' ->]].
                 apply Hlone; [assumption|].
                 intros _ c2 [k1 [k2 [k3 [k4 [r' [E D]]]]]].
                 injection E as <- <- <- <- _. congruence.
           ++ apply prepend_Some in Hscan as [x' [Hx' ->]].
              apply Hlone; [assumption|].
              intros _ c2 [k1 [k2 [k3 [k4 [r' [E D]]]]]].
              injection E as -> -> _. discriminate Ebu.
      * apply prepend_Some in Hscan as [x' [Hx' ->]].
        apply Hlone; [assumption|]. discriminate.
    + destruct (unescape e) as [ch|] eqn:Hun; [|discriminate].
      apply prepend_Some in Hscan as [x' [Hx' ->]].
      destruct (IH s2 ltac:(lia) Hs2 x' r Hx') as [Hgood [Hr _]].
      apply unescape_small in Hun.
      destruct (small_facts ch ltac:(lia)) as [S1 [S2 S3]].
      split; [|split; [exact Hr|]].
      * apply good_text_cons_intro; [assumption|assumption|]. congruence.
      * intros c0 x0 [= <- <-] Hlow. congruence.
  - destruct (c <? 32); [discriminate|].
    apply prepend_Some in Hscan as [x' [Hx' ->]].
    destruct (IH s1 ltac:(lia) Hs1 x' r Hx') as [Hgood [Hr _]].
    destruct (scalar_facts c Hc) as [S1 [S2 S3]].
    split; [|split; [exact Hr|]].
    + apply good_text_cons_intro; [assumption|assumption|]. congruence.
    + intros c0 x0 [= <- <-] Hlow. congruence.
Qed.

Lemma scanstring_decoded (s x r : text) :
  scalar_text s -> py_scanstring s = Some (x, r) ->
  good_text x = true /\ scalar_text r.
Proof.
  intros Hs Hscan.
  destruct (scanstring_good (List.length s) s (le_n _) Hs x r Hscan) as [A [B _]].
  now split.
Qed.

End DecoderInvariant.

Section ParserInvariant.
Open Scope N_scope.

Lemma skip_ws_scalar (s : text) : scalar_text s -> scalar_text (skip_ws s).
Proof.
  unfold scalar_text. induction s as [|c s IH]; intros H; [assumption|].
  cbn [skip_ws]. destruct (is_ws c); [|assumption].
  apply IH. now apply Forall_inv_tail in H.
Qed.

Lemma skipn_scalar (n : nat) (s : text) : scalar_text s -> scalar_text (skipn n s).
Proof.
  unfold scalar_text. revert s; induction n as [|n IH]; intros s H; [assumption|].
  destruct s as [|c s]; [assumption|]. cbn [skipn].
  apply IH. now apply Forall_inv_tail in H.
Qed.

Lemma span_digits_scalar (s : text) :
  scalar_text s -> scalar_text (snd (span_digits s)).
Proof.
  unfold scalar_text. induction s as [|c s IH]; intros H; [assumption|].
  cbn [span_digits]. destruct (is_digit c); [|assumption].
  apply Forall_inv_tail in H. specialize (IH H).
  destruct (span_digits s). exact IH.
Qed.

Lemma match_int_scalar (s i r : text) :
  scalar_text s -> match_int s = Some (i, r) -> scalar_text r.
Proof.
  unfold match_int. intros Hs.
  assert (Hsign : forall sign s1,
             match s with
             | c :: r0 => if c =? 45 then ([c], r0) else ([], s)
             | [] => ([], s)
             end = (sign, s1) -> scalar_text s1).
  { intros sign s1. destruct s as [|c r0]; [now intros [= _ <-]|].
    destruct (c =? 45); intros [= _ <-]; [|assumption].
    now apply Forall_inv_tail in Hs. }
  destruct (match s with
            | c :: r0 => if c =? 45 then ([c], r0) else ([], s)
            | [] => ([], s)
            end) as [sign s1] eqn:E.
  specialize (Hsign sign s1 eq_refl).
  destruct s1 as [|c r1]; [discriminate|].
  pose proof (Forall_inv_tail Hsign) as Hr1.
  destruct (c =? 48); [now intros [= _ <-]|].
  destruct (is_digit c); [|discriminate].
  pose proof (span_digits_scalar r1 Hr1) as Hsp.
  destruct (span_digits r1) as [ds rest]. now intros [= _ <-].
Qed.

Lemma match_frac_scalar (s : text) :
  scalar_text s -> scalar_text (snd (match_frac s)).
Proof.
  unfold match_frac. intros Hs. destruct s as [|c r]; [assumption|].
  destruct (c =? 46); [|assumption].
  pose proof (span_digits_scalar r (Forall_inv_tail Hs)) as Hsp.
  destruct (span_digits r) as [[|d ds] rest]; [assumption|exact Hsp].
Qed.

Lemma match_exp_scalar (s : text) :
  scalar_text s -> scalar_text (snd (match_exp s)).
Proof.
  unfold match_exp. intros Hs. destruct s as [|c r]; [assumption|].
  destruct ((c =? 101) || (c =? 69)); [|assumption].
  pose proof (Forall_inv_tail Hs) as Hr.
  assert (Hr1 : scalar_text
                  (snd match r with
                       | g :: r' => if (g =? 45) || (g =? 43) then ([g], r') else ([], r)
                       | [] => ([], r)
                       end)).
  { destruct r as [|g r']; [assumption|].
    destruct ((g =? 45) || (g =? 43)); [|assumption].
    now apply Forall_inv_tail in Hr. }
  destruct (match r with
            | g :: r' => if (g =? 45) || (g =? 43) then ([g], r') else ([], r)
            | [] => ([], r)
            end) as [sign r1].
  cbn [snd] in Hr1.
  pose proof (span_digits_scalar r1 Hr1) as Hsp.
  destruct (span_digits r1) as [[|d ds] rest]; [assumption|exact Hsp].
Qed.

Lemma match_number_scalar (s lexeme r : text) :
  scalar_text s -> match_number s = Some (lexeme, r) -> scalar_text r.
Proof.
  unfold match_number. intros Hs.
  destruct (match_int s) as [[i s1]|] eqn:Ei; [|discriminate].
  pose proof (match_int_scalar s i s1 Hs Ei) as H1.
  pose proof (match_frac_scalar s1 H1) as H2.
  destruct (match_frac s1) as [f s2]. cbn [snd] in H2.
  pose proof (match_exp_scalar s2 H2) as H3.
  destruct (match_exp s2) as [e s3]. cbn [snd] in H3.
  now intros [= _ <-].
Qed.

Lemma literal_ok (word : text) (v : json) (s : text) :
  scalar_text s -> good_json v -> decoder_result_ok (literal word v s).
Proof.
  intros Hs Hv. unfold literal. destruct (startswith s word); [|exact I].
  split; [assumption|]. now apply skipn_scalar.
Qed.

Lemma first_of_ok (a b : option (json * text)) :
  decoder_result_ok a -> decoder_result_ok b -> decoder_result_ok (first_of a b).
Proof. destruct a; simpl; tauto. Qed.

Lemma scan_atom_ok (s : text) : scalar_text s -> decoder_result_ok (scan_atom s).
Proof.
  intros Hs. unfold scan_atom.
  repeat (apply first_of_ok; [try (apply literal_ok; [assumption|exact I])|]);
    try (apply literal_ok; [assumption|exact I]).
  destruct (match_number s) as [[lexeme rest]|] eqn:E; [|exact I].
  split; [exact I|]. now apply match_number_scalar in E.
Qed.

Lemma dict_set_Forall (P : text * json -> Prop) (k : text) (v : json) (d : dict json) :
  Forall P d -> P (k, v) -> Forall P (dict_set k v d).
Proof.
  intros Hd Hkv. induction d as [|[k' v'] d IH]; cbn [dict_set].
  - now constructor.
  - apply Forall_cons_iff in Hd as [Hhead Htail].
    destruct (text_eqb k' k) eqn:E.
    + apply text_eqb_eq in E. subst k'. now constructor.
    + constructor; [assumption|now apply IH].
Qed.

Lemma dict_of_pairs_Forall (P : text * json -> Prop) (pairs : list (text * json)) :
  Forall P pairs -> Forall P (dict_of_pairs pairs).
Proof.
  unfold dict_of_pairs, dict_update.
  assert (H : forall d, Forall P d -> Forall P pairs ->
                        Forall P (fold_left (fun acc kv => dict_set (fst kv) (snd kv) acc)
                                            pairs d)).
  { induction pairs as [|[k v] pairs IH]; intros d Hd Hp; [assumption|].
    apply Forall_cons_iff in Hp as [Hkv Hp]. cbn [fold_left fst snd].
    apply IH; [|assumption]. now apply dict_set_Forall. }
  intros Hp. apply H; [constructor|assumption].
Qed.

Lemma good_json_value (v : json) : good_json v -> good_value v.
Proof. destruct v; simpl; tauto. Qed.

Lemma scan_once_eq (fuel : nat) (s : text) :
  scan_once (S fuel) s =
  match s with
  | [] => None
  | c :: r =>
    if c =? QUOTE then
      match py_scanstring r with
      | Some (x, rest) => Some (JString x, rest)
      | None => None
      end
    else if c =? LBRACE then
      match skip_ws r with
      | c1 :: r1 =>
          if c1 =? RBRACE then Some (JObject [], r1)
          else if c1 =? QUOTE then JSONObject_loop fuel [] r1
          else None
      | [] => None
      end
    else if c =? LBRACKET then
      match skip_ws r with
      | c1 :: r1 =>
          if c1 =? RBRACKET then Some (JArray [], r1)
          else JSONArray_loop fuel [] (c1 :: r1)
      | [] => None
      end
    else scan_atom s
  end.
Proof. reflexivity. Qed.

Lemma JSONArray_loop_eq (fuel : nat) (values : list json) (s : text) :
  JSONArray_loop (S fuel) values s =
  match scan_once fuel s with
  | None => None
  | Some (value, s1) =>
    let values' := (values ++ [value])%list in
    match skip_ws s1 with
    | c :: s2 =>
      if c =? RBRACKET then Some (JArray values', s2)
      else if c =? COMMA then JSONArray_loop fuel values' (skip_ws s2)
      else None
    | [] => None
    end
  end.
Proof. reflexivity. Qed.

(** Whatever the decoder returns on decoded text is good, and what is
    left of the text is decoded text. *)
Lemma decoder_ok (fuel : nat) :
  (forall s, scalar_text s -> decoder_result_ok (scan_once fuel s)) /\
  (forall pairs s, scalar_text s -> Forall good_pair pairs ->
                   decoder_result_ok (JSONObject_loop fuel pairs s)) /\
  (forall values s, scalar_text s ->
                    decoder_result_ok (JSONArray_loop fuel values s)).
Proof.
  induction fuel as [|fuel [IHonce [IHobj IHarr]]].
  { repeat split; intros; exact I. }
  split; [|split].
  - intros s Hs. rewrite scan_once_eq.
    destruct s as [|c r]; [exact I|].
    pose proof (Forall_inv_tail Hs : scalar_text r) as Hr.
    destruct (c =? QUOTE).
    { destruct (py_scanstring r) as [[x rest]|] eqn:E; [|exact I].
      destruct (scanstring_decoded r x rest Hr E). now split. }
    destruct (c =? LBRACE).
    { pose proof (skip_ws_scalar r Hr) as Hsk.
      destruct (skip_ws r) as [|c1 r1]; [exact I|].
      pose proof (Forall_inv_tail Hsk : scalar_text r1) as Hr1.
      destruct (c1 =? RBRACE).
      { split; [split; constructor|assumption]. }
      destruct (c1 =? QUOTE); [|exact I].
      apply IHobj; [assumption|constructor]. }
    destruct (c =? LBRACKET).
    { pose proof (skip_ws_scalar r Hr) as Hsk.
      destruct (skip_ws r) as [|c1 r1]; [exact I|].
      destruct (c1 =? RBRACKET).
      { split; [exact I|]. exact (Forall_inv_tail Hsk). }
      now apply IHarr. }
    now apply scan_atom_ok.
  - intros pairs s Hs Hpairs. rewrite JSONObject_loop_eq.
    destruct (py_scanstring s) as [[key s1]|] eqn:Ekey; [|exact I].
    destruct (scanstring_decoded s key s1 Hs Ekey) as [Hkey Hs1].
    pose proof (skip_ws_scalar s1 Hs1) as Hsk1.
    destruct (skip_ws s1) as [|c s2]; [exact I|].
    pose proof (Forall_inv_tail Hsk1 : scalar_text s2) as Hs2.
    destruct (c =? COLON); [|exact I].
    pose proof (IHonce (skip_ws s2) (skip_ws_scalar s2 Hs2)) as Hval.
    destruct (scan_once fuel (skip_ws s2)) as [[value s3]|]; [|exact I].
    destruct Hval as [Hvalue Hs3]. cbv zeta.
    assert (Hpairs' : Forall good_pair (pairs ++ [(key, value)])).
    { apply Forall_app. split; [assumption|].
      constructor; [|constructor]. split; [assumption|].
      now apply good_json_value. }
    pose proof (skip_ws_scalar s3 Hs3) as Hsk3.
    destruct (skip_ws s3) as [|c' s4]; [exact I|].
    pose proof (Forall_inv_tail Hsk3 : scalar_text s4) as Hs4.
    destruct (c' =? RBRACE).
    { split; [|assumption]. split.
      - now apply dict_of_pairs_Forall.
      - apply dict_of_pairs_is_dict. }
    destruct (c' =? COMMA); [|exact I].
    pose proof (skip_ws_scalar s4 Hs4) as Hsk4.
    destruct (skip_ws s4) as [|q s5]; [exact I|].
    destruct (q =? QUOTE); [|exact I].
    apply IHobj; [exact (Forall_inv_tail Hsk4)|assumption].
  - intros values s Hs. rewrite JSONArray_loop_eq.
    pose proof (IHonce s Hs) as Hval.
    destruct (scan_once fuel s) as [[value s1]|]; [|exact I].
    destruct Hval as [_ Hs1]. cbv zeta.
    pose proof (skip_ws_scalar s1 Hs1) as Hsk1.
    destruct (skip_ws s1) as [|c s2]; [exact I|].
    pose proof (Forall_inv_tail Hsk1 : scalar_text s2) as Hs2.
    destruct (c =? RBRACKET).
    { split; [exact I|assumption]. }
    destruct (c =? COMMA); [|exact I].
    apply IHarr. now apply skip_ws_scalar.
Qed.

(** A dictionary of strings that was loaded from decoded text has distinct
    keys and good strings. *)
Lemma loaded_prefs_are_good (content : text) (d : dict text) :
  scalar_text content ->
  json_loads content = Some (json_of_prefs d) ->
  is_dict d /\ Forall good_item d.
Proof.
  intros Hs. unfold json_loads.
  destruct content as [|c content']; [discriminate|].
  destruct (c =? BOM); [discriminate|].
  set (s := c :: content') in *.
  pose proof (proj1 (decoder_ok (S (List.length s))) (skip_ws s) (skip_ws_scalar s Hs))
    as Hok.
  destruct (scan_once (S (List.length s)) (skip_ws s)) as [[v rest]|]; [|discriminate].
  destruct Hok as [Hv _].
  destruct (skip_ws rest); [|discriminate].
  intros [= ->]. rewrite json_of_prefs_members in Hv.
  destruct Hv as [Hpairs Hdict]. split.
  - unfold is_dict, dict_keys in *. rewrite map_map in Hdict. exact Hdict.
  - apply Forall_forall. intros kv Hin.
    rewrite Forall_forall in Hpairs.
    specialize (Hpairs (member kv) (in_map member d kv Hin)).
    exact Hpairs.
Qed.

End ParserInvariant.

(* ===================================================================== *)
(** * The fuel of the decoder is enough *)
(* ===================================================================== *)

Section Fuel.
Open Scope N_scope.

Lemma skip_ws_length (s : text) : (List.length (skip_ws s) <= List.length s)%nat.
Proof.
  induction s as [|c s IH]; [simpl; lia|].
  cbn [skip_ws]. destruct (is_ws c); simpl in *; lia.
Qed.

Lemma scanstring_shorter (n : nat) :
  forall s, (List.length s <= n)%nat ->
  forall x r, py_scanstring s = Some (x, r) ->
              (List.length r < List.length s)%nat.
Proof.
  induction n as [|n IH]; intros s Hlen x r Hscan.
  { destruct s; [discriminate|simpl in Hlen; lia]. }
  destruct s as [|c s1]; [discriminate|].
  cbn [py_scanstring] in Hscan. simpl in Hlen.
  assert (Hrec : forall c0 s', (List.length s' <= n)%nat ->
                   prepend c0 (py_scanstring s') = Some (x, r) ->
                   (List.length r < List.length s')%nat).
  { intros c0 s' Hs' H. apply prepend_Some in H as [x' [Hx' _]].
    now apply (IH s' Hs' x' r). }
  destruct (c =? QUOTE).
  { injection Hscan as _ <-. simpl. lia. }
  destruct (c =? BACKSLASH).
  - destruct s1 as [|e s2]; [discriminate|]. simpl in Hlen.
    destruct (e =? 117).
    + destruct s2 as [|h1 [|h2 [|h3 [|h4 r2]]]]; try discriminate.
      simpl in Hlen.
      destruct (decode_hex4 h1 h2 h3 h4) as [uni|]; [|discriminate].
      assert (Hr2 : prepend uni (py_scanstring r2) = Some (x, r) ->
                    (List.length r <
                     List.length (c :: e :: h1 :: h2 :: h3 :: h4 :: r2))%nat).
      { intros H. apply Hrec in H; [simpl; lia|lia]. }
      destruct (is_high_surrogate uni); [|now apply Hr2].
      destruct r2 as [|b [|u r3]]; try (now apply Hr2).
      destruct ((b =? BACKSLASH) && (u =? 117)); [|now apply Hr2].
      destruct r3 as [|l1 [|l2 [|l3 [|l4 r4]]]]; try discriminate.
      destruct (decode_hex4 l1 l2 l3 l4) as [uni2|]; [|discriminate].
      destruct (is_low_surrogate uni2); [|now apply Hr2].
      simpl in Hlen. apply Hrec in Hscan; [simpl; lia|lia].
    + destruct (unescape e); [|discriminate].
      apply Hrec in Hscan; [simpl; lia|lia].
  - destruct (c <? 32); [discriminate|].
    apply Hrec in Hscan; [simpl; lia|lia].
Qed.

Lemma span_digits_length (s : text) :
  (List.length (snd (span_digits s)) <= List.length s)%nat.
Proof.
  induction s as [|c s IH]; [simpl; lia|].
  cbn [span_digits]. destruct (is_digit c); [|simpl; lia].
  destruct (span_digits s). simpl in *. lia.
Qed.

Lemma match_number_shorter (s lexeme r : text) :
  match_number s = Some (lexeme, r) -> (List.length r < List.length s)%nat.
Proof.
  unfold match_number.
  destruct (match_int s) as [[i s1]|] eqn:Ei; [|discriminate].
  assert (H1 : (List.length s1 < List.length s)%nat).
  { unfold match_int in Ei.
    destruct s as [|c0 s0]; [discriminate|].
    destruct (c0 =? 45).
    - destruct s0 as [|c r1]; [discriminate|].
      destruct (c =? 48); [injection Ei as _ <-; simpl; lia|].
      destruct (is_digit c); [|discriminate].
      pose proof (span_digits_length r1).
      destruct (span_digits r1). injection Ei as _ <-. simpl in *. lia.
    - destruct (c0 =? 48); [injection Ei as _ <-; simpl; lia|].
      destruct (is_digit c0); [|discriminate].
      pose proof (span_digits_length s0).
      destruct (span_digits s0). injection Ei as _ <-. simpl in *. lia. }
  assert (H2 : (List.length (snd (match_frac s1)) <= List.length s1)%nat).
  { unfold match_frac. destruct s1 as [|c r1]; [simpl; lia|].
    destruct (c =? 46); [|simpl; lia].
    pose proof (span_digits_length r1).
    destruct (span_digits r1) as [[|d ds] rest]; simpl in *; lia. }
  destruct (match_frac s1) as [f s2]. cbn [snd] in H2.
  assert (H3 : (List.length (snd (match_exp s2)) <= List.length s2)%nat).
  { unfold match_exp. destruct s2 as [|c r1]; [simpl; lia|].
    destruct ((c =? 101) || (c =? 69)); [|simpl; lia].
    destruct r1 as [|g r'].
    - simpl. lia.
    - destruct ((g =? 45) || (g =? 43)).
      + pose proof (span_digits_length r').
        destruct (span_digits r') as [[|d ds] rest]; simpl in *; lia.
      + pose proof (span_digits_length (g :: r')).
        destruct (span_digits (g :: r')) as [[|d ds] rest]; simpl in *; lia. }
  destruct (match_exp s2) as [e s3]. cbn [snd] in H3.
  intros [= _ <-]. lia.
Qed.

Lemma literal_shorter (word : text) (v v' : json) (s r : text) :
  word <> [] -> literal word v s = Some (v', r) ->
  (List.length r < List.length s)%nat.
Proof.
  unfold literal. intros Hword.
  destruct (startswith s word) eqn:E; [|discriminate].
  intros [= _ <-]. apply startswith_prefix in E as [r' ->].
  rewrite skipn_app, skipn_all, Nat.sub_diag. simpl.
  rewrite length_app. destruct word; [congruence|simpl; lia].
Qed.

Lemma scan_atom_shorter (s : text) (v : json) (r : text) :
  scan_atom s = Some (v, r) -> (List.length r < List.length s)%nat.
Proof.
  unfold scan_atom, first_of.
  repeat match goal with
         | |- context [literal ?word ?val s] =>
             let E := fresh "E" in
             destruct (literal word val s) as [[? ?]|] eqn:E;
             [intros [= <- <-]; apply literal_shorter in E;
              [exact E|discriminate]|]
         | |- context [match_number s] =>
             let E := fresh "E" in
             destruct (match_number s) as [[? ?]|] eqn:E;
             [intros [= <- <-]; now apply match_number_shorter in E|]
         end.
  discriminate.
Qed.

(** A result obtained with some fuel is obtained with any fuel above the
    number of characters it consumed. *)
Lemma enough_fuel (m : nat) :
  (forall s v r,
      scan_once m s = Some (v, r) ->
      (List.length r < List.length s)%nat /\
      forall n, (List.length s - List.length r < n)%nat ->
                scan_once n s = Some (v, r)) /\
  (forall pairs s v r,
      JSONObject_loop m pairs s = Some (v, r) ->
      (List.length r < List.length s)%nat /\
      forall n, (List.length s - List.length r < n)%nat ->
                JSONObject_loop n pairs s = Some (v, r)) /\
  (forall values s v r,
      JSONArray_loop m values s = Some (v, r) ->
      (List.length r < List.length s)%nat /\
      forall n, (List.length s - List.length r < n)%nat ->
                JSONArray_loop n values s = Some (v, r)).
Proof.
  induction m as [|m [IHonce [IHobj IHarr]]].
  { repeat split; intros; discriminate. }
  split; [|split].
  - intros s v r. rewrite scan_once_eq.
    destruct s as [|c s0]; [discriminate|].
    destruct (c =? QUOTE) eqn:Eq.
    { destruct (py_scanstring s0) as [[x rest]|] eqn:E; [|discriminate].
      intros [= <- <-].
      pose proof (scanstring_shorter _ s0 (le_n _) x rest E).
      split; [simpl; lia|].
      intros [|n] Hn; [lia|]. rewrite scan_once_eq, Eq, E. reflexivity. }
    destruct (c =? LBRACE) eqn:El.
    { pose proof (skip_ws_length s0) as Hws.
      destruct (skip_ws s0) as [|c1 r1] eqn:Esk; [discriminate|].
      destruct (c1 =? RBRACE) eqn:Er.
      { intros [= <- <-]. cbn [List.length] in *. split; [lia|].
        intros [|n] Hn; [lia|]. rewrite scan_once_eq, Eq, El, Esk, Er. reflexivity. }
      destruct (c1 =? QUOTE) eqn:Eq1; [|discriminate].
      intros H. destruct (IHobj _ _ _ _ H) as [Hshort Hfuel].
      cbn [List.length] in *. split; [lia|].
      intros [|n] Hn; [lia|]. rewrite scan_once_eq, Eq, El, Esk, Er, Eq1.
      apply Hfuel. lia. }
    destruct (c =? LBRACKET) eqn:Ea.
    { pose proof (skip_ws_length s0) as Hws.
      destruct (skip_ws s0) as [|c1 r1] eqn:Esk; [discriminate|].
      destruct (c1 =? RBRACKET) eqn:Er.
      { intros [= <- <-]. cbn [List.length] in *. split; [lia|].
        intros [|n] Hn; [lia|]. rewrite scan_once_eq, Eq, El, Ea, Esk, Er. reflexivity. }
      intros H. destruct (IHarr _ _ _ _ H) as [Hshort Hfuel].
      cbn [List.length] in *. split; [lia|].
      intros [|n] Hn; [lia|]. rewrite scan_once_eq, Eq, El, Ea, Esk, Er.
      apply Hfuel. cbn [List.length]. lia. }
    intros H. pose proof (scan_atom_shorter _ _ _ H) as Hshort.
    split; [exact Hshort|].
    intros [|n] Hn; [lia|]. now rewrite scan_once_eq, Eq, El, Ea.
  - intros pairs s v r. rewrite JSONObject_loop_eq.
    destruct (py_scanstring s) as [[key s1]|] eqn:Ekey; [|discriminate].
    pose proof (scanstring_shorter _ s (le_n _) key s1 Ekey) as Hs1.
    pose proof (skip_ws_length s1) as Hws1.
    destruct (skip_ws s1) as [|c s2] eqn:Esk1; [discriminate|].
    destruct (c =? COLON) eqn:Ec; [|discriminate].
    pose proof (skip_ws_length s2) as Hws2.
    destruct (scan_once m (skip_ws s2)) as [[value s3]|] eqn:Eval; [|discriminate].
    destruct (IHonce _ _ _ Eval) as [Hs3 Hfuel3]. cbv zeta.
    pose proof (skip_ws_length s3) as Hws3.
    destruct (skip_ws s3) as [|c' s4] eqn:Esk3; [discriminate|].
    destruct (c' =? RBRACE) eqn:Er.
    { intros [= <- <-]. cbn [List.length] in *. split; [lia|].
      intros [|n] Hn; [lia|].
      rewrite JSONObject_loop_eq, Ekey, Esk1, Ec, (Hfuel3 n), Esk3, Er;
        [reflexivity|lia]. }
    destruct (c' =? COMMA) eqn:Ecm; [|discriminate].
    pose proof (skip_ws_length s4) as Hws4.
    destruct (skip_ws s4) as [|q s5] eqn:Esk4; [discriminate|].
    destruct (q =? QUOTE) eqn:Eq; [|discriminate].
    intros H. destruct (IHobj _ _ _ _ H) as [Hs5 Hfuel5].
    cbn [List.length] in *. split; [lia|].
    intros [|n] Hn; [lia|].
    rewrite JSONObject_loop_eq, Ekey, Esk1, Ec, (Hfuel3 n), Esk3, Er, Ecm, Esk4, Eq;
      [|lia].
    apply Hfuel5. lia.
  - intros values s v r. rewrite JSONArray_loop_eq.
    destruct (scan_once m s) as [[value s1]|] eqn:Eval; [|discriminate].
    destruct (IHonce _ _ _ Eval) as [Hs1 Hfuel1]. cbv zeta.
    pose proof (skip_ws_length s1) as Hws1.
    destruct (skip_ws s1) as [|c s2] eqn:Esk1; [discriminate|].
    destruct (c =? RBRACKET) eqn:Er.
    { intros [= <- <-]. cbn [List.length] in *. split; [lia|].
      intros [|n] Hn; [lia|].
      rewrite JSONArray_loop_eq, (Hfuel1 n), Esk1, Er; [reflexivity|lia]. }
    destruct (c =? COMMA) eqn:Ecm; [|discriminate].
    pose proof (skip_ws_length s2) as Hws2.
    intros H. destruct (IHarr _ _ _ _ H) as [Hs5 Hfuel5].
    cbn [List.length] in *. split; [lia|].
    intros [|n] Hn; [lia|].
    rewrite JSONArray_loop_eq, (Hfuel1 n), Esk1, Er, Ecm; [|lia].
    apply Hfuel5. lia.
Qed.

(** More fuel than [json_loads] supplies changes nothing: where the model
    of the decoder answers [None], no amount of fuel gives a value. *)
Lemma fuel_of_json_loads_is_enough (s : text) (m : nat) :
  (List.length s < m)%nat ->
  scan_once m (skip_ws s) = scan_once (S (List.length s)) (skip_ws s).
Proof.
  intros Hm. pose proof (skip_ws_length s) as Hws.
  destruct (scan_once m (skip_ws s)) as [[v r]|] eqn:E.
  - destruct (proj1 (enough_fuel m) _ _ _ E) as [Hshort Hfuel].
    symmetry. apply Hfuel. lia.
  - destruct (scan_once (S (List.length s)) (skip_ws s)) as [[v r]|] eqn:E'; [|reflexivity].
    destruct (proj1 (enough_fuel _) _ _ _ E') as [Hshort Hfuel].
    rewrite Hfuel in E by lia. discriminate.
Qed.

End Fuel.

(* ===================================================================== *)
(** * The decoder within the limits of the interpreter *)
(* ===================================================================== *)

Section Limits.
Open Scope N_scope.

Lemma scan_once_unicode_eq (fuel room max_str_digits : nat) (s : text) :
  scan_once_unicode (S fuel) room max_str_digits s =
  match s with
  | [] => raise_stop_iteration
  | c :: r =>
    if c =? QUOTE then
      match py_scanstring r with
      | Some (x, rest) => Scanned (JString x, rest)
      | None => raise_errmsg room
      end
    else if c =? LBRACE then
      match room with
      | O => Failed TooDeep
      | S room' =>
        match skip_ws r with
        | c1 :: r1 =>
            if c1 =? RBRACE then Scanned (JObject [], r1)
            else if c1 =? QUOTE
            then _parse_object_unicode fuel room' max_str_digits [] r1
            else raise_errmsg room'
        | [] => raise_errmsg room'
        end
      end
    else if c =? LBRACKET then
      match room with
      | O => Failed TooDeep
      | S room' =>
        match skip_ws r with
        | c1 :: r1 =>
            if c1 =? RBRACKET then Scanned (JArray [], r1)
            else _parse_array_unicode fuel room' max_str_digits [] (c1 :: r1)
        | [] => raise_stop_iteration
        end
      end
    else scan_atom_unicode max_str_digits s
  end.
Proof. reflexivity. Qed.

Lemma parse_object_unicode_eq (fuel room max_str_digits : nat)
      (pairs : list (text * json)) (s : text) :
  _parse_object_unicode (S fuel) room max_str_digits pairs s =
  match py_scanstring s with
  | None => raise_errmsg room
  | Some (key, s1) =>
    match skip_ws s1 with
    | c :: s2 =>
      if c =? COLON then
        match scan_once_unicode fuel room max_str_digits (skip_ws s2) with
        | Failed e => Failed e
        | Scanned (value, s3) =>
          let pairs' := (pairs ++ [(key, value)])%list in
          match skip_ws s3 with
          | c' :: s4 =>
            if c' =? RBRACE then Scanned (JObject (dict_of_pairs pairs'), s4)
            else if c' =? COMMA then
              match skip_ws s4 with
              | q :: s5 =>
                  if q =? QUOTE
                  then _parse_object_unicode fuel room max_str_digits pairs' s5
                  else raise_errmsg room
              | [] => raise_errmsg room
              end
            else raise_errmsg room
          | [] => raise_errmsg room
          end
        end
      else raise_errmsg room
    | [] => raise_errmsg room
    end
  end.
Proof. reflexivity. Qed.

Lemma parse_array_unicode_eq (fuel room max_str_digits : nat)
      (values : list json) (s : text) :
  _parse_array_unicode (S fuel) room max_str_digits values s =
  match scan_once_unicode fuel room max_str_digits s with
  | Failed e => Failed e
  | Scanned (value, s1) =>
    let values' := (values ++ [value])%list in
    match skip_ws s1 with
    | c :: s2 =>
      if c =? RBRACKET then Scanned (JArray values', s2)
      else if c =? COMMA
      then _parse_array_unicode fuel room max_str_digits values' (skip_ws s2)
      else raise_errmsg room
    | [] => raise_errmsg room
    end
  end.
Proof. reflexivity. Qed.

Lemma raise_errmsg_fails {A} (room : nat) (a : A) : raise_errmsg room <> Scanned a.
Proof. unfold raise_errmsg. destruct (room <? 3)%nat; discriminate. Qed.

Lemma scan_atom_unicode_scanned (max_str_digits : nat) (s : text) (v : json) (r : text) :
  scan_atom_unicode max_str_digits s = Scanned (v, r) -> scan_atom s = Some (v, r).
Proof.
  unfold scan_atom_unicode.
  destruct (scan_atom s) as [[v' r']|]; [|discriminate].
  destruct v' as [| |lexeme| | |]; try (intros [= <- <-]; reflexivity).
  destruct (integer_digits lexeme) as [digits|]; [|intros [= <- <-]; reflexivity].
  destruct (exceeds_max_str_digits max_str_digits digits); [discriminate|].
  intros [= <- <-]. reflexivity.
Qed.

(** What the scanner returns within the limits is what the grammar
    gives. *)
Lemma scanned_is_grammar (max_str_digits fuel : nat) :
  (forall room s v r,
      scan_once_unicode fuel room max_str_digits s = Scanned (v, r) ->
      scan_once fuel s = Some (v, r)) /\
  (forall room pairs s v r,
      _parse_object_unicode fuel room max_str_digits pairs s = Scanned (v, r) ->
      JSONObject_loop fuel pairs s = Some (v, r)) /\
  (forall room values s v r,
      _parse_array_unicode fuel room max_str_digits values s = Scanned (v, r) ->
      JSONArray_loop fuel values s = Some (v, r)).
Proof.
  induction fuel as [|fuel [IHonce [IHobj IHarr]]].
  { repeat split; intros; discriminate. }
  split; [|split].
  - intros room s v r. rewrite scan_once_unicode_eq, scan_once_eq.
    destruct s as [|c s0]; [discriminate|].
    destruct (c =? QUOTE).
    { destruct (py_scanstring s0) as [[x rest]|].
      - intros [= <- <-]. reflexivity.
      - intros H. now apply raise_errmsg_fails in H. }
    destruct (c =? LBRACE).
    { destruct room as [|room']; [discriminate|].
      destruct (skip_ws s0) as [|c1 r1];
        [intros H; now apply raise_errmsg_fails in H|].
      destruct (c1 =? RBRACE); [intros [= <- <-]; reflexivity|].
      destruct (c1 =? QUOTE); [apply IHobj|].
      intros H. now apply raise_errmsg_fails in H. }
    destruct (c =? LBRACKET).
    { destruct room as [|room']; [discriminate|].
      destruct (skip_ws s0) as [|c1 r1]; [discriminate|].
      destruct (c1 =? RBRACKET); [intros [= <- <-]; reflexivity|].
      apply IHarr. }
    apply scan_atom_unicode_scanned.
  - intros room pairs s v r. rewrite parse_object_unicode_eq, JSONObject_loop_eq.
    destruct (py_scanstring s) as [[key s1]|];
      [|intros H; now apply raise_errmsg_fails in H].
    destruct (skip_ws s1) as [|c s2];
      [intros H; now apply raise_errmsg_fails in H|].
    destruct (c =? COLON); [|intros H; now apply raise_errmsg_fails in H].
    destruct (scan_once_unicode fuel room max_str_digits (skip_ws s2))
      as [[value s3]|e] eqn:E; [|discriminate].
    rewrite (IHonce _ _ _ _ E). cbv zeta.
    destruct (skip_ws s3) as [|c' s4];
      [intros H; now apply raise_errmsg_fails in H|].
    destruct (c' =? RBRACE); [intros [= <- <-]; reflexivity|].
    destruct (c' =? COMMA); [|intros H; now apply raise_errmsg_fails in H].
    destruct (skip_ws s4) as [|q s5];
      [intros H; now apply raise_errmsg_fails in H|].
    destruct (q =? QUOTE); [apply IHobj|].
    intros H. now apply raise_errmsg_fails in H.
  - intros room values s v r. rewrite parse_array_unicode_eq, JSONArray_loop_eq.
    destruct (scan_once_unicode fuel room max_str_digits s)
      as [[value s1]|e] eqn:E; [|discriminate].
    rewrite (IHonce _ _ _ _ E). cbv zeta.
    destruct (skip_ws s1) as [|c s2];
      [intros H; now apply raise_errmsg_fails in H|].
    destruct (c =? RBRACKET); [intros [= <- <-]; reflexivity|].
    destruct (c =? COMMA); [apply IHarr|].
    intros H. now apply raise_errmsg_fails in H.
Qed.

(** What [json_decode] returns, [json_loads] returns. *)
Lemma json_decode_loads (room max_str_digits : nat) (s : text) (v : json) :
  json_decode room max_str_digits s = Scanned v -> json_loads s = Some v.
Proof.
  unfold json_decode, json_loads.
  destruct s as [|c s0]; [discriminate|].
  destruct (c =? BOM); [discriminate|].
  set (s := c :: s0).
  destruct (scan_once_unicode (2 * List.length s + 2) (3 + room) max_str_digits
                              (skip_ws s)) as [[v' rest]|e] eqn:E; [|discriminate].
  apply (proj1 (scanned_is_grammar max_str_digits _)) in E.
  destruct (proj1 (enough_fuel _) _ _ _ E) as [Hshort Hfuel].
  pose proof (skip_ws_length s) as Hws.
  rewrite (Hfuel (S (List.length s))) by lia.
  destruct (skip_ws rest); [|discriminate]. now intros [= ->].
Qed.

Lemma scan_once_unicode_string (fuel room max_str_digits : nat) (r : text) :
  scan_once_unicode (S fuel) room max_str_digits (QUOTE :: r) =
  match py_scanstring r with
  | Some (x, rest) => Scanned (JString x, rest)
  | None => raise_errmsg room
  end.
Proof. reflexivity. Qed.

(** One turn of the member loop on an item of a dump. *)
Lemma parse_object_item (fuel room max_str_digits : nat) (pairs : list (text * json))
      (kv : text * text) (rest : text) :
  good_item kv ->
  _parse_object_unicode (S (S fuel)) room max_str_digits pairs (item_body kv rest) =
  match skip_ws rest with
  | c' :: s4 =>
    if c' =? RBRACE
    then Scanned (JObject (dict_of_pairs (pairs ++ [member kv])), s4)
    else if c' =? COMMA then
      match skip_ws s4 with
      | q :: s5 =>
          if q =? QUOTE
          then _parse_object_unicode (S fuel) room max_str_digits
                                     (pairs ++ [member kv]) s5
          else raise_errmsg room
      | [] => raise_errmsg room
      end
    else raise_errmsg room
  | [] => raise_errmsg room
  end.
Proof.
  intros [Hk Hv]. rewrite parse_object_unicode_eq. unfold item_body.
  rewrite (scanstring_escaped _ Hk).
  change (skip_ws (COLON :: ?r)) with (COLON :: r).
  change (COLON =? COLON) with true. cbv iota.
  change (skip_ws (SPACE :: QUOTE :: ?r)) with (QUOTE :: r).
  rewrite scan_once_unicode_string, (scanstring_escaped _ Hv). reflexivity.
Qed.

(** The member loop on the items of a dump: no limit is met. *)
Lemma parse_object_dumped (room max_str_digits : nat) (items : list (text * text)) :
  forall (kv : text * text) (pairs : list (text * json)) (fuel : nat) (rest : text),
    good_item kv -> Forall good_item items ->
    (List.length items + 2 <= fuel)%nat ->
    _parse_object_unicode fuel room max_str_digits pairs
                          (item_body kv (more_items items rest)) =
    Scanned (JObject (dict_of_pairs (pairs ++ map member (kv :: items))), rest).
Proof.
  induction items as [|kv' items IH]; intros kv pairs fuel rest Hkv Hitems Hfuel.
  - destruct fuel as [|[|fuel]]; [simpl in Hfuel; lia|simpl in Hfuel; lia|].
    rewrite parse_object_item by assumption. reflexivity.
  - destruct fuel as [|[|fuel]]; [simpl in Hfuel; lia|simpl in Hfuel; lia|].
    rewrite parse_object_item by assumption.
    cbn [more_items].
    change (skip_ws (COMMA :: ?r)) with (COMMA :: r).
    change (COMMA =? RBRACE) with false. change (COMMA =? COMMA) with true.
    cbv iota.
    change (skip_ws (NEWLINE :: SPACE :: SPACE :: QUOTE :: ?r)) with (QUOTE :: r).
    change (QUOTE =? QUOTE) with true. cbv iota.
    inversion Hitems as [|? ? Hkv' Hitems']; subst.
    rewrite (IH kv' _ (S fuel) rest Hkv' Hitems').
    + cbn [map]. now rewrite <- app_assoc.
    + simpl in Hfuel |- *. lia.
Qed.

(** [json.loads(json.dumps(d, indent=2))] is [d], whatever the limits of
    the interpreter are: a dump of strings has one level and no number. *)
Lemma json_decode_dumps (room max_str_digits : nat) (d : dict text) :
  is_dict d -> Forall good_item d ->
  json_decode room max_str_digits (json_dumps d) = Scanned (json_of_prefs d).
Proof.
  intros Hd Hgood. destruct d as [|kv items]; [reflexivity|].
  pose proof (json_dumps_length (kv :: items)) as Hlen.
  unfold json_decode. rewrite json_dumps_shape in *.
  set (body := item_body kv (more_items items [])) in *.
  set (len := List.length (LBRACE :: NEWLINE :: SPACE :: SPACE :: QUOTE :: body)) in *.
  change (LBRACE =? BOM) with false. cbv iota.
  replace (2 * len + 2)%nat with (S (2 * len + 1)) by lia.
  assert (Hstart : scan_once_unicode (S (2 * len + 1)) (3 + room) max_str_digits
                     (skip_ws (LBRACE :: NEWLINE :: SPACE :: SPACE :: QUOTE :: body))
                   = _parse_object_unicode (2 * len + 1) (2 + room) max_str_digits
                                           [] body) by reflexivity.
  rewrite Hstart. subst body.
  inversion Hgood as [|? ? Hkv Hitems]; subst.
  rewrite (parse_object_dumped (2 + room) max_str_digits items kv []
                               (2 * len + 1)%nat [] Hkv Hitems).
  - cbn [skip_ws app]. rewrite dict_of_members by assumption. reflexivity.
  - simpl in Hlen. lia.
Qed.

(** ** A dump always decodes, whatever the strings are *)

Lemma halves_in_range (c : N) :
  is_high_surrogate (high_half c) = true /\ is_low_surrogate (low_half c) = true /\
  high_half c < 65536 /\ low_half c < 65536.
Proof.
  unfold high_half, low_half, is_high_surrogate, is_low_surrogate.
  change 1023 with (N.ones 10). rewrite !N.land_ones. change (2 ^ 10) with 1024.
  pose proof (N.mod_lt (N.shiftr (c - 65536) 10) 1024 ltac:(lia)) as Hh.
  pose proof (N.mod_lt (c - 65536) 1024 ltac:(lia)) as Hl.
  change 55296 with (54 * 1024). change 56320 with (55 * 1024).
  rewrite !lor_low by assumption.
  set (a := N.shiftr (c - 65536) 10 mod 1024) in *. clearbody a.
  set (b := (c - 65536) mod 1024) in *. clearbody b.
  repeat split; try (apply andb_true_iff; split; apply N.leb_le); lia.
Qed.

Lemma escape_of_a_character_in_the_plane (c : N) :
  55296 <= c < 65536 -> escape_cp c = u_escape c.
Proof.
  intros H. unfold escape_cp, QUOTE, BACKSLASH.
  repeat match goal with
         | |- context [?a =? ?b] =>
             let E := fresh "E" in
             destruct (a =? b) eqn:E; [apply N.eqb_eq in E; lia|]
         end.
  destruct ((32 <=? c) && (c <=? 126)) eqn:Eprintable.
  { apply andb_true_iff in Eprintable as [_ Eprintable].
    apply N.leb_le in Eprintable. lia. }
  destruct (c <? 65536) eqn:E'; [reflexivity|]. apply N.ltb_ge in E'. lia.
Qed.

Lemma escape_of_a_character_above_the_plane (c : N) :
  65536 <= c -> escape_cp c = u_escape (high_half c) ++ u_escape (low_half c).
Proof.
  intros H. unfold escape_cp, QUOTE, BACKSLASH.
  repeat match goal with
         | |- context [?a =? ?b] =>
             let E := fresh "E" in
             destruct (a =? b) eqn:E; [apply N.eqb_eq in E; lia|]
         end.
  destruct ((32 <=? c) && (c <=? 126)) eqn:Eprintable.
  { apply andb_true_iff in Eprintable as [_ Eprintable].
    apply N.leb_le in Eprintable. lia. }
  destruct (c <? 65536) eqn:E'; [|reflexivity]. apply N.ltb_lt in E'. lia.
Qed.

Lemma escape_cp_opening_any (c x : N) (r : text) :
  opens_with_escape_of x (escape_cp c ++ r) ->
  is_low_surrogate c = true \/ is_low_surrogate x = false.
Proof.
  destruct (N.lt_ge_cases c 1114112) as [Hc|Hc]; [now apply escape_cp_opening|].
  rewrite escape_of_a_character_above_the_plane by lia.
  rewrite <- app_assoc. intros H.
  destruct (halves_in_range c) as [Hh [_ [Hb _]]].
  apply opens_with_u_escape in H; [|assumption]. subst x.
  right. now apply high_is_not_low.
Qed.

(** The escapes of any text, closed by a quote, scan to the closing
    quote; what is scanned is the text itself when it is good text. *)
Lemma scanstring_escaped_any (n : nat) :
  forall s, (List.length s <= n)%nat ->
  forall rest, exists x,
    py_scanstring (flat_map escape_cp s ++ QUOTE :: rest) = Some (x, rest).
Proof.
  induction n as [|n IH]; intros s Hlen rest.
  { destruct s; [now exists []|simpl in Hlen; lia]. }
  destruct s as [|c s]; [now exists []|]. cbn [List.length] in Hlen.
  destruct (IH s ltac:(lia) rest) as [x' Hs].
  cbn [flat_map]. rewrite <- app_assoc.
  set (tail := flat_map escape_cp s ++ QUOTE :: rest) in *.
  assert (Hdone : forall ch, exists x, prepend ch (py_scanstring tail) = Some (x, rest)).
  { intros ch. exists (ch :: x'). now rewrite Hs. }
  unfold escape_cp.
  destruct (c =? QUOTE) eqn:E1.
  { cbn [app]. rewrite scan_simple with (ch := QUOTE); [apply Hdone| |]; reflexivity. }
  destruct (c =? BACKSLASH) eqn:E2.
  { cbn [app]. rewrite scan_simple with (ch := BACKSLASH); [apply Hdone| |]; reflexivity. }
  destruct ((32 <=? c) && (c <=? 126)) eqn:E3.
  { apply andb_true_iff in E3 as [A _]. apply N.leb_le in A.
    cbn [app]. rewrite scan_raw; try assumption; [apply Hdone|].
    apply N.ltb_ge. exact A. }
  destruct (c =? 8) eqn:E4.
  { cbn [app]. rewrite scan_simple with (ch := 8); [apply Hdone| |]; reflexivity. }
  destruct (c =? 12) eqn:E5.
  { cbn [app]. rewrite scan_simple with (ch := 12); [apply Hdone| |]; reflexivity. }
  destruct (c =? 10) eqn:E6.
  { cbn [app]. rewrite scan_simple with (ch := 10); [apply Hdone| |]; reflexivity. }
  destruct (c =? 13) eqn:E7.
  { cbn [app]. rewrite scan_simple with (ch := 13); [apply Hdone| |]; reflexivity. }
  destruct (c =? 9) eqn:E8.
  { cbn [app]. rewrite scan_simple with (ch := 9); [apply Hdone| |]; reflexivity. }
  destruct (c <? 65536) eqn:E9.
  - apply N.ltb_lt in E9.
    destruct (is_high_surrogate c) eqn:Hhigh.
    + (* a high surrogate: joined with a low one that follows *)
      destruct s as [|c2 s2].
      { rewrite scan_u_escape; [apply Hdone|assumption|].
        intros y [h1 [h2 [h3 [h4 [r' [E D]]]]]]. discriminate E. }
      destruct (is_low_surrogate c2) eqn:Hlow.
      * assert (Hc2 : 55296 <= c2 < 65536).
        { unfold is_low_surrogate in Hlow. apply andb_true_iff in Hlow as [A B].
          apply N.leb_le in A, B. lia. }
        cbn [List.length] in Hlen.
        destruct (IH s2 ltac:(lia) rest) as [x2 Hs2].
        subst tail. cbn [flat_map]. rewrite <- app_assoc.
        rewrite (escape_of_a_character_in_the_plane c2 Hc2).
        unfold u_escape, hex4. cbn [app].
        rewrite scan_u_pair with (uni := c) (uni2 := c2);
          try assumption; try (apply decode_hex4_hex4; lia).
        rewrite Hs2. now eexists.
      * rewrite scan_u_escape; [apply Hdone|assumption|].
        intros y Hy. subst tail. cbn [flat_map] in Hy. rewrite <- app_assoc in Hy.
        apply escape_cp_opening_any in Hy. destruct Hy as [Hy|Hy]; congruence.
    + unfold u_escape, hex4. cbn [app].
      rewrite scan_u with (uni := c); try assumption; [apply Hdone|].
      now apply decode_hex4_hex4.
  - apply N.ltb_ge in E9.
    destruct (halves_in_range c) as [Hh [Hl [Hhb Hlb]]].
    rewrite <- app_assoc. unfold u_escape, hex4. cbn [app].
    rewrite scan_u_pair with (uni := high_half c) (uni2 := low_half c);
      try assumption; try (now apply decode_hex4_hex4).
    apply Hdone.
Qed.

Lemma parse_object_item_any (fuel room max_str_digits : nat)
      (pairs : list (text * json)) (kv : text * text) (rest : text) :
  exists key value,
    _parse_object_unicode (S (S fuel)) room max_str_digits pairs (item_body kv rest) =
    match skip_ws rest with
    | c' :: s4 =>
      if c' =? RBRACE
      then Scanned (JObject (dict_of_pairs (pairs ++ [(key, JString value)])), s4)
      else if c' =? COMMA then
        match skip_ws s4 with
        | q :: s5 =>
            if q =? QUOTE
            then _parse_object_unicode (S fuel) room max_str_digits
                                       (pairs ++ [(key, JString value)]) s5
            else raise_errmsg room
        | [] => raise_errmsg room
        end
      else raise_errmsg room
    | [] => raise_errmsg room
    end.
Proof.
  unfold item_body.
  destruct (scanstring_escaped_any _ (fst kv) (le_n _)
              (COLON :: SPACE :: QUOTE :: flat_map escape_cp (snd kv) ++ QUOTE :: rest))
    as [key Hk].
  destruct (scanstring_escaped_any _ (snd kv) (le_n _) rest) as [value Hv].
  exists key, value.
  rewrite parse_object_unicode_eq, Hk.
  change (skip_ws (COLON :: ?r)) with (COLON :: r).
  change (COLON =? COLON) with true. cbv iota.
  change (skip_ws (SPACE :: QUOTE :: ?r)) with (QUOTE :: r).
  rewrite scan_once_unicode_string, Hv. reflexivity.
Qed.

Lemma parse_object_dumped_any (room max_str_digits : nat) (items : list (text * text)) :
  forall (kv : text * text) (pairs : list (text * json)) (fuel : nat) (rest : text),
    (List.length items + 2 <= fuel)%nat ->
    exists v,
      _parse_object_unicode fuel room max_str_digits pairs
                            (item_body kv (more_items items rest)) =
      Scanned (v, rest).
Proof.
  induction items as [|kv' items IH]; intros kv pairs fuel rest Hfuel.
  - destruct fuel as [|[|fuel]]; [simpl in Hfuel; lia|simpl in Hfuel; lia|].
    destruct (parse_object_item_any fuel room max_str_digits pairs kv
                                    (more_items [] rest)) as [key [value ->]].
    now eexists.
  - destruct fuel as [|[|fuel]]; [simpl in Hfuel; lia|simpl in Hfuel; lia|].
    destruct (parse_object_item_any fuel room max_str_digits pairs kv
                                    (more_items (kv' :: items) rest))
      as [key [value ->]].
    cbn [more_items].
    change (skip_ws (COMMA :: ?r)) with (COMMA :: r).
    change (COMMA =? RBRACE) with false. change (COMMA =? COMMA) with true.
    cbv iota.
    change (skip_ws (NEWLINE :: SPACE :: SPACE :: QUOTE :: ?r)) with (QUOTE :: r).
    change (QUOTE =? QUOTE) with true. cbv iota.
    apply IH. simpl in Hfuel |- *. lia.
Qed.

(** A dump decodes, whatever it is a dump of and whatever the limits of
    the interpreter are. *)
Lemma json_decode_dumps_any (room max_str_digits : nat) (d : dict text) :
  exists v, json_decode room max_str_digits (json_dumps d) = Scanned v.
Proof.
  destruct d as [|kv items]; [now exists (JObject [])|].
  pose proof (json_dumps_length (kv :: items)) as Hlen.
  unfold json_decode. rewrite json_dumps_shape in *.
  set (body := item_body kv (more_items items [])) in *.
  set (len := List.length (LBRACE :: NEWLINE :: SPACE :: SPACE :: QUOTE :: body)) in *.
  change (LBRACE =? BOM) with false. cbv iota.
  replace (2 * len + 2)%nat with (S (2 * len + 1)) by lia.
  assert (Hstart : scan_once_unicode (S (2 * len + 1)) (3 + room) max_str_digits
                     (skip_ws (LBRACE :: NEWLINE :: SPACE :: SPACE :: QUOTE :: body))
                   = _parse_object_unicode (2 * len + 1) (2 + room) max_str_digits
                                           [] body) by reflexivity.
  rewrite Hstart. subst body.
  destruct (parse_object_dumped_any (2 + room) max_str_digits items kv []
                                    (2 * len + 1)%nat []) as [v ->].
  - simpl in Hlen. lia.
  - now exists v.
Qed.

Lemma decoding_dumps (w : world) (d : dict text) :
  is_dict d -> Forall good_item d ->
  decoding w (json_dumps d) = Scanned (json_of_prefs d).
Proof. apply json_decode_dumps. Qed.

Lemma scanned_is_shorter (fuel room max_str_digits : nat) (s : text)
      (v : json) (r : text) :
  scan_once_unicode fuel room max_str_digits s = Scanned (v, r) ->
  (List.length r < List.length s)%nat.
Proof.
  intros E. apply (proj1 (scanned_is_grammar max_str_digits _)) in E.
  apply (proj1 (enough_fuel _) _ _ _ E).
Qed.

(** Twice the length of the text is fuel enough: with that much, more
    changes nothing, whether the scanner returns or fails. *)
Lemma enough_fuel_within_limits (max_str_digits m : nat) :
  (forall n room s,
      (2 * List.length s + 1 <= m)%nat -> (2 * List.length s + 1 <= n)%nat ->
      scan_once_unicode m room max_str_digits s =
      scan_once_unicode n room max_str_digits s) /\
  (forall n room pairs s,
      (2 * List.length s + 2 <= m)%nat -> (2 * List.length s + 2 <= n)%nat ->
      _parse_object_unicode m room max_str_digits pairs s =
      _parse_object_unicode n room max_str_digits pairs s) /\
  (forall n room values s,
      (2 * List.length s + 2 <= m)%nat -> (2 * List.length s + 2 <= n)%nat ->
      _parse_array_unicode m room max_str_digits values s =
      _parse_array_unicode n room max_str_digits values s).
Proof.
  induction m as [|m [IHonce [IHobj IHarr]]].
  { repeat split; intros; lia. }
  split; [|split].
  - intros [|n] room s Hm Hn; [lia|].
    rewrite !scan_once_unicode_eq.
    destruct s as [|c s0]; [reflexivity|]. cbn [List.length] in Hm, Hn.
    destruct (c =? QUOTE); [reflexivity|].
    pose proof (skip_ws_length s0) as Hws.
    destruct (c =? LBRACE).
    { destruct room as [|room']; [reflexivity|].
      destruct (skip_ws s0) as [|c1 r1]; [reflexivity|]. cbn [List.length] in Hws.
      destruct (c1 =? RBRACE); [reflexivity|].
      destruct (c1 =? QUOTE); [|reflexivity].
      apply IHobj; lia. }
    destruct (c =? LBRACKET); [|reflexivity].
    destruct room as [|room']; [reflexivity|].
    destruct (skip_ws s0) as [|c1 r1] eqn:Esk; [reflexivity|].
    destruct (c1 =? RBRACKET); [reflexivity|].
    apply IHarr; lia.
  - intros [|n] room pairs s Hm Hn; [lia|].
    rewrite !parse_object_unicode_eq.
    destruct (py_scanstring s) as [[key s1]|] eqn:Ekey; [|reflexivity].
    pose proof (scanstring_shorter _ s (le_n _) key s1 Ekey) as Hkey.
    pose proof (skip_ws_length s1) as Hws1.
    destruct (skip_ws s1) as [|c s2]; [reflexivity|]. cbn [List.length] in Hws1.
    destruct (c =? COLON); [|reflexivity].
    pose proof (skip_ws_length s2) as Hws2.
    rewrite <- (IHonce n room (skip_ws s2)) by lia.
    destruct (scan_once_unicode m room max_str_digits (skip_ws s2))
      as [[value s3]|e] eqn:E; [|reflexivity].
    pose proof (scanned_is_shorter _ _ _ _ _ _ E) as Hvalue. cbv zeta.
    pose proof (skip_ws_length s3) as Hws3.
    destruct (skip_ws s3) as [|c' s4]; [reflexivity|]. cbn [List.length] in Hws3.
    destruct (c' =? RBRACE); [reflexivity|].
    destruct (c' =? COMMA); [|reflexivity].
    pose proof (skip_ws_length s4) as Hws4.
    destruct (skip_ws s4) as [|q s5]; [reflexivity|]. cbn [List.length] in Hws4.
    destruct (q =? QUOTE); [|reflexivity].
    apply IHobj; lia.
  - intros [|n] room values s Hm Hn; [lia|].
    rewrite !parse_array_unicode_eq.
    rewrite <- (IHonce n room s) by lia.
    destruct (scan_once_unicode m room max_str_digits s)
      as [[value s1]|e] eqn:E; [|reflexivity].
    pose proof (scanned_is_shorter _ _ _ _ _ _ E) as Hvalue. cbv zeta.
    pose proof (skip_ws_length s1) as Hws1.
    destruct (skip_ws s1) as [|c s2]; [reflexivity|]. cbn [List.length] in Hws1.
    destruct (c =? RBRACKET); [reflexivity|].
    destruct (c =? COMMA); [|reflexivity].
    pose proof (skip_ws_length s2) as Hws2.
    apply IHarr; lia.
Qed.

(** More fuel than [json_decode] supplies changes nothing. *)
Lemma fuel_of_json_decode_is_enough (room max_str_digits : nat) (s : text) (n : nat) :
  (2 * List.length s + 2 <= n)%nat ->
  scan_once_unicode n room max_str_digits (skip_ws s) =
  scan_once_unicode (2 * List.length s + 2) room max_str_digits (skip_ws s).
Proof.
  intros Hn. pose proof (skip_ws_length s) as Hws.
  apply (proj1 (enough_fuel_within_limits max_str_digits n)); lia.
Qed.

End Limits.

(* ===================================================================== *)
(** * Saving what was loaded *)
(* ===================================================================== *)

Section RoundTrip.

Lemma json_of_prefs_inj (d d' : dict text) :
  json_of_prefs d = json_of_prefs d' -> d = d'.
Proof.
  unfold json_of_prefs. intros [= H]. revert d' H.
  induction d as [|[k v] d IH]; intros [|[k' v'] d'] H; try discriminate.
  - reflexivity.
  - cbn [map fst snd] in H. injection H as -> -> H. f_equal. now apply IH.
Qed.

(** Loading reads the world and leaves it as it is. *)
Lemma load_leaves_world (w : world) : snd (_load_preferences_from_file w) = w.
Proof.
  unfold _load_preferences_from_file, bind, path_exists, try_except, open_r, json_load.
  destruct (backing_file w) as [| | |content] eqn:E; cbn; rewrite ?E; cbn;
    try reflexivity.
  destruct (decoding w content) as [v|[| |]]; reflexivity.
Qed.

(** What [load] returns as a dictionary of strings is a dictionary with
    good strings, whatever decoded state the file is in. *)
Lemma loaded_from_file_is_good (w : world) (d : dict text) :
  decoded (backing_file w) ->
  fst (_load_preferences_from_file w) = Returns (json_of_prefs d) ->
  is_dict d /\ Forall good_item d.
Proof.
  intros Hdec Hload.
  assert (Hempty : json_of_prefs d = JObject [] -> is_dict d /\ Forall good_item d).
  { intros E. apply (json_of_prefs_inj d []) in E. subst d.
    split; constructor. }
  destruct (backing_file w) as [| | |content] eqn:Hfile.
  - rewrite load_tolerates in Hload by tauto. apply Hempty.
    cbn [fst] in Hload. congruence.
  - rewrite load_tolerates in Hload by tauto. apply Hempty.
    cbn [fst] in Hload. congruence.
  - rewrite (load_undecodable w Hfile) in Hload. discriminate.
  - destruct (decoding w content) as [v|[| |]] eqn:Hv.
    + rewrite (load_returns_document w content v Hfile Hv) in Hload.
      cbn [fst] in Hload. assert (Ev : v = json_of_prefs d) by congruence.
      subst v. apply json_decode_loads in Hv.
      now apply (loaded_prefs_are_good content).
    + rewrite load_tolerates in Hload by (right; right; now exists content).
      apply Hempty. cbn [fst] in Hload. congruence.
    + rewrite (proj1 (load_meets_a_limit w content Hfile) Hv) in Hload. discriminate.
    + rewrite (proj2 (load_meets_a_limit w content Hfile) Hv) in Hload. discriminate.
Qed.

(** C6: saving a freshly loaded set and loading again gives the same
    mapping, for a mapping of any size (so for one of at most 1000
    entries): the save returns, the file then holds the dump of the
    mapping (or is untouched when it cannot be written), a load of it
    returns the mapping, and saving once more changes nothing. *)
Theorem save_of_load_round_trips (m : PreferenceManager) (w : world) :
  decoded (backing_file w) ->
  fst (_load_preferences_from_file w) = Returns (json_of_prefs (preferences m)) ->
  let w' := world_after _save_preferences_to_file m w in
  result_of _save_preferences_to_file m w = Returns tt /\
  self_after _save_preferences_to_file m w = m /\
  (writable w = true -> backing_file w' = Holding (json_dumps (preferences m))) /\
  (writable w = false -> w' = w) /\
  _load_preferences_from_file w' = (Returns (json_of_prefs (preferences m)), w') /\
  world_after _save_preferences_to_file m w' = w'.
Proof.
  intros Hdec Hload w'. subst w'.
  destruct (loaded_from_file_is_good w (preferences m) Hdec Hload) as [Hdict Hgood].
  unfold result_of, self_after, world_after. rewrite !save_runs. cbn [fst snd].
  unfold after_save.
  destruct (writable w) eqn:Hw.
  - cbn [writable with_backing_file]. rewrite Hw.
    repeat split; try reflexivity; try discriminate.
    apply load_returns_document with (content := json_dumps (preferences m));
      [reflexivity|].
    now apply decoding_dumps.
  - rewrite Hw. repeat split; try reflexivity; try discriminate.
    rewrite (surjective_pairing (_load_preferences_from_file w)).
    now rewrite Hload, load_leaves_world.
Qed.

Lemma save_of_load_round_trips_witness :
  let d := [(T "style", T "casual"); (T "note", [233; 32; 92; 32; 110]%N)] in
  let compact :=
    LBRACE :: QUOTE :: T "style" ++ QUOTE :: COLON :: QUOTE :: T "casual" ++
    QUOTE :: COMMA :: QUOTE :: T "note" ++ QUOTE :: COLON :: QUOTE ::
    [233; 32; 92; 92; 32; 110; 34; 125]%N in
  let m := manager_with d false in
  let w := world_with (Holding compact) (Results [] None) in
  let w' := world_after _save_preferences_to_file m w in
  backing_file w' = Holding (json_dumps d) /\
  json_dumps d <> compact /\
  _load_preferences_from_file w' = (Returns (json_of_prefs d), w').
Proof.
  intros d compact m w w'.
  assert (Hdec : decoded (backing_file w)).
  { cbn. unfold scalar_text. repeat constructor. }
  destruct (save_of_load_round_trips m w Hdec eq_refl) as [_ [_ [Hfile [_ [Hload _]]]]].
  split; [apply Hfile; reflexivity|]. split; [|exact Hload].
  vm_compute. discriminate.
Defined.

End RoundTrip.

(* ===================================================================== *)
(** * More on adding: the two entry points, the remote side, the file *)
(* ===================================================================== *)

Section AddingMore.

Lemma with_remote_log_unchanged (w : world) : with_remote_log (remote_log w) w = w.
Proof. now destruct w. Qed.

Lemma with_event_loop_same (l : loop_state) (w : world) :
  event_loop w = l -> with_event_loop l w = w.
Proof. intros <-. now destruct w. Qed.

(** The remote save, in full: it returns, leaves [self] alone, and sends
    one fact-generation call or none. *)
Lemma save_to_memory_bank_sends (key value : text) (m : PreferenceManager) (w : world) :
  _save_to_memory_bank key value (m, w) =
  (Returns tt,
   (m, with_remote_log
         (remote_log w ++
          match memory_service m with
          | Some svc =>
              if use_vertex_ai m && negb (is_generic value) && client_ok w
              then [Generate (agent_engine_name svc) (user_message value)
                             (assistant_message value) (user_id m)]
              else []
          | None => []
          end) w)).
Proof.
  unfold _save_to_memory_bank, bind at 1, get_self. cbn [fst].
  destruct (use_vertex_ai m) eqn:Huse.
  - destruct (memory_service m) as [svc|];
      [|now rewrite app_nil_r, with_remote_log_unchanged].
    unfold is_generic. destruct (contains GENERIC_PHRASE (lower value)).
    { cbn. now rewrite app_nil_r, with_remote_log_unchanged. }
    unfold client_ok, try_except, bind, in_world, Client, memories_generate,
      bind, log_call.
    cbn [fst snd]. destruct (client_raises w); cbn.
    { now rewrite app_nil_r, with_remote_log_unchanged. }
    destruct (generate_raises w); reflexivity.
  - cbn. destruct (memory_service m); now rewrite app_nil_r, with_remote_log_unchanged.
Qed.


(** X1: [add_preference] against [add_preference_async].  Both return,
    and leave the same manager and the same backing file.  On a loop that
    is not running they do the same in all.  Inside a running loop
    [add_preference] sends nothing: it hands the remote save to the loop,
    behind the coroutines that the loop holds already, and when the loop
    runs what it holds the save is made then; with nothing else waiting,
    the outcome is that of [add_preference_async].  Without a loop, or on
    a closed one, [add_preference] sends nothing at all. *)
Theorem add_preference_against_add_preference_async
        (key value : text) (m : PreferenceManager) (w : world) :
  let sync := add_preference key value in
  let async := add_preference_async key value in
  result_of sync m w = Returns tt /\
  result_of async m w = Returns tt /\
  self_after sync m w = self_after async m w /\
  same_store (world_after sync m w) (world_after async m w) /\
  match event_loop w with
  | LoopIdle => sync (m, w) = async (m, w)
  | LoopRunning pending =>
      remote_log (world_after sync m w) = remote_log w /\
      event_loop (world_after sync m w) =
        LoopRunning
          (pending ++
           if use_vertex_ai m then [(pref_id_for key m, value)] else []) /\
      (pending = [] -> (sync ;;; loop_runs_pending) (m, w) = async (m, w))
  | NoCurrentLoop | LoopClosed =>
      remote_log (world_after sync m w) = remote_log w /\
      event_loop (world_after sync m w) = event_loop w
  end.
Proof.
  intros sync async. subst sync async.
  unfold result_of, self_after, world_after, same_store, bind, loop_runs_pending.
  rewrite add_preference_runs, add_preference_async_runs. cbv zeta.
  set (m' := set_preferences _ m). set (w' := after_save _ w).
  pose proof (after_save_event_loop (preferences m') w) as Hloop. fold w' in Hloop.
  pose proof (after_save_remote_log (preferences m') w) as Hlog. fold w' in Hlog.
  destruct (use_vertex_ai m) eqn:Huse;
    destruct (event_loop w) as [| |pending|] eqn:Hev;
    rewrite ?save_to_memory_bank_sends;
    cbn [fst snd with_remote_log with_event_loop backing_file writable
         remote_log event_loop];
    rewrite ?app_nil_r; repeat split; try assumption.
  - intros ->. cbn [app run_each]. unfold bind, try_except.
    change (with_event_loop (LoopRunning [])
              (with_event_loop (LoopRunning [(pref_id_for key m, value)]) w'))
      with (with_event_loop (LoopRunning []) w').
    rewrite (with_event_loop_same (LoopRunning []) w' Hloop).
    now rewrite save_to_memory_bank_sends.
  - intros ->. rewrite Hloop. cbn [run_each ret].
    now rewrite (with_event_loop_same (LoopRunning []) w' Hloop).
Qed.

Lemma after_save_same_store (d : dict text) (w1 w2 : world) :
  same_store w1 w2 -> same_store (after_save d w1) (after_save d w2).
Proof.
  unfold same_store, after_save. intros [Hf Hw]. rewrite Hw.
  destruct (writable w2) eqn:E; simpl; split; congruence.
Qed.

(** X2: adding is local first.  [add_preference] always returns; the
    manager and the backing file it leaves do not depend on the remote
    side (whether the client can be built, whether the write raises, what
    was logged); and where the file can be written it holds the dump of
    the new preference set. *)
Theorem add_preference_does_not_depend_on_the_remote
        (key value : text) (m : PreferenceManager) (w1 w2 : world) :
  same_store w1 w2 ->
  result_of (add_preference key value) m w1 = Returns tt /\
  self_after (add_preference key value) m w1 =
    self_after (add_preference key value) m w2 /\
  same_store (world_after (add_preference key value) m w1)
             (world_after (add_preference key value) m w2) /\
  (writable w1 = true ->
   backing_file (world_after (add_preference key value) m w1) =
   Holding (json_dumps (preferences (self_after (add_preference key value) m w1)))).
Proof.
  intros Hsame. unfold result_of, self_after, world_after.
  destruct (add_preference_effect key value m w1) as [w1' [E1 [F1 W1]]].
  destruct (add_preference_effect key value m w2) as [w2' [E2 [F2 W2]]].
  rewrite E1, E2. cbn [fst snd preferences set_preferences].
  split; [reflexivity|]. split; [reflexivity|]. split.
  - pose proof (after_save_same_store
                  (dict_set (pref_id_for key m) value (preferences m)) w1 w2 Hsame)
      as [Hf _].
    destruct Hsame as [_ Hw]. split; congruence.
  - intros Hw. rewrite F1. now apply after_save_writable.
Qed.

Lemma add_preference_does_not_depend_on_the_remote_witness :
  let m := manager_with [(T "style", T "casual")] true in
  let w1 := world_with Missing (Results [] None) in
  let w2 := {| backing_file := Missing; writable := true;
               nesting_room := 0; int_max_str_digits := 4300;
               client_raises := None; retrieve_reply := RetrieveRaises ServiceError;
               generate_raises := Some ServiceError;
               remote_log := [Retrieve [] [] []];
               event_loop := NoCurrentLoop |} in
  self_after (add_preference (T "pref_") (T "likes wool")) m w1 =
  self_after (add_preference (T "pref_") (T "likes wool")) m w2 /\
  backing_file (world_after (add_preference (T "pref_") (T "likes wool")) m w2) =
  Holding (json_dumps [(T "style", T "casual"); (T "pref_2", T "likes wool")]).
Proof.
  intros m w1 w2.
  assert (Hsame : same_store w1 w2) by (split; reflexivity).
  destruct (add_preference_does_not_depend_on_the_remote
              (T "pref_") (T "likes wool") m w1 w2 Hsame) as [_ [Hself [[Hfile _] Hdump]]].
  split; [exact Hself|].
  rewrite <- Hfile. rewrite (Hdump eq_refl). reflexivity.
Defined.


End AddingMore.

(* ===================================================================== *)
(** * What a save leaves in the file *)
(* ===================================================================== *)

Section WriteThrough.
Open Scope N_scope.

Lemma small_text_good (s : text) :
  forallb (fun c => c <? 55296) s = true -> good_text s = true.
Proof.
  induction s as [|c s IH]; intros H; [reflexivity|].
  cbn [forallb] in H. apply andb_true_iff in H as [Hc Hs].
  apply N.ltb_lt in Hc. destruct (small_facts c Hc) as [S1 [S2 _]].
  apply good_text_cons_intro; [assumption|now apply IH|congruence].
Qed.

Lemma digits_small (d : Decimal.uint) :
  forallb (fun c => c <? 55296) (digits d) = true.
Proof. induction d; simpl; try reflexivity; exact IHd. Qed.

Lemma pref_key_good (n : nat) : good_text (pref_key n) = true.
Proof.
  apply small_text_good. unfold pref_key. rewrite forallb_app.
  apply andb_true_iff. split; [reflexivity|apply digits_small].
Qed.

Lemma dict_set_good_items (k v : text) (d : dict text) :
  Forall good_item d -> good_item (k, v) -> Forall good_item (dict_set k v d).
Proof.
  intros Hd Hkv. induction d as [|[k' v'] d IH]; cbn [dict_set].
  - now constructor.
  - apply Forall_cons_iff in Hd as [Hhead Htail].
    destruct (text_eqb k' k) eqn:E.
    + apply text_eqb_eq in E. subst k'. now constructor.
    + constructor; [assumption|now apply IH].
Qed.

Lemma pref_id_for_good (key : text) (m : PreferenceManager) :
  good_text key = true -> good_text (pref_id_for key m) = true.
Proof.
  intros H. unfold pref_id_for.
  destruct (startswith key (T "pref_")); [apply pref_key_good|exact H].
Qed.

(** X4: write-through.  After [add_preference] in a world whose file can
    be written, a fresh load returns exactly the in-memory preference
    set, the new entry included: provided the strings involved are ones
    the codec preserves. *)
Theorem add_then_load_returns_the_store
        (key value : text) (m : PreferenceManager) (w : world) :
  writable w = true ->
  is_dict (preferences m) ->
  Forall good_item (preferences m) ->
  good_text key = true ->
  good_text value = true ->
  let m' := self_after (add_preference key value) m w in
  let w' := world_after (add_preference key value) m w in
  dict_get (pref_id_for key m) (preferences m') = Some value /\
  _load_preferences_from_file w' = (Returns (json_of_prefs (preferences m')), w').
Proof.
  intros Hw Hdict Hgood Hkey Hvalue m' w'. subst m' w'.
  unfold self_after, world_after.
  destruct (add_preference_effect key value m w) as [w1 [E [Hfile _]]].
  rewrite E. cbn [fst snd preferences set_preferences].
  split; [apply dict_get_set_same|].
  rewrite (after_save_writable _ _ Hw) in Hfile.
  apply load_returns_document with (1 := Hfile).
  apply decoding_dumps.
  - now apply dict_set_is_dict.
  - apply dict_set_good_items; [assumption|].
    split; [now apply pref_id_for_good|assumption].
Qed.

Lemma add_then_load_returns_the_store_witness :
  let m := manager_with [(T "style", T "casual")] true in
  let w := world_with Garbled (Results [] None) in
  let value := [34; 233; 128512; 10]%N in
  let w' := world_after (add_preference (T "pref_") value) m w in
  _load_preferences_from_file w' =
  (Returns (json_of_prefs [(T "style", T "casual"); (T "pref_2", value)]), w').
Proof.
  intros m w value w'.
  assert (Hd : is_dict (preferences m)).
  { unfold is_dict. cbn. constructor; [intros []|constructor]. }
  assert (Hg : Forall good_item (preferences m)).
  { cbn. constructor; [split; reflexivity|constructor]. }
  exact (proj2 (add_then_load_returns_the_store (T "pref_") value m w
                  eq_refl Hd Hg eq_refl eq_refl)).
Defined.

Lemma hex_digit_plain (d : N) : d < 16 -> plain_ascii (hex_digit d) = true.
Proof.
  intros H. unfold plain_ascii, hex_digit.
  destruct (d <? 10) eqn:E.
  - apply N.ltb_lt in E. apply orb_true_iff. right.
    apply andb_true_iff. split; apply N.leb_le; lia.
  - apply N.ltb_ge in E. apply orb_true_iff. right.
    apply andb_true_iff. split; apply N.leb_le; lia.
Qed.

Lemma u_escape_plain (n : N) : forallb plain_ascii (u_escape n) = true.
Proof.
  unfold u_escape, hex4. cbn [forallb].
  rewrite !hex_digit_plain by (apply N.mod_lt; lia). reflexivity.
Qed.

Lemma escape_cp_plain (c : N) : forallb plain_ascii (escape_cp c) = true.
Proof.
  unfold escape_cp.
  destruct (c =? QUOTE); [reflexivity|].
  destruct (c =? BACKSLASH); [reflexivity|].
  destruct ((32 <=? c) && (c <=? 126)) eqn:E.
  { cbn [forallb]. unfold plain_ascii. rewrite E. now rewrite orb_true_r. }
  destruct (c =? 8); [reflexivity|].
  destruct (c =? 12); [reflexivity|].
  destruct (c =? 10); [reflexivity|].
  destruct (c =? 13); [reflexivity|].
  destruct (c =? 9); [reflexivity|].
  destruct (c <? 65536); [apply u_escape_plain|].
  rewrite forallb_app, !u_escape_plain. reflexivity.
Qed.

Lemma encode_plain (s : text) : forallb plain_ascii (encode_basestring_ascii s) = true.
Proof.
  unfold encode_basestring_ascii. cbn [forallb].
  rewrite forallb_app. cbn. rewrite andb_true_r.
  induction s as [|c s IH]; [reflexivity|].
  cbn [flat_map]. now rewrite forallb_app, escape_cp_plain, IH.
Qed.

Lemma dump_item_plain (kv : text * text) : forallb plain_ascii (dump_item kv) = true.
Proof.
  unfold dump_item. rewrite !forallb_app, !encode_plain. reflexivity.
Qed.

Lemma json_dumps_plain (d : dict text) : forallb plain_ascii (json_dumps d) = true.
Proof.
  destruct d as [|kv rest]; [reflexivity|].
  unfold json_dumps.
  change (LBRACE :: ?r) with ([LBRACE] ++ r).
  rewrite !forallb_app, dump_item_plain.
  assert (Hrest : forallb plain_ascii
            (flat_map (fun kv' => COMMA :: newline_indent ++ dump_item kv') rest) = true).
  { induction rest as [|kv' rest IH]; [reflexivity|].
    cbn [flat_map]. rewrite forallb_app, IH.
    cbn [forallb]. rewrite forallb_app, dump_item_plain. reflexivity. }
  rewrite Hrest. reflexivity.
Qed.

Lemma plain_ascii_scalar (c : N) : plain_ascii c = true -> is_scalar c = true.
Proof.
  unfold plain_ascii, is_scalar. intros H.
  assert (Hc : c < 128).
  { apply orb_true_iff in H as [H|H].
    - apply N.eqb_eq in H. lia.
    - apply andb_true_iff in H as [_ H]. apply N.leb_le in H. lia. }
  apply andb_true_iff. split; [apply N.ltb_lt; lia|].
  apply negb_true_iff. apply andb_false_iff. left. apply N.leb_gt. lia.
Qed.

(** X5: a save writes plain ASCII.  Where the file can be written, what
    [_save_preferences_to_file] leaves in it consists of line feeds and
    printable ASCII characters only, whatever the preferences contain; so
    the file decodes, and loading it afterwards returns and does not
    raise. *)
Theorem saved_file_is_plain_ascii (m : PreferenceManager) (w : world) :
  writable w = true ->
  let w' := world_after _save_preferences_to_file m w in
  exists content,
    backing_file w' = Holding content /\
    forallb plain_ascii content = true /\
    decoded (backing_file w') /\
    exists v, _load_preferences_from_file w' = (Returns v, w').
Proof.
  intros Hw w'. subst w'. unfold world_after. rewrite save_runs. cbn [snd].
  exists (json_dumps (preferences m)).
  pose proof (after_save_writable (preferences m) w Hw) as Hfile.
  split; [exact Hfile|]. split; [apply json_dumps_plain|]. split.
  - rewrite Hfile. cbn. unfold scalar_text. apply Forall_forall.
    intros c Hin. apply plain_ascii_scalar.
    pose proof (json_dumps_plain (preferences m)) as Hall.
    rewrite forallb_forall in Hall. now apply Hall.
  - destruct (json_decode_dumps_any (nesting_room (after_save (preferences m) w))
                                    (int_max_str_digits (after_save (preferences m) w))
                                    (preferences m)) as [v E].
    exists v. now apply load_returns_document with (content := json_dumps (preferences m)).
Qed.

Lemma saved_file_is_plain_ascii_witness :
  let m := manager_with [(T "note", [233; 128512; 9; 55357; 56832]%N)] false in
  let w := world_with Garbled (Results [] None) in
  exists content,
    backing_file (world_after _save_preferences_to_file m w) = Holding content /\
    forallb plain_ascii content = true.
Proof.
  intros m w.
  destruct (saved_file_is_plain_ascii m w eq_refl) as [content [Hfile [Hplain _]]].
  now exists content.
Defined.

End WriteThrough.

(* ===================================================================== *)
(** * The life of a manager: what every operation keeps *)
(* ===================================================================== *)

Section Lifetime.

Lemma add_preference_async_effect (key value : text) (m : PreferenceManager) (w : world) :
  exists w',
    add_preference_async key value (m, w) =
    (Returns tt,
     (set_preferences (dict_set (pref_id_for key m) value (preferences m)) m, w')).
Proof.
  rewrite add_preference_async_runs. cbv zeta.
  destruct (use_vertex_ai m); [|eexists; reflexivity].
  match goal with
  | |- context [_save_to_memory_bank ?k ?v (?m1, ?w1)] =>
      destruct (save_to_memory_bank_frame k v m1 w1) as [w' [-> _]]
  end.
  now exists w'.
Qed.

Lemma initialize_self (m : PreferenceManager) (w : world) :
  exists src,
    self_after initialize_memory_bank m w =
    set_preferences_loaded_from src
      (set_preferences
         (dict_update (preferences m) (synthetic_entries (merged_in m w))) m).
Proof.
  unfold self_after, merged_in.
  destruct (remote_enabled m) eqn:Hen.
  - destruct (retrieval_fails w) eqn:Hfail; cbn [andb negb].
    + destruct (initialize_fails m w Hen Hfail) as [w' [-> _]].
      exists LOCAL_FILE. reflexivity.
    + destruct (initialize_ok m w Hen Hfail) as [w' [-> _]].
      eexists. reflexivity.
  - rewrite (initialize_disabled m w Hen). exists (preferences_loaded_from m).
    now destruct m.
Qed.

Lemma initialize_world (m : PreferenceManager) (svc : VertexAiMemoryBankService)
      (w : world) :
  use_vertex_ai m = true ->
  memory_service m = Some svc ->
  retrieval_fails w = false ->
  world_after initialize_memory_bank m w =
  if nonempty (accepted_in w)
  then after_save (dict_update (preferences m) (synthetic_entries (accepted_in w)))
                  (after_retrieve svc m w)
  else after_retrieve svc m w.
Proof.
  intros Huse Hsvc Hok. unfold world_after.
  unfold initialize_memory_bank, bind at 1, get_self. cbn [fst].
  rewrite Huse, Hsvc. unfold try_except, bind.
  rewrite (load_from_memory_bank_ok m svc w Huse Hsvc Hok). cbv zeta.
  destruct (accepted_in w) as [|fact facts] eqn:Eacc; reflexivity.
Qed.


Lemma perform_preferences (o : operation) (m : PreferenceManager) (w : world) :
  preferences (self_after (perform o) m w) =
  match o with
  | DoAdd key value | DoAddAsync key value =>
      dict_set (pref_id_for key m) value (preferences m)
  | DoClear => []
  | DoSync => dict_update (preferences m) (synthetic_entries (merged_in m w))
  end.
Proof.
  unfold self_after. destruct o as [key value|key value| |]; cbn [perform].
  - destruct (add_preference_effect key value m w) as [w' [-> _]]. reflexivity.
  - destruct (add_preference_async_effect key value m w) as [w' ->]. reflexivity.
  - now rewrite clear_preferences_runs.
  - apply initialize_preferences.
Qed.

Lemma perform_keeps (o : operation) (m : PreferenceManager) (w : world) :
  let m' := self_after (perform o) m w in
  user_id m' = user_id m /\
  use_vertex_ai m' = use_vertex_ai m /\
  memory_service m' = memory_service m.
Proof.
  cbv zeta. destruct o as [key value|key value| |]; cbn [perform].
  - unfold self_after.
    destruct (add_preference_effect key value m w) as [w' [-> _]]. now repeat split.
  - unfold self_after.
    destruct (add_preference_async_effect key value m w) as [w' ->]. now repeat split.
  - unfold self_after. rewrite clear_preferences_runs. now repeat split.
  - destruct (initialize_self m w) as [src ->]. now repeat split.
Qed.

Lemma perform_is_dict (o : operation) (m : PreferenceManager) (w : world) :
  is_dict (preferences m) -> is_dict (preferences (self_after (perform o) m w)).
Proof.
  intros H. rewrite perform_preferences. destruct o.
  - now apply dict_set_is_dict.
  - now apply dict_set_is_dict.
  - constructor.
  - now apply dict_update_is_dict.
Qed.

(** X6: whatever sequence of [add_preference], [add_preference_async],
    [clear_preferences] and [initialize_memory_bank] a manager goes
    through, in whatever worlds, its user id, its [use_vertex_ai] flag and
    its memory service stay those it was constructed with (a failing remote
    call does not switch the remote side off), and its keys stay pairwise
    distinct. *)
Theorem operations_keep_identity_and_remote_setup (m0 m : PreferenceManager) :
  reachable m0 m ->
  user_id m = user_id m0 /\
  use_vertex_ai m = use_vertex_ai m0 /\
  memory_service m = memory_service m0 /\
  (is_dict (preferences m0) -> is_dict (preferences m)).
Proof.
  induction 1 as [|m o w Hreach [Hid [Huse [Hsvc Hdict]]]].
  - now repeat split.
  - destruct (perform_keeps o m w) as [Hid' [Huse' Hsvc']].
    repeat split; try congruence.
    intros H0. apply perform_is_dict. now apply Hdict.
Qed.

Lemma operations_keep_identity_and_remote_setup_witness :
  let m0 := manager_with [(T "style", T "casual")] true in
  let failing := {| backing_file := Locked; writable := false;
                    nesting_room := 0; int_max_str_digits := 4300;
                    client_raises := Some ServiceError;
                    retrieve_reply := RetrieveRaises ServiceError;
                    generate_raises := Some ServiceError;
                    remote_log := [];
                    event_loop := LoopClosed |} in
  let m := self_after (perform DoSync)
             (self_after (perform (DoAdd (T "pref_") (T "likes wool"))) m0 failing)
             failing in
  use_vertex_ai m = true /\ memory_service m = memory_service m0.
Proof.
  intros m0 failing m.
  assert (R : reachable m0 m).
  { apply reach_step. apply reach_step. apply reach_start. }
  destruct (operations_keep_identity_and_remote_setup m0 m R) as [_ [Huse [Hsvc _]]].
  split; [exact Huse|exact Hsvc].
Defined.


End Lifetime.

(* ===================================================================== *)
(** * Numbered keys: when [pref_{len + 1}] is a new key *)
(* ===================================================================== *)

Section Numbering.

Lemma dict_set_length_ge (k v : text) (d : dict text) :
  List.length d <= List.length (dict_set k v d).
Proof.
  destruct (dict_get k d) eqn:E.
  - rewrite dict_set_length_present; [lia|congruence].
  - rewrite (dict_set_fresh _ k v d E), length_app. simpl. lia.
Qed.

Lemma dict_update_length_ge (d other : dict text) :
  List.length d <= List.length (dict_update d other).
Proof.
  unfold dict_update. revert d.
  induction other as [|[k v] other IH]; intros d; cbn [fold_left fst snd]; [lia|].
  etransitivity; [apply (dict_set_length_ge k v d)|apply IH].
Qed.

Lemma dict_update_length_ge_other (d other : dict text) :
  is_dict other -> List.length other <= List.length (dict_update d other).
Proof.
  intros Hother.
  rewrite <- (length_map fst other), <- (length_map fst (dict_update d other)).
  apply NoDup_incl_length; [exact Hother|].
  intros k Hin.
  destruct (dict_get k (dict_update d other)) as [v|] eqn:E.
  - apply dict_get_In in E. change k with (fst (k, v)). now apply in_map.
  - rewrite (dict_get_update _ k d other Hother) in E.
    destruct (dict_get k other) eqn:E'; [discriminate|].
    apply dict_get_None_notin in E'. contradiction.
Qed.

Lemma dict_get_set_cases (k k' v : text) (d : dict text) :
  dict_get k' (dict_set k v d) <> None -> k' = k \/ dict_get k' d <> None.
Proof.
  intros H. destruct (text_eqb k k') eqn:E.
  - apply text_eqb_eq in E. now left.
  - apply text_eqb_neq in E. right. now rewrite dict_get_set_other in H.
Qed.

Lemma sentinel_is_fresh (d : dict text) :
  numbered_within d -> dict_get (pref_key (List.length d + 1)) d = None.
Proof.
  intros Hnum. destruct (dict_get (pref_key (List.length d + 1)) d) eqn:E; [|reflexivity].
  assert (H : List.length d + 1 <= List.length d) by (apply Hnum; congruence). lia.
Qed.

Lemma numbered_within_add (key value : text) (m : PreferenceManager) :
  numbered_within (preferences m) ->
  numbered_within (dict_set (pref_id_for key m) value (preferences m)).
Proof.
  intros Hnum n Hn. unfold pref_id_for in *.
  destruct (startswith key (T "pref_")) eqn:Hkey.
  - destruct (dict_get_set_cases _ _ _ _ Hn) as [E|E].
    + apply pref_key_inj in E.
      rewrite (dict_set_fresh _ _ value _ (sentinel_is_fresh _ Hnum)), length_app.
      cbn [List.length]. lia.
    + apply Hnum in E.
      pose proof (dict_set_length_ge (pref_key (List.length (preferences m) + 1))
                                     value (preferences m)). lia.
  - destruct (dict_get_set_cases _ _ _ _ Hn) as [E|E].
    + subst key. now rewrite pref_key_sentinel in Hkey.
    + apply Hnum in E. pose proof (dict_set_length_ge key value (preferences m)). lia.
Qed.

Lemma numbered_within_sync (d : dict text) (facts : list text) :
  numbered_within d -> numbered_within (dict_update d (synthetic_entries facts)).
Proof.
  intros Hnum n Hn. unfold synthetic_entries in *.
  rewrite (dict_get_update _ _ d _ (number_from_is_dict 1 facts)) in Hn.
  destruct (dict_get (pref_key n) (number_from 1 facts)) eqn:E.
  - assert (Hin : 1 <= n < 1 + List.length facts).
    { destruct (Nat.lt_ge_cases n 1) as [Hlt|Hge].
      - rewrite number_from_get_out in E; [discriminate|now left].
      - destruct (Nat.lt_ge_cases n (1 + List.length facts)) as [Hlt|Hge']; [lia|].
        rewrite number_from_get_out in E; [discriminate|now right]. }
    pose proof (dict_update_length_ge_other d _ (number_from_is_dict 1 facts)) as Hlen.
    rewrite number_from_length in Hlen. lia.
  - apply Hnum in Hn. pose proof (dict_update_length_ge d (number_from 1 facts)). lia.
Qed.

Lemma perform_numbered (o : operation) (m : PreferenceManager) (w : world) :
  numbered_within (preferences m) ->
  numbered_within (preferences (self_after (perform o) m w)).
Proof.
  intros Hnum. rewrite perform_preferences. destruct o.
  - now apply numbered_within_add.
  - now apply numbered_within_add.
  - intros n Hn. now elim Hn.
  - now apply numbered_within_sync.
Qed.

(** X8: automatic keys do not collide in a store that the manager built
    itself.  Start from a store in which every key [pref_N] has [N] at most
    the number of entries (the empty store is one); after any sequence of
    adds, syncs and clears that still holds, and therefore an add under a
    key that starts with [pref_] appends a new entry [pref_{len + 1}] and
    leaves every earlier entry as it was. *)
Theorem automatic_keys_are_new_in_a_store_built_by_the_manager
        (m0 m : PreferenceManager) :
  numbered_within (preferences m0) ->
  reachable m0 m ->
  numbered_within (preferences m) /\
  forall key value w,
    startswith key (T "pref_") = true ->
    preferences (self_after (add_preference key value) m w) =
    preferences m ++ [(pref_key (List.length (preferences m) + 1), value)].
Proof.
  intros H0 Hreach.
  assert (Hnum : numbered_within (preferences m)).
  { induction Hreach as [|m o w Hreach IH]; [assumption|].
    now apply perform_numbered. }
  split; [assumption|].
  intros key value w Hkey.
  change (add_preference key value) with (perform (DoAdd key value)).
  rewrite perform_preferences. unfold pref_id_for. rewrite Hkey.
  apply dict_set_fresh. now apply sentinel_is_fresh.
Qed.

Lemma automatic_keys_are_new_in_a_store_built_by_the_manager_witness :
  let m0 := manager_with [] true in
  let w := world_with Missing
             (Results [Memory (Some (T "prefers wool")); Memory (Some (T "casual style"))]
                      None) in
  let m := self_after (perform (DoAdd (T "note") (T "no hats")))
             (self_after (perform DoSync) m0 w) w in
  preferences (self_after (add_preference (T "pref_") (T "likes blue")) m w) =
  preferences m ++ [(T "pref_4", T "likes blue")].
Proof.
  intros m0 w m.
  assert (H0 : numbered_within (preferences m0)).
  { intros n Hn. now elim Hn. }
  assert (R : reachable m0 m).
  { apply reach_step. apply reach_step. apply reach_start. }
  exact (proj2 (automatic_keys_are_new_in_a_store_built_by_the_manager m0 m H0 R)
               (T "pref_") (T "likes blue") w eq_refl).
Defined.

End Numbering.

(* ===================================================================== *)
(** * More on sync: the remote side, the file, running it again *)
(* ===================================================================== *)

Section SyncMore.

Lemma load_from_memory_bank_fails_world (m : PreferenceManager)
      (svc : VertexAiMemoryBankService) (w : world) :
  use_vertex_ai m = true ->
  memory_service m = Some svc ->
  retrieval_fails w = true ->
  load_from_memory_bank (m, w) =
  (Returns [], (m, if client_ok w then after_retrieve svc m w else w)).
Proof.
  intros Huse Hsvc Hfail.
  unfold load_from_memory_bank, bind at 1, get_self. cbn [fst].
  rewrite Huse, Hsvc.
  unfold try_except, bind, in_world, Client, client_ok. simpl.
  destruct (client_raises w) eqn:Ec; simpl; [reflexivity|].
  unfold memories_retrieve, log_call, bind. simpl.
  unfold retrieval_fails in Hfail. rewrite Ec in Hfail. simpl in Hfail.
  destruct (retrieve_reply w) as [e|yielded ending] eqn:Er; simpl; [reflexivity|].
  unfold with_local, bind.
  destruct (existsb escapes_loop yielded) eqn:Hesc.
  - destruct (for_results_escapes yielded Hesc []) as [e [l' Hl]].
    rewrite Hl. reflexivity.
  - pose proof (for_results_ok yielded Hesc []) as Hloop.
    change (synthetic_entries []) with (@nil (text * text)) in Hloop.
    rewrite Hloop. simpl in Hfail. destruct ending; [|discriminate]. reflexivity.
Qed.

Lemma initialize_world_fails (m : PreferenceManager)
      (svc : VertexAiMemoryBankService) (w : world) :
  use_vertex_ai m = true ->
  memory_service m = Some svc ->
  retrieval_fails w = true ->
  world_after initialize_memory_bank m w =
  if client_ok w then after_retrieve svc m w else w.
Proof.
  intros Huse Hsvc Hfail. unfold world_after.
  unfold initialize_memory_bank, bind at 1, get_self. cbn [fst].
  rewrite Huse, Hsvc. unfold try_except, bind.
  rewrite (load_from_memory_bank_fails_world m svc w Huse Hsvc Hfail). reflexivity.
Qed.

Lemma retrieval_ok_client_ok (w : world) :
  retrieval_fails w = false -> client_ok w = true.
Proof.
  unfold retrieval_fails, client_ok. intros H.
  apply orb_false_iff in H as [H _]. now destruct (client_raises w).
Qed.

(** X9: what a sync costs.  [initialize_memory_bank] sends the remote
    service one retrieval call when the remote side is in use and the
    client can be made, and nothing otherwise; it never sends a generation
    call.  It writes the backing file exactly when it merged at least one
    fact (and the file can be written), and then the file holds the dump
    of the merged preferences. *)
Theorem sync_sends_one_retrieval_and_saves_only_a_merge
        (m : PreferenceManager) (w : world) :
  let w' := world_after initialize_memory_bank m w in
  remote_log w' =
  remote_log w ++
  match memory_service m with
  | Some svc =>
      if use_vertex_ai m && client_ok w
      then [Retrieve (agent_engine_name svc) (user_id m) SEARCH_QUERY]
      else []
  | None => []
  end /\
  backing_file w' =
  if nonempty (merged_in m w) && writable w
  then Holding (json_dumps (preferences (self_after initialize_memory_bank m w)))
  else backing_file w.
Proof.
  cbv zeta.
  rewrite (proj2 (initialize_preferences m w)).
  unfold merged_in.
  destruct (remote_enabled m) eqn:Hen.
  - destruct (remote_enabled_inv _ Hen) as [Huse [svc Hsvc]].
    rewrite Hsvc, Huse. cbn [andb].
    destruct (retrieval_fails w) eqn:Hfail; cbn [negb].
    + rewrite (initialize_world_fails m svc w Huse Hsvc Hfail).
      destruct (client_ok w); cbn; [now split|].
      now rewrite app_nil_r.
    + rewrite (initialize_world m svc w Huse Hsvc Hfail).
      rewrite (retrieval_ok_client_ok w Hfail).
      destruct (nonempty (accepted_in w)); cbn [andb].
      * rewrite after_save_remote_log. split; [reflexivity|].
        unfold after_save, after_retrieve. cbn.
        now destruct (writable w).
      * now split.
  - unfold world_after. rewrite (initialize_disabled m w Hen). cbn [snd andb].
    split; [|reflexivity].
    unfold remote_enabled in Hen.
    destruct (memory_service m); [|now rewrite app_nil_r].
    cbn in Hen. rewrite andb_true_r in Hen. rewrite Hen. cbn.
    now rewrite app_nil_r.
Qed.

Lemma dict_set_same_value (k v : text) (d : dict text) :
  dict_get k d = Some v -> dict_set k v d = d.
Proof.
  induction d as [|[k' v'] d IH]; cbn [dict_get dict_set]; [discriminate|].
  destruct (text_eqb k' k) eqn:E.
  - apply text_eqb_eq in E. intros [= ->]. now subst.
  - intros H. now rewrite IH.
Qed.

Lemma dict_update_absorbed (d other : dict text) :
  (forall k v, In (k, v) other -> dict_get k d = Some v) ->
  dict_update d other = d.
Proof.
  unfold dict_update.
  induction other as [|[k v] other IH]; intros H; cbn [fold_left fst snd]; [reflexivity|].
  rewrite dict_set_same_value by (apply H; now left).
  apply IH. intros k' v' Hin. apply H. now right.
Qed.

Lemma dict_update_idempotent (d other : dict text) :
  is_dict other -> dict_update (dict_update d other) other = dict_update d other.
Proof.
  intros Hother. apply dict_update_absorbed. intros k v Hin.
  rewrite (dict_get_update _ k d other Hother).
  now rewrite (dict_In_get _ k v other Hother Hin).
Qed.

(** X10: a sync run again changes nothing more.  When a second
    [initialize_memory_bank] meets the same answer from the remote
    service as the first (the same client outcome, the same reply), the
    preferences after the second are those after the first: the same
    entries in the same order. *)
Theorem sync_again_changes_nothing_more (m : PreferenceManager) (w1 w2 : world) :
  client_raises w2 = client_raises w1 ->
  retrieve_reply w2 = retrieve_reply w1 ->
  let m1 := self_after initialize_memory_bank m w1 in
  preferences (self_after initialize_memory_bank m1 w2) = preferences m1.
Proof.
  intros Hclient Hreply. cbv zeta.
  rewrite (proj2 (initialize_preferences (self_after initialize_memory_bank m w1) w2)).
  rewrite (proj2 (initialize_preferences m w1)).
  assert (Hmerged : merged_in (self_after initialize_memory_bank m w1) w2 = merged_in m w1).
  { unfold merged_in, remote_enabled, retrieval_fails, accepted_in.
    destruct (perform_keeps DoSync m w1) as [_ [Huse Hsvc]]. cbn [perform] in Huse, Hsvc.
    now rewrite Huse, Hsvc, Hclient, Hreply. }
  rewrite Hmerged. apply dict_update_idempotent. apply number_from_is_dict.
Qed.

Lemma sync_again_changes_nothing_more_witness :
  let m := manager_with [(T "pref_1", T "likes hats"); (T "note", T "no wool")] true in
  let reply := Results [Memory (Some (T "prefers linen")); Memory (Some (T "casual style"))]
                       None in
  let w1 := world_with Missing reply in
  let m1 := self_after initialize_memory_bank m w1 in
  let w2 := world_after initialize_memory_bank m w1 in
  preferences m1 = [(T "pref_1", T "prefers linen"); (T "note", T "no wool");
                    (T "pref_2", T "casual style")] /\
  preferences (self_after initialize_memory_bank m1 w2) = preferences m1.
Proof.
  intros m reply w1 m1 w2. split; [reflexivity|].
  apply (sync_again_changes_nothing_more m w1 w2); reflexivity.
Defined.

End SyncMore.

(* ===================================================================== *)
(** * Construction *)
(* ===================================================================== *)

Section Construction.

Lemma init_after_load (env : startup) (use : bool)
      (project_id location agent_engine_id : option text) (user_id : text)
      (w : world) (loaded : json) :
  mkdir_raises env = None ->
  _load_preferences_from_file w = (Returns loaded, w) ->
  exists c,
    __init__ env use project_id location agent_engine_id user_id w = (Returns c, w) /\
    c_preferences c = loaded /\ c_user_id c = user_id /\
    c_preferences_loaded_from c = LOCAL_FILE /\
    c_use_vertex_ai c = is_some (c_memory_service c) /\
    c_use_vertex_ai c =
    use && VERTEX_AI_AVAILABLE env &&
    (truthy_opt project_id && truthy_opt location && truthy_opt agent_engine_id) &&
    negb (is_some (service_raises env)).
Proof.
  intros Hmk Hload.
  unfold __init__, bind, if_raises. rewrite Hmk, Hload.
  destruct (use && VERTEX_AI_AVAILABLE env); cbn [andb].
  - destruct (truthy_opt project_id && truthy_opt location && truthy_opt agent_engine_id);
      cbn [andb].
    + unfold try_except, ret. destruct (service_raises env); cbn.
      * eexists. split; [reflexivity|]. now repeat split.
      * eexists. split; [reflexivity|]. now repeat split.
    + eexists. split; [reflexivity|]. now repeat split.
  - eexists. split; [reflexivity|]. now repeat split.
Qed.

(** The constructor raises what the directory or the load raises, and
    nothing else. *)
Lemma init_raises (env : startup) (use : bool)
      (project_id location agent_engine_id : option text) (user_id : text)
      (w : world) (e : exn) :
  fst (__init__ env use project_id location agent_engine_id user_id w) = Raises e <->
  mkdir_raises env = Some e \/
  (mkdir_raises env = None /\ fst (_load_preferences_from_file w) = Raises e).
Proof.
  pose proof (load_leaves_world w) as Hw.
  destruct (mkdir_raises env) as [e0|] eqn:Hmk.
  - unfold __init__, bind, if_raises. rewrite Hmk. cbn [fst].
    split; [intros [= ->]; now left|].
    intros [[= ->]|[H _]]; [reflexivity|discriminate].
  - destruct (_load_preferences_from_file w) as [[loaded|e0] w1] eqn:Hload;
      cbn [snd] in Hw; subst w1.
    + destruct (init_after_load env use project_id location agent_engine_id
                                user_id w loaded Hmk Hload) as [c [-> _]].
      cbn [fst]. split; [discriminate|]. intros [H|[_ H]]; discriminate.
    + unfold __init__, bind, if_raises. rewrite Hmk, Hload. cbn [fst].
      split; [intros [= ->]; now right|].
      intros [H|[_ [= ->]]]; [discriminate|reflexivity].
Qed.

(** X11: what the constructor builds.  The object that [__init__] returns
    has the user id it was given, attributes its preferences to the local
    file, and holds what [_load_preferences_from_file] returned; the world
    is as before.  Its [use_vertex_ai] flag is set exactly when a memory
    service was attached, and that happens exactly when the caller asked
    for it, the SDK was importable, project, location and engine id are
    all non-empty, and building the service did not raise.  The same holds
    of it as a manager of a dictionary of strings, when the file held
    one. *)
Theorem constructor_enables_remote_only_with_a_service
        (env : startup) (use : bool)
        (project_id location agent_engine_id : option text) (user_id : text)
        (w w' : world) (c : constructed) :
  __init__ env use project_id location agent_engine_id user_id w = (Returns c, w') ->
  w' = w /\
  _load_preferences_from_file w = (Returns (c_preferences c), w) /\
  c_user_id c = user_id /\
  c_preferences_loaded_from c = LOCAL_FILE /\
  c_use_vertex_ai c = is_some (c_memory_service c) /\
  c_use_vertex_ai c =
  use && VERTEX_AI_AVAILABLE env &&
  (truthy_opt project_id && truthy_opt location && truthy_opt agent_engine_id) &&
  negb (is_some (service_raises env)) /\
  forall m,
    as_manager c = Some m ->
    Manager.user_id m = user_id /\
    preferences_loaded_from m = LOCAL_FILE /\
    (exists loaded, _load_preferences_from_file w = (Returns loaded, w) /\
                    as_preferences loaded = Some (preferences m)) /\
    use_vertex_ai m = is_some (memory_service m) /\
    use_vertex_ai m =
    use && VERTEX_AI_AVAILABLE env &&
    (truthy_opt project_id && truthy_opt location && truthy_opt agent_engine_id) &&
    negb (is_some (service_raises env)).
Proof.
  intros H.
  destruct (mkdir_raises env) as [e|] eqn:Hmk.
  { unfold __init__, bind, if_raises in H. rewrite Hmk in H. discriminate. }
  pose proof (load_leaves_world w) as Hw.
  destruct (_load_preferences_from_file w) as [[loaded|e] w1] eqn:Hload;
    cbn [snd] in Hw; subst w1.
  2:{ unfold __init__, bind, if_raises in H. rewrite Hmk, Hload in H. discriminate. }
  destruct (init_after_load env use project_id location agent_engine_id user_id
                            w loaded Hmk Hload)
    as [c1 [Hrun [Hp [Hid [Hsrc [Hsvc Huse]]]]]].
  rewrite Hrun in H. injection H as <- <-.
  split; [reflexivity|]. split; [now rewrite Hp|].
  split; [exact Hid|]. split; [exact Hsrc|]. split; [exact Hsvc|]. split; [exact Huse|].
  intros m Hm. unfold as_manager in Hm.
  destruct (as_preferences (c_preferences c1)) as [prefs|] eqn:Hprefs; [|discriminate].
  injection Hm as <-. cbn.
  split; [exact Hid|]. split; [exact Hsrc|]. split; [|split; assumption].
  exists loaded. split; [reflexivity|]. now rewrite <- Hp.
Qed.

Lemma constructor_enables_remote_only_with_a_service_witness :
  let env := {| VERTEX_AI_AVAILABLE := true; mkdir_raises := None;
                service_raises := Some ServiceError |} in
  let w := world_with (Holding (json_dumps [(T "style", T "casual")])) (Results [] None) in
  exists c m,
    __init__ env true (Some (T "p")) (Some (T "l")) (Some (T "7")) (T "ann") w =
    (Returns c, w) /\
    as_manager c = Some m /\
    use_vertex_ai m = false /\ memory_service m = None /\
    preferences m = [(T "style", T "casual")].
Proof.
  intros env w.
  eexists. eexists. split; [vm_compute; reflexivity|].
  split; [vm_compute; reflexivity|].
  match goal with
  | |- use_vertex_ai ?m = _ /\ _ =>
      destruct (constructor_enables_remote_only_with_a_service
                  env true (Some (T "p")) (Some (T "l")) (Some (T "7")) (T "ann")
                  w w _ eq_refl) as [_ [_ [_ [_ [_ [_ H]]]]]];
      destruct (H m eq_refl) as [_ [_ [_ [Hsvc Huse]]]]
  end.
  split; [exact Huse|]. split; reflexivity.
Defined.



End Construction.

(* ===================================================================== *)
(** * The scripts: pushing the local preferences *)
(* ===================================================================== *)

Section Pushing.


Lemma push_preference_runs (name uid v : text) (w : world) :
  push_preference name uid v w =
  if is_generic v then (Returns tt, w)
  else (match generate_raises w with Some e => Raises e | None => Returns tt end,
        after_generate name uid v w).
Proof.
  unfold push_preference, is_generic.
  destruct (contains GENERIC_PHRASE (lower v)); [reflexivity|].
  unfold memories_generate, bind, log_call, after_generate. cbn.
  now destruct (generate_raises w).
Qed.








Lemma push_each_frame (name uid : text) (members : dict json) (w : world) :
  let w' := snd (push_each name uid members w) in
  backing_file w' = backing_file w /\
  writable w' = writable w /\
  exists vs, remote_log w' =
             remote_log w ++
             map (fun v => Generate name (user_message v) (assistant_message v) uid) vs.
Proof.
  cbv zeta. revert w. induction members as [|[k value] members IH]; intros w.
  - cbn. repeat split. exists []. now rewrite app_nil_r.
  - cbn [push_each]. unfold bind.
    destruct value as [| |lexeme|v|items|fields];
      try (cbn; repeat split; exists []; now rewrite app_nil_r).
    rewrite push_preference_runs.
    destruct (is_generic v); [apply IH|].
    destruct (generate_raises w) eqn:Hgen.
    + cbn. repeat split. now exists [v].
    + destruct (IH (after_generate name uid v w)) as [Hfile [Hw [vs Hlog]]].
      split; [exact Hfile|]. split; [exact Hw|].
      exists (v :: vs). rewrite Hlog. cbn. now rewrite <- app_assoc.
Qed.

Lemma push_main_cases (name uid : text) (w : world) :
  (exists o, push_main name uid w = (o, w)) \/
  (exists members, backing_file w <> Missing /\
                   push_main name uid w = push_each name uid members w).
Proof.
  unfold push_main, bind, Client, path_exists, open_r, json_load.
  destruct (client_raises w) as [e|]; [left; eexists; reflexivity|].
  destruct (backing_file w) as [| | |content] eqn:Hfile; rewrite ?Hfile;
    try (left; eexists; reflexivity).
  destruct (decoding w content) as [[| |lexeme|v|items|members]|[| |]];
    try (left; eexists; reflexivity).
  right. exists members. split; [discriminate|reflexivity].
Qed.

(** X15: the push script only generates.  Whatever the backing file holds
    and whatever the remote service does, [main] of [push_preferences.py]
    leaves the backing file as it is and sends the service nothing but
    generation calls under the given engine name and user id: it never
    retrieves.  Without a backing file it sends nothing at all. *)
Theorem push_never_retrieves_and_never_writes (name uid : text) (w : world) :
  let w' := snd (push_main name uid w) in
  backing_file w' = backing_file w /\
  writable w' = writable w /\
  (exists vs, remote_log w' =
              remote_log w ++
              map (fun v => Generate name (user_message v) (assistant_message v) uid) vs) /\
  (backing_file w = Missing -> w' = w).
Proof.
  cbv zeta. destruct (push_main_cases name uid w) as [[o ->]|[members [Hfile ->]]].
  - cbn [snd]. repeat split. exists []. now rewrite app_nil_r.
  - destruct (push_each_frame name uid members w) as [H1 [H2 H3]].
    repeat split; try assumption. intros Hmissing. contradiction.
Qed.

End Pushing.

(* ===================================================================== *)
(** * The scripts: re-syncing *)
(* ===================================================================== *)

Section Resyncing.









End Resyncing.

(* ===================================================================== *)
(** * The classifier matches parts of words *)
(* ===================================================================== *)

Section SubstringMatching.

Lemma any_in_part (words : list text) (a b : text) :
  part_of a b -> any_in words a = true -> any_in words b = true.
Proof.
  unfold any_in. intros Hpart H.
  apply existsb_exists in H as [word [Hin Hword]].
  apply existsb_exists. exists word. split; [assumption|].
  apply contains_part. apply contains_part in Hword.
  now apply part_of_trans with (b := a).
Qed.

Lemma formality_formal (ev : event) :
  formality (analyze_event ev) = T "formal" <->
  any_in FORMAL_WORDS (lower (get_or (ev_summary ev) [])) = true.
Proof.
  unfold analyze_event. cbn [formality].
  destruct (any_in FORMAL_WORDS _); [tauto|].
  destruct (any_in BUSINESS_WORDS _); split; discriminate.
Qed.

Lemma formality_casual (ev : event) :
  formality (analyze_event ev) = T "casual" <->
  any_in FORMAL_WORDS (lower (get_or (ev_summary ev) [])) = false /\
  any_in BUSINESS_WORDS (lower (get_or (ev_summary ev) [])) = false.
Proof.
  unfold analyze_event. cbn [formality].
  destruct (any_in FORMAL_WORDS _).
  - split; [discriminate|intros [H _]; discriminate].
  - destruct (any_in BUSINESS_WORDS _).
    + split; [discriminate|intros [_ H]; discriminate].
    + tauto.
Qed.

Lemma location_type_outdoor (ev : event) :
  location_type (analyze_event ev) = T "outdoor" <->
  any_in OUTDOOR_PLACES (lower (get_or (ev_location ev) [])) = true.
Proof.
  unfold analyze_event. cbn [location_type].
  destruct (any_in OUTDOOR_PLACES _); [tauto|].
  destruct (any_in OFFICE_PLACES _); [split; discriminate|].
  destruct (any_in HOME_PLACES _); split; discriminate.
Qed.

Lemma is_outdoor_by_place_or_word (ev : event) :
  is_outdoor (analyze_event ev) =
  any_in OUTDOOR_PLACES (lower (get_or (ev_location ev) [])) ||
  any_in OUTDOOR_WORDS (lower (get_or (ev_summary ev) [])).
Proof.
  unfold analyze_event. cbn [is_outdoor location_type].
  destruct (any_in OUTDOOR_PLACES _); [reflexivity|].
  destruct (any_in OFFICE_PLACES _); [reflexivity|].
  destruct (any_in HOME_PLACES _); reflexivity.
Qed.

Lemma any_in_part_false (words : list text) (a b : text) :
  part_of a b -> any_in words b = false -> any_in words a = false.
Proof.
  intros Hpart Hb. destruct (any_in words a) eqn:Ha; [|reflexivity].
  now rewrite (any_in_part words a b Hpart Ha) in Hb.
Qed.

(** X17: adding text never takes a match away.  When the lower-cased
    summary and location of one event occur inside those of another,
    whatever a keyword recognised in the first holds for the second: a
    formal event stays formal, exercise stays exercise, outdoor stays
    outdoor, and an event that comes out [casual] was [casual] before the
    text was added. *)
Theorem added_text_keeps_every_match (ev1 ev2 : event) :
  part_of (lower (get_or (ev_summary ev1) [])) (lower (get_or (ev_summary ev2) [])) ->
  part_of (lower (get_or (ev_location ev1) [])) (lower (get_or (ev_location ev2) [])) ->
  let a1 := analyze_event ev1 in
  let a2 := analyze_event ev2 in
  (formality a1 = T "formal" -> formality a2 = T "formal") /\
  (formality a2 = T "casual" -> formality a1 = T "casual") /\
  (is_exercise a1 = true -> is_exercise a2 = true) /\
  (is_outdoor a1 = true -> is_outdoor a2 = true) /\
  (location_type a1 = T "outdoor" -> location_type a2 = T "outdoor").
Proof.
  intros Hsum Hloc. cbv zeta. repeat split.
  - rewrite !formality_formal. now apply any_in_part.
  - intros H. apply formality_casual in H. apply formality_casual. revert H. intros [Hformal Hbusiness].
    split; [now apply (any_in_part_false FORMAL_WORDS _ _ Hsum)
           |now apply (any_in_part_false BUSINESS_WORDS _ _ Hsum)].
  - unfold analyze_event. cbn [is_exercise]. now apply any_in_part.
  - rewrite !is_outdoor_by_place_or_word. intros H.
    apply orb_true_iff in H as [H|H]; apply orb_true_iff.
    + left. now apply (any_in_part OUTDOOR_PLACES _ _ Hloc).
    + right. now apply (any_in_part OUTDOOR_WORDS _ _ Hsum).
  - rewrite !location_type_outdoor. now apply any_in_part.
Qed.

Lemma added_text_keeps_every_match_witness :
  let ev1 := {| ev_summary := Some (T "Yoga"); ev_location := Some (T "Park");
                ev_start := None |} in
  let ev2 := {| ev_summary := Some (T "Sunrise YOGA with Ann");
                ev_location := Some (T "Hyde Park, north gate");
                ev_start := None |} in
  is_exercise (analyze_event ev2) = true /\
  location_type (analyze_event ev2) = T "outdoor".
Proof.
  intros ev1 ev2.
  assert (Hsum : part_of (lower (get_or (ev_summary ev1) []))
                         (lower (get_or (ev_summary ev2) []))).
  { now exists (T "sunrise "), (T " with ann"). }
  assert (Hloc : part_of (lower (get_or (ev_location ev1) []))
                         (lower (get_or (ev_location ev2) []))).
  { now exists (T "hyde "), (T ", north gate"). }
  destruct (added_text_keeps_every_match ev1 ev2 Hsum Hloc)
    as [_ [_ [Hexercise [_ Houtdoor]]]].
  split; [exact (Hexercise eq_refl)|exact (Houtdoor eq_refl)].
Defined.

(** X18: keywords are matched inside longer words.  [work] is a part of
    [workout], so an event whose summary mentions a workout is an
    exercise event and is never [casual]: it comes out [business_casual],
    or [formal] when a formal keyword occurs too. *)
Theorem a_workout_is_never_casual (ev : event) :
  contains (T "workout") (lower (get_or (ev_summary ev) [])) = true ->
  is_exercise (analyze_event ev) = true /\
  formality (analyze_event ev) <> T "casual" /\
  (formality (analyze_event ev) = T "business_casual" \/
   formality (analyze_event ev) = T "formal").
Proof.
  intros H.
  assert (Hwork : contains (T "work") (lower (get_or (ev_summary ev) [])) = true).
  { apply contains_part. apply part_of_trans with (b := T "workout").
    - now exists [], (T "out").
    - now apply contains_part. }
  assert (Hexercise : any_in EXERCISE_WORDS (lower (get_or (ev_summary ev) [])) = true).
  { unfold any_in, EXERCISE_WORDS. cbn [existsb]. rewrite H. now rewrite orb_true_r. }
  assert (Hbusiness : any_in BUSINESS_WORDS (lower (get_or (ev_summary ev) [])) = true).
  { unfold any_in, BUSINESS_WORDS. cbn [existsb]. now rewrite Hwork. }
  split; [exact Hexercise|]. split.
  - rewrite formality_casual. intros [_ Hno]. congruence.
  - unfold analyze_event. cbn [formality]. rewrite Hbusiness.
    destruct (any_in FORMAL_WORDS _); [now right|now left].
Qed.

Lemma a_workout_is_never_casual_witness :
  formality (analyze_event {| ev_summary := Some (T "Evening Workout");
                              ev_location := Some (T "Home");
                              ev_start := None |}) <> T "casual" /\
  formality (analyze_event {| ev_summary := Some (T "Evening Workout");
                              ev_location := Some (T "Home");
                              ev_start := None |}) = T "business_casual".
Proof.
  split; [|reflexivity].
  exact (proj1 (proj2 (a_workout_is_never_casual
                         {| ev_summary := Some (T "Evening Workout");
                            ev_location := Some (T "Home");
                            ev_start := None |} eq_refl))).
Defined.

End SubstringMatching.
